(** * The write path and reorganization engine of libbitcoin-database

    A shallow embedding of [src/data_base.cpp] (the coordinator over the
    block, transaction and address stores) and of [src/memory/accessor.cpp]
    (the scoped view on a memory map), with the properties of the
    specification stated and settled over it.

    Conventions.
    - [size_t] and the other unsigned integers are [Z] with the wrap-around
      written out ([wrap]).
    - A member function that mutates the data base is a computation in the
      state monad [M] over the record [data_base]; a reference parameter the
      function writes ([out_header], [header.metadata], ...) is returned
      next to the code.
    - Every call the coordinator makes on a leaf store is appended to the
      trace of the data base, also when the call fails.
    - [BITCOIN_ASSERT] is compiled out of release builds and is not
      modelled; the logging statements are omitted. *)

From Stdlib Require Import ZArith List Bool Lia.
Import ListNotations.
Local Open Scope Z_scope.

(** ** Machine integers *)

Definition size_t := Z.
Definition max_size_t : size_t := 2 ^ 64 - 1.

(** Arithmetic on [size_t] is modulo [2 ^ 64]. *)
Definition wrap (z : Z) : size_t := z mod 2 ^ 64.

(** [std::vector::size()]. *)
Fixpoint size {A : Type} (l : list A) : size_t :=
  match l with
  | [] => 0
  | _ :: t => size t + 1
  end.

(** Element [k] of a vector, for an index held in a machine integer. *)
Fixpoint at_position {A : Type} (l : list A) (k : Z) : option A :=
  match l with
  | [] => None
  | x :: t => if k =? 0 then Some x else at_position t (k - 1)
  end.

(** ** Error codes

    The codes the engine surfaces, and the verdicts of validation that
    [invalidate] records. [code ec;] default-constructs [success]. *)

Inductive code : Type :=
| success
| store_lock_failure
| operation_failed
| duplicate_transaction
| not_found
| invalid_fork_point
| store_block_invalid_height
| store_block_missing_parent
| validation_failure (value : Z).

(** [operator bool] of a code: true for every code but [success]. *)
Definition is_error (ec : code) : bool :=
  match ec with
  | success => false
  | _ => true
  end.

(** ** Chain objects *)

Definition hash_digest := Z.
Definition link_type := Z.

Record header_metadata : Type := {
  exists_ : bool;
  validated : bool;
  error : code;
  median_time_past : Z;
  state : option Z   (* the chain state snapshot, as its median time past *)
}.

(** A header: its digest, the digest of its parent, the other fields of the
    80 bytes, and the metadata. *)
Record header : Type := {
  hash : hash_digest;
  previous_block_hash : hash_digest;
  fields : Z;
  metadata : header_metadata
}.

(** [chain::header::operator==]: the header itself, the metadata apart. *)
Definition same_header (a b : header) : Prop :=
  hash a = hash b /\
  previous_block_hash a = previous_block_hash b /\
  fields a = fields b.

Definition default_metadata : header_metadata :=
  {| exists_ := false; validated := false; error := success;
     median_time_past := 0; state := None |}.

(** A default-constructed header ([std::make_shared<message::header>()]). *)
Definition default_header : header :=
  {| hash := 0; previous_block_hash := 0; fields := 0;
     metadata := default_metadata |}.

Definition set_verdict (h : header) (ec : code) : header :=
  {| hash := hash h; previous_block_hash := previous_block_hash h;
     fields := fields h;
     metadata := {| exists_ := exists_ (metadata h);
                    validated := true;
                    error := ec;
                    median_time_past := median_time_past (metadata h);
                    state := state (metadata h) |} |}.

Record transaction_metadata : Type := {
  link : link_type;
  existed : bool
}.

Record transaction : Type := {
  tx_hash : hash_digest;
  tx_fields : Z;
  tx_metadata : transaction_metadata
}.

Record block : Type := {
  block_header : header;
  transactions : list transaction
}.

Definition block_hash (b : block) : hash_digest := hash (block_header b).

Definition default_block : block :=
  {| block_header := default_header; transactions := [] |}.

(** [config::checkpoint]. *)
Record checkpoint : Type := {
  checkpoint_hash : hash_digest;
  checkpoint_height : size_t
}.

(** ** The block store

    [block_database] is a class of the repository that is not among the
    sources; the coordinator only calls it. The spec (sections 3 and 6) has
    it record headers, keep the height-indexed candidate and confirmed
    indices, both contiguous and zero-based, and the array of transaction
    links of each header. A header is [candidate] or [confirmed] when the
    matching index holds it. The table is searched newest record first. *)

Module block_database.

(** Modelled from the spec: the record of a header in [block_database]
    (section 3: the header, its validation state and error, its median time
    past, its transaction links). *)
Record block_record : Type := {
  rec_hash : hash_digest;
  rec_previous : hash_digest;
  rec_fields : Z;
  rec_height : size_t;
  rec_median_time_past : Z;
  rec_validated : bool;
  rec_error : code;
  rec_links : list link_type
}.

(** Modelled from the spec: the state of [block_database] (section 3: the
    headers and the two height-indexed chains). *)
Record t : Type := {
  table : list block_record;
  candidate_index : list hash_digest;
  confirmed_index : list hash_digest
}.

Definition index_of (db : t) (candidate : bool) : list hash_digest :=
  if candidate then candidate_index db else confirmed_index db.

Definition with_index (db : t) (candidate : bool) (idx : list hash_digest)
  : t :=
  {| table := table db;
     candidate_index := if candidate then idx else candidate_index db;
     confirmed_index := if candidate then confirmed_index db else idx |}.

Definition with_table (db : t) (tb : list block_record) : t :=
  {| table := tb;
     candidate_index := candidate_index db;
     confirmed_index := confirmed_index db |}.

Definition find_record (tb : list block_record) (h : hash_digest)
  : option block_record :=
  List.find (fun r => rec_hash r =? h) tb.

(** Rewrite the newest record of digest [h]. *)
Fixpoint rewrite_record (f : block_record -> block_record)
    (h : hash_digest) (tb : list block_record) : list block_record :=
  match tb with
  | [] => []
  | r :: rest =>
      if rec_hash r =? h then f r :: rest
      else r :: rewrite_record f h rest
  end.

(** Modelled from the spec: [block_database::get(hash)] (section 6);
    [None] is the result that converts to false. *)
Definition get_hash (db : t) (h : hash_digest) : option block_record :=
  find_record (table db) h.

(** Modelled from the spec: [block_database::get(height, candidate)]
    (section 6), the header the index has at the height. *)
Definition get (db : t) (height : size_t) (candidate : bool)
  : option block_record :=
  match at_position (index_of db candidate) height with
  | None => None
  | Some h => find_record (table db) h
  end.

(** Modelled from the spec: [block_database::top(out_height, candidate)]
    (section 6); it fails on an empty index. *)
Definition top (db : t) (candidate : bool) : option size_t :=
  match index_of db candidate with
  | [] => None
  | idx => Some (size idx - 1)
  end.

(** Modelled from the spec: [block_result::header()], the stored header
    with the metadata the store keeps for it (section 3). *)
Definition result_header (r : block_record) : header :=
  {| hash := rec_hash r;
     previous_block_hash := rec_previous r;
     fields := rec_fields r;
     metadata := {| exists_ := true;
                    validated := rec_validated r;
                    error := rec_error r;
                    median_time_past := rec_median_time_past r;
                    state := None |} |}.

(** Modelled from the spec: [block_database::store(header, height, mtp)]
    (sections 3 and 6): a new record, not validated ([missing]) and with no
    transaction associated. *)
Definition store (db : t) (h : header) (height : size_t) (mtp : Z) : t :=
  with_table db
    ({| rec_hash := hash h;
        rec_previous := previous_block_hash h;
        rec_fields := fields h;
        rec_height := height;
        rec_median_time_past := mtp;
        rec_validated := false;
        rec_error := success;
        rec_links := [] |} :: table db).

(** Modelled from the spec: [block_database::index(hash, height,
    candidate)] (section 4.3: append to the index). The indices are
    contiguous and every entry refers to a recorded header (section 3), so
    [height] has to be the next height and the header has to be recorded. *)
Definition index (db : t) (h : hash_digest) (height : size_t)
    (candidate : bool) : bool * t :=
  if height =? size (index_of db candidate) then
    match find_record (table db) h with
    | None => (false, db)
    | Some _ => (true, with_index db candidate (index_of db candidate ++ [h]))
    end
  else (false, db).

(** Modelled from the spec: [block_database::unindex(hash, height,
    candidate)] (section 4.4): removes the header from the top of the
    index, where it has to be at [height]. *)
Definition unindex (db : t) (h : hash_digest) (height : size_t)
    (candidate : bool) : bool * t :=
  if (size (index_of db candidate) =? height + 1)
     && match at_position (index_of db candidate) height with
        | Some h' => h' =? h
        | None => false
        end
  then (true, with_index db candidate (removelast (index_of db candidate)))
  else (false, db).

(** Modelled from the spec: [block_database::validate(hash, code)]
    (section 4.3): records the verdict on the header. *)
Definition validate (db : t) (h : hash_digest) (ec : code) : bool * t :=
  match find_record (table db) h with
  | None => (false, db)
  | Some _ =>
      (true,
       with_table db
         (rewrite_record
            (fun r => {| rec_hash := rec_hash r;
                         rec_previous := rec_previous r;
                         rec_fields := rec_fields r;
                         rec_height := rec_height r;
                         rec_median_time_past := rec_median_time_past r;
                         rec_validated := true;
                         rec_error := ec;
                         rec_links := rec_links r |})
            h (table db)))
  end.

(** Modelled from the spec: [block_database::update(block)] (section 4.3):
    binds the header to the links of its transactions. *)
Definition update (db : t) (b : block) : bool * t :=
  match find_record (table db) (block_hash b) with
  | None => (false, db)
  | Some _ =>
      (true,
       with_table db
         (rewrite_record
            (fun r => {| rec_hash := rec_hash r;
                         rec_previous := rec_previous r;
                         rec_fields := rec_fields r;
                         rec_height := rec_height r;
                         rec_median_time_past := rec_median_time_past r;
                         rec_validated := rec_validated r;
                         rec_error := rec_error r;
                         rec_links :=
                           map (fun tx => link (tx_metadata tx))
                               (transactions b) |})
            (block_hash b) (table db)))
  end.

End block_database.

(** ** The transaction store

    [transaction_database] is a class of the repository that is not among
    the sources. The spec (sections 3 and 6) has it record each transaction
    once, by hash, under a link, with a candidate mark and a confirmation
    tuple [(height, median_time_past, position)]. A link is the position of
    the record. The spender heights of the outputs are state the
    coordinator never reads; they are left out. *)

Module transaction_database.

(** Modelled from the spec: the record of a transaction in
    [transaction_database] (section 3). *)
Record tx_record : Type := {
  rec_tx_hash : hash_digest;
  rec_tx_fields : Z;
  rec_candidate : bool;
  rec_confirmation : option (size_t * Z * Z)
}.

Definition t := list tx_record.

(** The link of the record of digest [h], counting from [k]. *)
Fixpoint find_link (db : t) (h : hash_digest) (k : link_type)
  : option link_type :=
  match db with
  | [] => None
  | r :: rest =>
      if rec_tx_hash r =? h then Some k else find_link rest h (k + 1)
  end.

(** Modelled from the spec: [transaction_database::get(link)] (section 6);
    [None] is the result that converts to false. *)
Definition get (db : t) (l : link_type) : option tx_record :=
  at_position db l.

(** Modelled from the spec: [transaction_result::transaction()], the
    stored transaction with its link metadata (section 3). *)
Definition result_transaction (l : link_type) (r : tx_record) : transaction :=
  {| tx_hash := rec_tx_hash r;
     tx_fields := rec_tx_fields r;
     tx_metadata := {| link := l; existed := true |} |}.

(** A default-constructed transaction, which a result that converts to
    false yields. *)
Definition default_transaction : transaction :=
  {| tx_hash := 0; tx_fields := 0;
     tx_metadata := {| link := max_size_t; existed := false |} |}.

Fixpoint rewrite_at (f : tx_record -> tx_record) (db : t) (l : link_type)
  : option t :=
  match db with
  | [] => None
  | r :: rest =>
      if l =? 0 then Some (f r :: rest)
      else match rewrite_at f rest (l - 1) with
           | Some rest' => Some (r :: rest')
           | None => None
           end
  end.

Definition set_candidate (c : bool) (r : tx_record) : tx_record :=
  {| rec_tx_hash := rec_tx_hash r; rec_tx_fields := rec_tx_fields r;
     rec_candidate := c; rec_confirmation := rec_confirmation r |}.

Definition set_confirmation (c : option (size_t * Z * Z)) (r : tx_record)
  : tx_record :=
  {| rec_tx_hash := rec_tx_hash r; rec_tx_fields := rec_tx_fields r;
     rec_candidate := rec_candidate r; rec_confirmation := c |}.

Definition apply_at (f : tx_record -> tx_record) (db : t) (l : link_type)
  : bool * t :=
  match rewrite_at f db l with
  | Some db' => (true, db')
  | None => (false, db)
  end.

(** Modelled from the spec: [transaction_database::store] for one
    transaction of a list (section 4.3): stores it if missing and sets its
    link metadata in every case. *)
Definition store_one (db : t) (tx : transaction) : t * transaction :=
  match find_link db (tx_hash tx) 0 with
  | Some l =>
      (db, {| tx_hash := tx_hash tx; tx_fields := tx_fields tx;
              tx_metadata := {| link := l; existed := true |} |})
  | None =>
      (db ++ [{| rec_tx_hash := tx_hash tx; rec_tx_fields := tx_fields tx;
                 rec_candidate := false; rec_confirmation := None |}],
       {| tx_hash := tx_hash tx; tx_fields := tx_fields tx;
          tx_metadata := {| link := size db; existed := false |} |})
  end.

(** Modelled from the spec: [transaction_database::store(tx_list)]
    (section 4.3: stores any missing, populates the link metadata of
    each). *)
Fixpoint store (db : t) (txs : list transaction)
  : bool * t * list transaction :=
  match txs with
  | [] => (true, db, [])
  | tx :: rest =>
      let '(db1, tx') := store_one db tx in
      let '(ok, db2, rest') := store db1 rest in
      (ok, db2, tx' :: rest')
  end.

(** Modelled from the spec: [transaction_database::confirm(link, height,
    mtp, position)] (section 6): sets the confirmation tuple. *)
Definition confirm (db : t) (l : link_type) (height : size_t) (mtp : Z)
    (position : Z) : bool * t :=
  apply_at (set_confirmation (Some (height, mtp, position))) db l.

(** Modelled from the spec: [transaction_database::confirm(tx_list,
    height, mtp)] (section 4.3): the transactions in order, each at its
    position in the block, up to the first that fails. *)
Fixpoint confirm_from (db : t) (txs : list transaction) (height : size_t)
    (mtp : Z) (position : Z) : bool * t :=
  match txs with
  | [] => (true, db)
  | tx :: rest =>
      let '(ok, db1) := confirm db (link (tx_metadata tx)) height mtp position in
      if ok then confirm_from db1 rest height mtp (position + 1)
      else (false, db1)
  end.

Definition confirm_all (db : t) (txs : list transaction) (height : size_t)
    (mtp : Z) : bool * t :=
  confirm_from db txs height mtp 0.

(** Modelled from the spec: [transaction_database::unconfirm(link)]
    (section 4.4): clears the confirmation tuple. *)
Definition unconfirm (db : t) (l : link_type) : bool * t :=
  apply_at (set_confirmation None) db l.

(** Modelled from the spec: [transaction_database::candidate(link)] and
    [uncandidate(link)] (sections 4.3 and 4.4): set and clear the candidate
    mark. *)
Definition candidate (db : t) (l : link_type) : bool * t :=
  apply_at (set_candidate true) db l.

Definition uncandidate (db : t) (l : link_type) : bool * t :=
  apply_at (set_candidate false) db l.

End transaction_database.

(** ** The data base: state, trace and monad *)

Record settings : Type := {
  index_addresses : bool;
  flush_writes : bool
}.

Inductive leaf : Type := blocks_leaf | transactions_leaf | addresses_leaf.

(** The calls of the coordinator on the leaf stores and on the files of the
    store, and its stores to the member [closed_], which are recorded with
    the calls so that their place among them can be stated. *)
Inductive event : Type :=
| ev_open (l : leaf)
| ev_close (l : leaf)
| ev_commit (l : leaf)
| ev_blocks_store (h : hash_digest) (height : size_t) (mtp : Z)
| ev_blocks_index (h : hash_digest) (height : size_t) (candidate : bool)
| ev_blocks_unindex (h : hash_digest) (height : size_t) (candidate : bool)
| ev_blocks_update (h : hash_digest)
| ev_blocks_validate (h : hash_digest) (ec : code)
| ev_transactions_store (hs : list hash_digest)
| ev_transactions_confirm_all (hs : list hash_digest) (height : size_t) (mtp : Z)
| ev_transactions_confirm (l : link_type) (height : size_t) (mtp : Z) (position : Z)
| ev_transactions_unconfirm (l : link_type)
| ev_transactions_candidate (l : link_type)
| ev_transactions_uncandidate (l : link_type)
| ev_begin_write
| ev_end_write
| ev_store_open
| ev_store_close
| ev_set_closed (c : bool).

(** The object: the members of [data_base] and of its base [store], the
    outcomes of the file operations to come ([io_], consumed one per
    operation, exhausted means success) and the trace of the calls made. *)
Record data_base : Type := {
  closed_ : bool;
  settings_ : settings;
  blocks_ : block_database.t;
  transactions_ : transaction_database.t;
  flush_lock_ : bool;
  io_ : list bool;
  trace_ : list event
}.

Definition set_closed (c : bool) (db : data_base) : data_base :=
  {| closed_ := c; settings_ := settings_ db; blocks_ := blocks_ db;
     transactions_ := transactions_ db; flush_lock_ := flush_lock_ db;
     io_ := io_ db; trace_ := trace_ db |}.

Definition set_blocks (b : block_database.t) (db : data_base) : data_base :=
  {| closed_ := closed_ db; settings_ := settings_ db; blocks_ := b;
     transactions_ := transactions_ db; flush_lock_ := flush_lock_ db;
     io_ := io_ db; trace_ := trace_ db |}.

Definition set_transactions (t : transaction_database.t) (db : data_base)
  : data_base :=
  {| closed_ := closed_ db; settings_ := settings_ db; blocks_ := blocks_ db;
     transactions_ := t; flush_lock_ := flush_lock_ db;
     io_ := io_ db; trace_ := trace_ db |}.

Definition set_flush_lock (f : bool) (db : data_base) : data_base :=
  {| closed_ := closed_ db; settings_ := settings_ db; blocks_ := blocks_ db;
     transactions_ := transactions_ db; flush_lock_ := f;
     io_ := io_ db; trace_ := trace_ db |}.

Definition set_io (io : list bool) (db : data_base) : data_base :=
  {| closed_ := closed_ db; settings_ := settings_ db; blocks_ := blocks_ db;
     transactions_ := transactions_ db; flush_lock_ := flush_lock_ db;
     io_ := io; trace_ := trace_ db |}.

Definition set_trace (tr : list event) (db : data_base) : data_base :=
  {| closed_ := closed_ db; settings_ := settings_ db; blocks_ := blocks_ db;
     transactions_ := transactions_ db; flush_lock_ := flush_lock_ db;
     io_ := io_ db; trace_ := tr |}.

(** The state monad of the member functions. *)
Definition M (A : Type) : Type := data_base -> A * data_base.

Definition ret {A : Type} (a : A) : M A := fun db => (a, db).

Definition bind {A B : Type} (m : M A) (k : A -> M B) : M B :=
  fun db => let (a, db') := m db in k a db'.

Declare Scope db_scope.
Delimit Scope db_scope with db.
Notation "x <- m ;; k" := (bind m (fun x => k))
  (at level 61, m at next level, right associativity) : db_scope.
Notation "' p <- m ;; k" := (bind m (fun x => let p := x in k))
  (at level 61, p pattern, m at next level, right associativity) : db_scope.
Notation "m ;; k" := (bind m (fun _ => k))
  (at level 61, right associativity) : db_scope.
Local Open Scope db_scope.

Definition gets {A : Type} (f : data_base -> A) : M A := fun db => (f db, db).

Definition modify (f : data_base -> data_base) : M unit :=
  fun db => (tt, f db).

Definition emit (e : event) : M unit :=
  modify (fun db => set_trace (trace_ db ++ [e]) db).

(** [closed_ = c;]. *)
Definition assign_closed (c : bool) : M unit :=
  emit (ev_set_closed c) ;;
  modify (set_closed c).

(** The outcome of the next file operation. *)
Definition next_io : M bool :=
  fun db =>
    match io_ db with
    | [] => (true, db)
    | b :: rest => (b, set_io rest db)
    end.

(** A call on the block store that reports success. *)
Definition on_blocks (e : event)
    (f : block_database.t -> bool * block_database.t) : M bool :=
  emit e ;;
  b <- gets blocks_ ;;
  let (ok, b') := f b in
  modify (set_blocks b') ;;
  ret ok.

(** A call on the transaction store that reports success. *)
Definition on_transactions (e : event)
    (f : transaction_database.t -> bool * transaction_database.t) : M bool :=
  emit e ;;
  t <- gets transactions_ ;;
  let (ok, t') := f t in
  modify (set_transactions t') ;;
  ret ok.

(** ** The preconditions

    [verify.hpp] is included by the source and its functions are not among
    the sources. Section 4 of the spec gives what each checks; section 6
    lists the codes. Where the spec names no code for a failure the closest
    listed code is returned; only its being a failure matters below. *)

Module verify.

(** Modelled from the spec: [verify_exists(blocks, header)] (sections 4.3
    and 6): the header is recorded, or [not_found]. *)
Definition verify_exists (blocks : block_database.t) (h : header) : code :=
  match block_database.get_hash blocks (hash h) with
  | Some _ => success
  | None => not_found
  end.

(** Modelled from the spec: [verify(blocks, fork_point, candidate)]
    (section 4.4): the fork point's hash is that of the header at the fork
    point's height in the index; in particular a height above the top is an
    [invalid_fork_point]. *)
Definition verify (blocks : block_database.t) (fork_point : checkpoint)
    (candidate : bool) : code :=
  match block_database.get blocks (checkpoint_height fork_point) candidate with
  | Some r =>
      if block_database.rec_hash r =? checkpoint_hash fork_point then success
      else invalid_fork_point
  | None => invalid_fork_point
  end.

(** Modelled from the spec: [verify_top(blocks, height, candidate)]
    (section 4.5): the top of the index is [height]. *)
Definition verify_top (blocks : block_database.t) (height : size_t)
    (candidate : bool) : code :=
  match block_database.top blocks candidate with
  | Some actual => if actual =? height then success else operation_failed
  | None => operation_failed
  end.

(** Modelled from the spec: [verify_push(blocks, header, height)] (section
    4.5): [height] is the candidate top plus one and the header's parent is
    the header at the candidate top. *)
Definition verify_push_header (blocks : block_database.t) (h : header)
    (height : size_t) : code :=
  if height =? size (block_database.candidate_index blocks) then
    if height =? 0 then success
    else match at_position (block_database.candidate_index blocks) (height - 1) with
         | Some parent =>
             if parent =? previous_block_hash h then success
             else store_block_missing_parent
         | None => store_block_missing_parent
         end
  else store_block_invalid_height.

(** Modelled from the spec: [verify_push(blocks, block, height)] (section
    4.6): the block's header is in the candidate index at [height] and the
    confirmed top is [height - 1]. *)
Definition verify_push_block (blocks : block_database.t) (b : block)
    (height : size_t) : code :=
  if height =? size (block_database.confirmed_index blocks) then
    match at_position (block_database.candidate_index blocks) height with
    | Some h => if h =? block_hash b then success else not_found
    | None => not_found
    end
  else store_block_invalid_height.

End verify.

(** ** The base class [store]

    [store.hpp] is included by the source and the member functions of
    [store] are not among the sources. Creating and removing a file can
    fail: each such operation takes its outcome from [io_]. *)

Module store.

(** Modelled from the spec: [store::flush_each_write()], the [flush_writes]
    setting (section 6). *)
Definition flush_each_write : M bool :=
  gets (fun db => flush_writes (settings_ db)).

(** Modelled from the spec: [store::begin_write()] (sections 3 and 4.2).
    It records the in-flight marker: with [flush_each_write] the flush lock
    file is created at each write; without, it is created at the first
    [begin_write] and held for the life of the store. *)
Definition begin_write : M bool :=
  emit ev_begin_write ;;
  each <- flush_each_write ;;
  held <- gets flush_lock_ ;;
  if each || negb held then
    ok <- next_io ;;
    (if ok then modify (set_flush_lock true) else ret tt) ;;
    ret ok
  else ret true.

(** Modelled from the spec: [store::end_write()] (section 4.2): clears the
    marker of a write that has created one. *)
Definition end_write : M bool :=
  emit ev_end_write ;;
  each <- flush_each_write ;;
  if each then
    ok <- next_io ;;
    (if ok then modify (set_flush_lock false) else ret tt) ;;
    ret ok
  else ret true.

(** Modelled from the spec: [store::open()] (section 4.1): takes the
    exclusive lock on the directory and fails on a flush lock file left by
    an unclean shutdown. *)
Definition open : M bool :=
  emit ev_store_open ;;
  held <- gets flush_lock_ ;;
  if held then ret false else next_io.

(** Modelled from the spec: [store::close()] (sections 3 and 4.1): releases
    the exclusive lock, and the flush lock file held for the life of the
    store. *)
Definition close : M bool :=
  emit ev_store_close ;;
  ok <- next_io ;;
  each <- flush_each_write ;;
  (if ok && negb each then modify (set_flush_lock false) else ret tt) ;;
  ret ok.

End store.

(** Modelled from the spec: the [open()] of a leaf store (section 6), a
    file operation, which can fail. *)
Definition leaf_open (l : leaf) : M bool := emit (ev_open l) ;; next_io.

(** Modelled from the spec: the [close()] of a leaf store (section 6), a
    file operation, which can fail. *)
Definition leaf_close (l : leaf) : M bool := emit (ev_close l) ;; next_io.

(** Modelled from the spec: the [commit()] of a leaf store (section 4.2),
    which changes no record. *)
Definition leaf_commit (l : leaf) : M unit := emit (ev_commit l).

(** [a && b] of C++: [b] is evaluated only when [a] is true. *)
Definition and_then (a : bool) (b : M bool) : M bool :=
  if a then b else ret false.

(** ** [data_base]: open and close (data_base.cpp, lines 135-256) *)

(** [data_base::start]: makes the leaf objects; no stored data changes. *)
Definition start : M unit := ret tt.

(** [data_base::open]: the leaves are opened in the order blocks,
    transactions, addresses. *)
Definition open : M bool :=
  ok <- store.open ;;
  if negb ok then ret false
  else
    start ;;
    opened <- leaf_open blocks_leaf ;;
    opened <- and_then opened (leaf_open transactions_leaf) ;;
    indexed <- gets (fun db => index_addresses (settings_ db)) ;;
    opened <- (if indexed then and_then opened (leaf_open addresses_leaf)
               else ret opened) ;;
    if negb opened then ret false
    else
      assign_closed false ;;
      ret opened.

(** [data_base::commit]. *)
Definition commit : M unit :=
  indexed <- gets (fun db => index_addresses (settings_ db)) ;;
  (if indexed then leaf_commit addresses_leaf else ret tt) ;;
  leaf_commit transactions_leaf ;;
  leaf_commit blocks_leaf.

(** [data_base::close]. *)
Definition close : M bool :=
  is_closed <- gets closed_ ;;
  if is_closed then ret true
  else
    assign_closed true ;;
    closed <- leaf_close blocks_leaf ;;
    closed <- and_then closed (leaf_close transactions_leaf) ;;
    indexed <- gets (fun db => index_addresses (settings_ db)) ;;
    closed <- (if indexed then and_then closed (leaf_close addresses_leaf)
               else ret closed) ;;
    and_then closed store.close.

(** ** The calls on the leaves, traced *)

Definition blocks_store (h : header) (height : size_t) (mtp : Z) : M unit :=
  emit (ev_blocks_store (hash h) height mtp) ;;
  modify (fun db => set_blocks (block_database.store (blocks_ db) h height mtp) db).

Definition blocks_index (h : hash_digest) (height : size_t) (candidate : bool)
  : M bool :=
  on_blocks (ev_blocks_index h height candidate)
            (fun b => block_database.index b h height candidate).

Definition blocks_unindex (h : hash_digest) (height : size_t)
    (candidate : bool) : M bool :=
  on_blocks (ev_blocks_unindex h height candidate)
            (fun b => block_database.unindex b h height candidate).

Definition blocks_validate (h : hash_digest) (ec : code) : M bool :=
  on_blocks (ev_blocks_validate h ec)
            (fun b => block_database.validate b h ec).

Definition blocks_update (b : block) : M bool :=
  on_blocks (ev_blocks_update (block_hash b))
            (fun bs => block_database.update bs b).

(** [transactions_->store(block.transactions())] writes the link metadata
    of the transactions of the caller's block: they are returned. *)
Definition transactions_store (txs : list transaction)
  : M (bool * list transaction) :=
  emit (ev_transactions_store (map tx_hash txs)) ;;
  t <- gets transactions_ ;;
  let '(ok, t', txs') := transaction_database.store t txs in
  modify (set_transactions t') ;;
  ret (ok, txs').

Definition transactions_confirm_all (txs : list transaction)
    (height : size_t) (mtp : Z) : M bool :=
  on_transactions (ev_transactions_confirm_all (map tx_hash txs) height mtp)
                  (fun t => transaction_database.confirm_all t txs height mtp).

Definition transactions_confirm (l : link_type) (height : size_t) (mtp : Z)
    (position : Z) : M bool :=
  on_transactions (ev_transactions_confirm l height mtp position)
                  (fun t => transaction_database.confirm t l height mtp position).

Definition transactions_unconfirm (l : link_type) : M bool :=
  on_transactions (ev_transactions_unconfirm l)
                  (fun t => transaction_database.unconfirm t l).

Definition transactions_uncandidate (l : link_type) : M bool :=
  on_transactions (ev_transactions_uncandidate l)
                  (fun t => transaction_database.uncandidate t l).

(** The failure path of a write: [end_write] is attempted, its result only
    logged, and the code returned. *)
Definition fail_write {A : Type} (a : A) : M A :=
  store.end_write ;; ret a.

(** The tail of a write: [end_write() ? success : store_lock_failure]. *)
Definition finish_write : M code :=
  ok <- store.end_write ;;
  ret (if ok then success else store_lock_failure).

(** ** Public writers (data_base.cpp, lines 554-609 and 708-823) *)

(** [data_base::invalidate(header&, const code&)]: the header is returned
    with the metadata the call has written. *)
Definition invalidate (h : header) (err : code) : M (code * header) :=
  blocks <- gets blocks_ ;;
  let ec := verify.verify_exists blocks h in
  if is_error ec then ret (ec, h)
  else
    ok <- store.begin_write ;;
    if negb ok then ret (store_lock_failure, h)
    else
      ok <- blocks_validate (hash h) err ;;
      if negb ok then fail_write (operation_failed, h)
      else
        let h := set_verdict h err in
        ec <- finish_write ;;
        ret (ec, h).

(** [data_base::push(block&, size_t, uint32_t)]: the block is returned with
    the link metadata [transactions_->store] has set. *)
Definition push (b : block) (height : size_t) (mtp : Z) : M (code * block) :=
  ok <- store.begin_write ;;
  if negb ok then ret (store_lock_failure, b)
  else
    blocks_store (block_header b) height mtp ;;
    ok <- blocks_index (block_hash b) height true ;;
    if negb ok then fail_write (operation_failed, b)
    else
      '(ok, txs) <- transactions_store (transactions b) ;;
      let b := {| block_header := block_header b; transactions := txs |} in
      if negb ok then fail_write (operation_failed, b)
      else
        ok <- blocks_update b ;;
        if negb ok then fail_write (operation_failed, b)
        else
          ok <- transactions_confirm_all (transactions b) height mtp ;;
          if negb ok then fail_write (operation_failed, b)
          else
            ok <- blocks_validate (block_hash b) success ;;
            if negb ok then fail_write (operation_failed, b)
            else
              ok <- blocks_index (block_hash b) height false ;;
              if negb ok then fail_write (operation_failed, b)
              else
                commit ;;
                ec <- finish_write ;;
                ret (ec, b).

(** ** Header reorganization (data_base.cpp, lines 447-465 and 829-1019) *)

Module header_reorganization.

(** [data_base::push_header]: the results of [blocks_->store] and
    [blocks_->index] are not looked at. *)
Definition push_header (h : header) (height : size_t) (mtp : Z) : M code :=
  blocks <- gets blocks_ ;;
  let ec := verify.verify_push_header blocks h height in
  if is_error ec then ret ec
  else
    ok <- store.begin_write ;;
    if negb ok then ret store_lock_failure
    else
      (if negb (exists_ (metadata h)) then blocks_store h height mtp
       else ret tt) ;;
      blocks_index (hash h) height true ;;
      leaf_commit blocks_leaf ;;
      finish_write.

(** The loop over the links of the popped header: false when an
    [uncandidate] has failed, which ends the loop. *)
Fixpoint uncandidate_links (links : list link_type) : M bool :=
  match links with
  | [] => ret true
  | l :: rest =>
      ok <- transactions_uncandidate l ;;
      if negb ok then ret false else uncandidate_links rest
  end.

(** [data_base::pop_header]. The code of [verify_top] is tested and not
    assigned: on its failure the function returns [ec], which is still the
    default-constructed code. *)
Definition pop_header (out_header : header) (height : size_t)
  : M (code * header) :=
  let ec := success in
  blocks <- gets blocks_ ;;
  if is_error (verify.verify_top blocks height true) then ret (ec, out_header)
  else
    match block_database.get blocks height true with
    | None => ret (operation_failed, out_header)
    | Some result =>
        ok <- store.begin_write ;;
        if negb ok then ret (store_lock_failure, out_header)
        else
          ok <- uncandidate_links (block_database.rec_links result) ;;
          if negb ok then fail_write (operation_failed, out_header)
          else
            ok <- blocks_unindex (block_database.rec_hash result) height true ;;
            if negb ok then fail_write (operation_failed, out_header)
            else
              leaf_commit blocks_leaf ;;
              let out_header := block_database.result_header result in
              ec <- finish_write ;;
              ret (ec, out_header)
    end.

(** The loop of [push_all]: [index] counts the headers pushed. *)
Fixpoint push_from (headers : list header) (first_height index : size_t)
  : M bool :=
  match headers with
  | [] => ret true
  | h :: rest =>
      ec <- push_header h (wrap (first_height + index))
                        (median_time_past (metadata h)) ;;
      if is_error ec then ret false
      else push_from rest first_height (index + 1)
  end.

Definition push_all (headers : list header) (fork_point : checkpoint)
  : M bool :=
  let first_height := wrap (checkpoint_height fork_point + 1) in
  push_from headers first_height 0.

(** The loop of [pop_above], [for (height = top; height > fork; --height)].
    It runs [top - fork] times; [fuel] bounds the iterations and is no
    limit when it starts at the depth (see [pop_from_fuel]). *)
Fixpoint pop_from (fuel : nat) (height fork : size_t) (headers : list header)
  : M (bool * list header) :=
  match fuel with
  | O => ret (true, headers)
  | S fuel' =>
      if height >? fork then
        '(ec, next) <- pop_header default_header height ;;
        if is_error ec then ret (false, headers)
        else pop_from fuel' (wrap (height - 1)) fork (next :: headers)
      else ret (true, headers)
  end.

(** [data_base::pop_above(headers, fork_point)]: the list is cleared, then
    filled from the front. [headers->reserve(depth)] changes no element. *)
Definition pop_above (headers : list header) (fork_point : checkpoint)
  : M (bool * list header) :=
  let headers : list header := [] in
  blocks <- gets blocks_ ;;
  if is_error (verify.verify blocks fork_point true) then ret (false, headers)
  else
    match block_database.top blocks true with
    | None => ret (false, headers)
    | Some top =>
        let fork := checkpoint_height fork_point in
        let depth := wrap (top - fork) in
        if depth =? 0 then ret (true, headers)
        else pop_from (Z.to_nat depth) top fork headers
    end.

(** [data_base::reorganize(fork_point, incoming, outgoing)] on headers. *)
Definition reorganize (fork_point : checkpoint) (incoming : list header)
    (outgoing : list header) : M (code * list header) :=
  if checkpoint_height fork_point >? wrap (max_size_t - size incoming)
  then ret (operation_failed, outgoing)
  else
    '(popped, outgoing) <- pop_above outgoing fork_point ;;
    result <- and_then popped (push_all incoming fork_point) ;;
    ret (if result then success else operation_failed, outgoing).

End header_reorganization.

(** ** Block reorganization (data_base.cpp, lines 687-704 and 1025-1314) *)

Module block_reorganization.

(** [data_base::to_transactions(result)]: the transactions the links of the
    result name, in order. *)
Definition to_transactions (txs : transaction_database.t)
    (result : block_database.block_record) : list transaction :=
  map (fun l =>
         match transaction_database.get txs l with
         | Some tx => transaction_database.result_transaction l tx
         | None => transaction_database.default_transaction
         end)
      (block_database.rec_links result).

(** The loop over the transactions of the pushed block, [position++] on a
    [uint32_t]: false when a [confirm] has failed, which ends the loop. *)
Fixpoint confirm_transactions (txs : list transaction) (height : size_t)
    (mtp : Z) (position : Z) : M bool :=
  match txs with
  | [] => ret true
  | tx :: rest =>
      ok <- transactions_confirm (link (tx_metadata tx)) height mtp position ;;
      if negb ok then ret false
      else confirm_transactions rest height mtp ((position + 1) mod 2 ^ 32)
  end.

(** [data_base::push_block]. Before anything else the function reads the
    median time past through the pointer [metadata.state] of the header
    (line 1092; the assertion of line 1091 is compiled out of a release
    build). On a header that has no chain state the null pointer is
    dereferenced: the call does not return, which is the result [None],
    with the object as it was. A call that returns has the result
    [Some code]. *)
Definition push_block (b : block) (height : size_t) : M (option code) :=
  match state (metadata (block_header b)) with
  | None => ret None
  | Some median_time_past =>
      blocks <- gets blocks_ ;;
      let ec := verify.verify_push_block blocks b height in
      if is_error ec then ret (Some ec)
      else
        ok <- store.begin_write ;;
        if negb ok then ret (Some store_lock_failure)
        else
          ok <- confirm_transactions (transactions b) height
                  median_time_past 0 ;;
          if negb ok then fail_write (Some operation_failed)
          else
            ok <- blocks_index (block_hash b) height false ;;
            if negb ok then fail_write (Some operation_failed)
            else
              commit ;;
              ec <- finish_write ;;
              ret (Some ec)
  end.

(** The loop over the transactions of the popped block. *)
Fixpoint unconfirm_transactions (txs : list transaction) : M bool :=
  match txs with
  | [] => ret true
  | tx :: rest =>
      ok <- transactions_unconfirm (link (tx_metadata tx)) ;;
      if negb ok then ret false else unconfirm_transactions rest
  end.

(** [data_base::pop_block]: [out_block] is assigned as soon as the result
    is read, before the write begins. *)
Definition pop_block (out_block : block) (height : size_t)
  : M (code * block) :=
  blocks <- gets blocks_ ;;
  let ec := verify.verify_top blocks height false in
  if is_error ec then ret (ec, out_block)
  else
    match block_database.get blocks height false with
    | None => ret (operation_failed, out_block)
    | Some result =>
        txs <- gets transactions_ ;;
        let out_block :=
          {| block_header := block_database.result_header result;
             transactions := to_transactions txs result |} in
        ok <- store.begin_write ;;
        if negb ok then ret (store_lock_failure, out_block)
        else
          ok <- unconfirm_transactions (transactions out_block) ;;
          if negb ok then fail_write (operation_failed, out_block)
          else
            ok <- blocks_unindex (block_database.rec_hash result) height false ;;
            if negb ok then fail_write (operation_failed, out_block)
            else
              commit ;;
              ec <- finish_write ;;
              ret (ec, out_block)
    end.

(** The loop of [push_all]: [index] counts the blocks pushed. The result
    is [None] when a [push_block] has not returned. *)
Fixpoint push_from (blocks : list block) (first_height index : size_t)
  : M (option bool) :=
  match blocks with
  | [] => ret (Some true)
  | b :: rest =>
      pushed <- push_block b (wrap (first_height + index)) ;;
      match pushed with
      | None => ret None
      | Some ec =>
          if is_error ec then ret (Some false)
          else push_from rest first_height (index + 1)
      end
  end.

Definition push_all (blocks : list block) (fork_point : checkpoint)
  : M (option bool) :=
  let first_height := wrap (checkpoint_height fork_point + 1) in
  push_from blocks first_height 0.

(** The loop of [pop_above], as for headers. *)
Fixpoint pop_from (fuel : nat) (height fork : size_t) (blocks : list block)
  : M (bool * list block) :=
  match fuel with
  | O => ret (true, blocks)
  | S fuel' =>
      if height >? fork then
        '(ec, next) <- pop_block default_block height ;;
        if is_error ec then ret (false, blocks)
        else pop_from fuel' (wrap (height - 1)) fork (next :: blocks)
      else ret (true, blocks)
  end.

(** [data_base::pop_above(blocks, fork_point)]. *)
Definition pop_above (blocks : list block) (fork_point : checkpoint)
  : M (bool * list block) :=
  let blocks : list block := [] in
  store <- gets blocks_ ;;
  if is_error (verify.verify store fork_point false) then ret (false, blocks)
  else
    match block_database.top store false with
    | None => ret (false, blocks)
    | Some top =>
        let fork := checkpoint_height fork_point in
        let depth := wrap (top - fork) in
        if depth =? 0 then ret (true, blocks)
        else pop_from (Z.to_nat depth) top fork blocks
    end.

(** [a && b] of C++ where [b] may not return. *)
Definition and_then_push (a : bool) (b : M (option bool)) : M (option bool) :=
  if a then b else ret (Some false).

(** [data_base::reorganize(fork_point, incoming, outgoing)] on blocks; the
    result is [None] when [push_all] has not returned. *)
Definition reorganize (fork_point : checkpoint) (incoming : list block)
    (outgoing : list block) : M (option (code * list block)) :=
  if checkpoint_height fork_point >? wrap (max_size_t - size incoming)
  then ret (Some (operation_failed, outgoing))
  else
    '(popped, outgoing) <- pop_above outgoing fork_point ;;
    result <- and_then_push popped (push_all incoming fork_point) ;;
    match result with
    | None => ret None
    | Some result =>
        ret (Some (if result then success else operation_failed, outgoing))
    end.

End block_reorganization.

(** ** The accessor (memory/accessor.cpp)

    The accessor holds a reference to an upgrade mutex and a buffer
    pointer. What it does to the mutex is recorded as the list of the
    member functions of the mutex it has called, oldest first. *)

Module accessor.

Inductive mutex_call : Type :=
| lock_upgrade
| unlock_upgrade_and_lock_shared
| unlock_shared.

Record t : Type := {
  mutex_ : list mutex_call;   (* the calls made on the mutex *)
  data_ : option Z            (* the buffer, [None] for [nullptr] *)
}.

(** [accessor::accessor(upgrade_mutex&)]. *)
Definition construct : t :=
  {| mutex_ := [lock_upgrade]; data_ := None |}.

(** [accessor::buffer()]. *)
Definition buffer (a : t) : option Z := data_ a.

(** [accessor::assign], which takes the buffer pointer. *)
Definition assign (a : t) (data : Z) : t :=
  {| mutex_ := mutex_ a ++ [unlock_upgrade_and_lock_shared];
     data_ := Some data |}.

(** [accessor::increment(size_t)]. *)
Definition increment (a : t) (value : size_t) : t :=
  {| mutex_ := mutex_ a;
     data_ := match data_ a with
              | Some p => Some (wrap (p + value))
              | None => None
              end |}.

(** [accessor::~accessor()]: the calls the accessor has made in its life. *)
Definition destroy (a : t) : list mutex_call :=
  mutex_ a ++ [unlock_shared].

(** What the accessor holds on the mutex. *)
Inductive held : Type := nothing | upgrade | shared.

(** The lock state machine of the spec (section 9): construct takes the
    upgradable shared lock, assign downgrades it to shared, destroy releases
    shared; no other transition is legal ([None]). *)
Definition step (s : held) (c : mutex_call) : option held :=
  match s, c with
  | nothing, lock_upgrade => Some upgrade
  | upgrade, unlock_upgrade_and_lock_shared => Some shared
  | shared, unlock_shared => Some nothing
  | _, _ => None
  end.

Fixpoint run (s : held) (calls : list mutex_call) : option held :=
  match calls with
  | [] => Some s
  | c :: rest =>
      match step s c with
      | Some s' => run s' rest
      | None => None
      end
  end.

(** A life of the accessor in which [assign] is called on each of the
    buffers of [buffers] in turn, then the accessor is destroyed. *)
Definition life (buffers : list Z) : list mutex_call :=
  destroy (fold_left assign buffers construct).

End accessor.

(** ** The rest of [data_base]: construction, creation, flushing and the
    other public writers

    The address store is a member of the object that the functions above
    never read; here it is passed to the functions that use it and returned
    by them. The calls of [create] and [flush] on the leaves are file
    operations that take their outcome from [io_]; the trace has no event
    for them. *)

Module address_database.

(** Modelled from the spec: the state of [address_database] (section 3: the
    rows the index holds, each under the link of its transaction); kept as
    the links of the transactions indexed, oldest first. *)
Definition t := list link_type.

(** Modelled from the spec: [address_database::index(tx)] (section 4.3):
    adds the rows of the transaction. *)
Definition index (db : t) (tx : transaction) : t :=
  db ++ [link (tx_metadata tx)].

End address_database.

Module preconditions.

(** Modelled from the spec: [verify_exists(transactions, tx)] (section 4.3,
    [index(tx)]): the transaction is recorded, or [not_found]. *)
Definition verify_exists (txs : transaction_database.t) (tx : transaction)
  : code :=
  match transaction_database.find_link txs (tx_hash tx) 0 with
  | Some _ => success
  | None => not_found
  end.

(** Modelled from the spec: [verify_missing(transactions, tx)] (section
    4.3, [store]): [duplicate_transaction] if a transaction with the same
    hash exists. *)
Definition verify_missing (txs : transaction_database.t) (tx : transaction)
  : code :=
  match transaction_database.find_link txs (tx_hash tx) 0 with
  | Some _ => duplicate_transaction
  | None => success
  end.

(** Modelled from the spec: [verify_update(blocks, block, height)] (section
    4.3, [update]): the header at [height] in the confirmed index exists
    and has no transaction associated. *)
Definition verify_update (blocks : block_database.t) (b : block)
    (height : size_t) : code :=
  match block_database.get blocks height false with
  | Some r =>
      match block_database.rec_links r with
      | [] => success
      | _ :: _ => operation_failed
      end
  | None => not_found
  end.

(** Modelled from the spec: [verify_not_failed(blocks, block)] (section
    4.3, [candidate]): the header is not in the failed state, that is
    validated with a code that is an error. *)
Definition verify_not_failed (blocks : block_database.t) (b : block) : code :=
  match block_database.get_hash blocks (block_hash b) with
  | Some r =>
      if block_database.rec_validated r && is_error (block_database.rec_error r)
      then operation_failed
      else success
  | None => success
  end.

End preconditions.

(** Modelled from the spec: [store::create()] (section 4.1): creates the
    backing files, a file operation, which can fail. *)
Definition store_create : M bool := next_io.

(** Modelled from the spec: the [create()] of the block store (section
    4.1): an empty store in the new files; a file operation, which can
    fail. *)
Definition blocks_create : M bool :=
  ok <- next_io ;;
  (if ok
   then modify (set_blocks {| block_database.table := [];
                              block_database.candidate_index := [];
                              block_database.confirmed_index := [] |})
   else ret tt) ;;
  ret ok.

(** Modelled from the spec: the [create()] of the transaction store
    (section 4.1). *)
Definition transactions_create : M bool :=
  ok <- next_io ;;
  (if ok then modify (set_transactions []) else ret tt) ;;
  ret ok.

(** Modelled from the spec: the [create()] of the address store (section
    4.1); the new store is returned when the files are made. *)
Definition addresses_create (addresses : address_database.t)
  : M (bool * address_database.t) :=
  ok <- next_io ;;
  ret (ok, if ok then [] else addresses).

(** Modelled from the spec: the [flush()] of a leaf store (section 4.1), a
    file operation, which can fail. *)
Definition leaf_flush (l : leaf) : M bool := next_io.

(** Modelled from the spec: [transaction_database::store(tx, forks)]
    (section 4.3): stores the transaction if missing and sets its link
    metadata; traced as the [store] of the one transaction. *)
Definition transactions_store_one (tx : transaction) (forks : Z)
  : M (bool * transaction) :=
  emit (ev_transactions_store [tx_hash tx]) ;;
  t <- gets transactions_ ;;
  let (t', tx') := transaction_database.store_one t tx in
  modify (set_transactions t') ;;
  ret (true, tx').

Definition transactions_candidate (l : link_type) : M bool :=
  on_transactions (ev_transactions_candidate l)
                  (fun t => transaction_database.candidate t l).

Module lifecycle.

(** [data_base::data_base(settings)]: the object over the files of the
    directory, which hold the stores [b] and [t] and the flush lock or not;
    [closed_] starts true. *)
Definition construct (s : settings) (b : block_database.t)
    (t : transaction_database.t) (flush_lock : bool) (io : list bool)
  : data_base :=
  {| closed_ := true; settings_ := s; blocks_ := b; transactions_ := t;
     flush_lock_ := flush_lock; io_ := io; trace_ := [] |}.

(** [data_base::~data_base()]: calls [close()], whose result is dropped. *)
Definition destroy : M unit := close ;; ret tt.

(** [data_base::create(chain::block&)], lines 90-121; [push(genesis)] is at
    height 0 with median time past 0, the default arguments. The genesis
    block is returned with the link metadata [push] has set. *)
Definition create (genesis : block) (addresses : address_database.t)
  : M (bool * block * address_database.t) :=
  ok <- store.open ;;
  if negb ok then ret (false, genesis, addresses)
  else
    ok <- store_create ;;
    if negb ok then ret (false, genesis, addresses)
    else
      start ;;
      created <- blocks_create ;;
      created <- and_then created transactions_create ;;
      indexed <- gets (fun db => index_addresses (settings_ db)) ;;
      '(created, addresses) <-
        (if indexed
         then (if created then addresses_create addresses
               else ret (false, addresses))
         else ret (created, addresses)) ;;
      '(created, genesis) <-
        (if created
         then ('(ec, genesis) <- push genesis 0 0 ;;
               ret (negb (is_error ec), genesis))
         else ret (false, genesis)) ;;
      if negb created then ret (false, genesis, addresses)
      else
        assign_closed false ;;
        ret (created, genesis, addresses).

(** [data_base::flush()], lines 201-232: the closed flag is not looked
    at. *)
Definition flush : M bool :=
  flushed <- leaf_flush blocks_leaf ;;
  flushed <- and_then flushed (leaf_flush transactions_leaf) ;;
  indexed <- gets (fun db => index_addresses (settings_ db)) ;;
  if indexed then and_then flushed (leaf_flush addresses_leaf)
  else ret flushed.

End lifecycle.

Module public_writers.

(** [data_base::index(transaction&)], lines 282-331. The result of
    [addresses_->index] is not looked at. *)
Definition index_transaction (tx : transaction)
    (addresses : address_database.t) : M (code * address_database.t) :=
  let ec := success in
  indexed <- gets (fun db => index_addresses (settings_ db)) ;;
  if negb indexed || existed (tx_metadata tx) then ret (ec, addresses)
  else
    txs <- gets transactions_ ;;
    let ec := preconditions.verify_exists txs tx in
    if is_error ec then ret (ec, addresses)
    else
      ok <- store.begin_write ;;
      if negb ok then ret (store_lock_failure, addresses)
      else
        let addresses := address_database.index addresses tx in
        leaf_commit addresses_leaf ;;
        ec <- finish_write ;;
        ret (ec, addresses).

(** The loop of [index(block&)]: the transactions that did not exist are
    indexed, in order. *)
Fixpoint index_missing (txs : list transaction)
    (addresses : address_database.t) : address_database.t :=
  match txs with
  | [] => addresses
  | tx :: rest =>
      index_missing rest
        (if negb (existed (tx_metadata tx))
         then address_database.index addresses tx
         else addresses)
  end.

(** [data_base::index(block&)], lines 333-384. *)
Definition index_block (b : block) (addresses : address_database.t)
  : M (code * address_database.t) :=
  let ec := success in
  indexed <- gets (fun db => index_addresses (settings_ db)) ;;
  if negb indexed then ret (ec, addresses)
  else
    blocks <- gets blocks_ ;;
    let ec := verify.verify_exists blocks (block_header b) in
    if is_error ec then ret (ec, addresses)
    else
      ok <- store.begin_write ;;
      if negb ok then ret (store_lock_failure, addresses)
      else
        let addresses := index_missing (transactions b) addresses in
        leaf_commit addresses_leaf ;;
        ec <- finish_write ;;
        ret (ec, addresses).

(** [data_base::update(chain::block&, size_t)], lines 469-551: the block is
    returned with the link metadata [transactions_->store] has set. *)
Definition update (b : block) (height : size_t) : M (code * block) :=
  blocks <- gets blocks_ ;;
  let ec := preconditions.verify_update blocks b height in
  if is_error ec then ret (ec, b)
  else
    ok <- store.begin_write ;;
    if negb ok then ret (store_lock_failure, b)
    else
      '(ok, txs) <- transactions_store (transactions b) ;;
      let b := {| block_header := block_header b; transactions := txs |} in
      if negb ok then fail_write (operation_failed, b)
      else
        ok <- blocks_update b ;;
        if negb ok then fail_write (operation_failed, b)
        else
          commit ;;
          ec <- finish_write ;;
          ret (ec, b).

(** The loop of [candidate] over the transactions of the block: false when
    a [candidate] has failed, which ends the loop. *)
Fixpoint candidate_transactions (txs : list transaction) : M bool :=
  match txs with
  | [] => ret true
  | tx :: rest =>
      ok <- transactions_candidate (link (tx_metadata tx)) ;;
      if negb ok then ret false else candidate_transactions rest
  end.

(** [data_base::candidate(block&)], lines 612-684: the block is returned
    with the metadata written on its header. *)
Definition candidate (b : block) : M (code * block) :=
  blocks <- gets blocks_ ;;
  let ec := preconditions.verify_not_failed blocks b in
  if is_error ec then ret (ec, b)
  else
    ok <- store.begin_write ;;
    if negb ok then ret (store_lock_failure, b)
    else
      ok <- blocks_validate (block_hash b) success ;;
      if negb ok then fail_write (operation_failed, b)
      else
        ok <- candidate_transactions (transactions b) ;;
        if negb ok then fail_write (operation_failed, b)
        else
          let b := {| block_header := set_verdict (block_header b) success;
                      transactions := transactions b |} in
          ec <- finish_write ;;
          ret (ec, b).

(** [data_base::store(transaction&, uint32_t)], lines 386-445: the
    transaction is returned with the link metadata the store has set. *)
Definition store (tx : transaction) (forks : Z) : M (code * transaction) :=
  txs <- gets transactions_ ;;
  let ec := preconditions.verify_missing txs tx in
  if is_error ec then ret (ec, tx)
  else
    ok <- store.begin_write ;;
    if negb ok then ret (store_lock_failure, tx)
    else
      '(ok, tx) <- transactions_store_one tx forks ;;
      if negb ok then fail_write (operation_failed, tx)
      else
        leaf_commit transactions_leaf ;;
        ec <- finish_write ;;
        ret (ec, tx).

End public_writers.

(** ** Notions used in the statements *)

(** [frame db db' evs]: from [db] to [db'] the settings and the closed flag
    are kept and the calls [evs] have been appended to the trace. *)
Definition frame (db db' : data_base) (evs : list event) : Prop :=
  settings_ db' = settings_ db /\
  closed_ db' = closed_ db /\
  trace_ db' = trace_ db ++ evs.

(** The calls of [commit], by the settings. *)
Definition commit_events (s : settings) : list event :=
  (if index_addresses s then [ev_commit addresses_leaf] else [])
  ++ [ev_commit transactions_leaf; ev_commit blocks_leaf].

(** [close()] called [n] times in sequence: the results, in order. *)
Fixpoint close_times (n : nat) : M (list bool) :=
  match n with
  | O => ret []
  | S n' =>
      r <- close ;;
      rs <- close_times n' ;;
      ret (r :: rs)
  end.

(** The events of a [close] in which every call succeeds, by the settings:
    the store to the closed flag, then the calls. *)
Definition close_events (s : settings) : list event :=
  [ev_set_closed true; ev_close blocks_leaf; ev_close transactions_leaf]
  ++ (if index_addresses s then [ev_close addresses_leaf] else [])
  ++ [ev_store_close].

(** What [close] does once it has set the flag. *)
Definition close_leaves : M bool :=
  closed <- leaf_close blocks_leaf ;;
  closed <- and_then closed (leaf_close transactions_leaf) ;;
  indexed <- gets (fun db => index_addresses (settings_ db)) ;;
  closed <- (if indexed then and_then closed (leaf_close addresses_leaf)
             else ret closed) ;;
  and_then closed store.close.

(** What a transaction store holds, the marks of confirmation apart. *)
Definition tx_content (t : transaction_database.t) : list (hash_digest * Z) :=
  map (fun r => (transaction_database.rec_tx_hash r,
                 transaction_database.rec_tx_fields r)) t.

(** The record [blocks.store] makes for a header. *)
Definition stored_record (h : header) (height : size_t) (mtp : Z)
  : block_database.block_record :=
  {| block_database.rec_hash := hash h;
     block_database.rec_previous := previous_block_hash h;
     block_database.rec_fields := fields h;
     block_database.rec_height := height;
     block_database.rec_median_time_past := mtp;
     block_database.rec_validated := false;
     block_database.rec_error := success;
     block_database.rec_links := [] |}.

(** ** Stores to run the functions on *)

Module examples.

(** An open data base over empty leaves, with the results [io] for the file
    operations to come. *)
Definition fresh (s : settings) (io : list bool) : data_base :=
  {| closed_ := false; settings_ := s;
     blocks_ := {| block_database.table := [];
                   block_database.candidate_index := [];
                   block_database.confirmed_index := [] |};
     transactions_ := [];
     flush_lock_ := false; io_ := io; trace_ := [] |}.

Definition flushing : settings :=
  {| index_addresses := false; flush_writes := true |}.

Definition indexing : settings :=
  {| index_addresses := true; flush_writes := false |}.

Definition a_header (h parent : hash_digest) : header :=
  {| hash := h; previous_block_hash := parent; fields := h * 16;
     metadata := default_metadata |}.

Definition a_transaction (h : hash_digest) : transaction :=
  {| tx_hash := h; tx_fields := h + 1;
     tx_metadata := {| link := max_size_t; existed := false |} |}.

Definition a_block (h parent : hash_digest) (txs : list hash_digest) : block :=
  {| block_header := a_header h parent;
     transactions := map a_transaction txs |}.

Definition genesis : block := a_block 100 0 [1000].

(** The store after [push(genesis, 0, 0)]. *)
Definition created (s : settings) (io : list bool) : data_base :=
  snd (push genesis 0 0 (fresh s io)).

(** Two blocks confirmed, [100] and [101], and two more candidate headers,
    [102] and [103]; the trace is emptied and the file operations to come
    have the results [io]. *)
Definition chain (s : settings) (io : list bool) : data_base :=
  let db := created s [] in
  let db := snd (push (a_block 101 100 [1001; 1002]) 1 11 db) in
  let db := snd (header_reorganization.push_header (a_header 102 101) 2 12 db) in
  let db := snd (header_reorganization.push_header (a_header 103 102) 3 13 db) in
  set_io io (set_trace [] db).

End examples.

(** ** Notions used in the further properties *)

(** The two stores of a data base. *)
Definition stores (db : data_base)
  : block_database.t * transaction_database.t :=
  (blocks_ db, transactions_ db).

(** A relation between the stores before and the stores after. *)
Definition store_relation : Type :=
  block_database.t * transaction_database.t ->
  block_database.t * transaction_database.t -> Prop.

(** [keeps R m]: whatever [m] returns, the stores after it are related by
    [R] to the stores before. *)
Definition keeps {A : Type} (R : store_relation) (m : M A) : Prop :=
  forall db a db', m db = (a, db') -> R (stores db) (stores db').

(** The confirmed index and the content of the transaction store are as
    before. *)
Definition confirmed_untouched : store_relation :=
  fun s s' =>
    block_database.confirmed_index (fst s')
    = block_database.confirmed_index (fst s) /\
    tx_content (snd s') = tx_content (snd s).

(** The candidate index, the table of headers and the content of the
    transaction store are as before. *)
Definition candidate_untouched : store_relation :=
  fun s s' =>
    block_database.candidate_index (fst s')
    = block_database.candidate_index (fst s) /\
    block_database.table (fst s') = block_database.table (fst s) /\
    tx_content (snd s') = tx_content (snd s).

(** The calls of the public writers. *)
Inductive call : Type :=
| call_store (tx : transaction) (forks : Z)
| call_update (b : block) (height : size_t)
| call_invalidate (h : header) (err : code)
| call_candidate (b : block)
| call_push (b : block) (height : size_t) (mtp : Z)
| call_index_transaction (tx : transaction) (addresses : address_database.t)
| call_index_block (b : block) (addresses : address_database.t)
| call_reorganize_headers (fork_point : checkpoint)
    (incoming outgoing : list header)
| call_reorganize_blocks (fork_point : checkpoint)
    (incoming outgoing : list block).

(** A call, for its code; [None] when the call has not returned. *)
Definition run (c : call) : M (option code) :=
  match c with
  | call_store tx forks =>
      r <- public_writers.store tx forks ;; ret (Some (fst r))
  | call_update b height =>
      r <- public_writers.update b height ;; ret (Some (fst r))
  | call_invalidate h err =>
      r <- invalidate h err ;; ret (Some (fst r))
  | call_candidate b =>
      r <- public_writers.candidate b ;; ret (Some (fst r))
  | call_push b height mtp =>
      r <- push b height mtp ;; ret (Some (fst r))
  | call_index_transaction tx addresses =>
      r <- public_writers.index_transaction tx addresses ;; ret (Some (fst r))
  | call_index_block b addresses =>
      r <- public_writers.index_block b addresses ;; ret (Some (fst r))
  | call_reorganize_headers fork_point incoming outgoing =>
      r <- header_reorganization.reorganize fork_point incoming outgoing ;;
      ret (Some (fst r))
  | call_reorganize_blocks fork_point incoming outgoing =>
      r <- block_reorganization.reorganize fork_point incoming outgoing ;;
      ret (option_map fst r)
  end.

(** A sequence of calls, for their codes; it ends at a call that has not
    returned, and the result is [None] then. *)
Fixpoint run_all (calls : list call) : M (option (list code)) :=
  match calls with
  | [] => ret (Some [])
  | c :: rest =>
      r <- run c ;;
      match r with
      | None => ret None
      | Some ec =>
          ecs <- run_all rest ;;
          ret (option_map (cons ec) ecs)
      end
  end.

(** Every header recorded is still recorded and the transaction store has
    grown at its end only. *)
Definition grown : store_relation :=
  fun s s' =>
    (forall h r,
       block_database.find_record (block_database.table (fst s)) h = Some r ->
       exists r',
         block_database.find_record (block_database.table (fst s')) h
         = Some r') /\
    exists more, tx_content (snd s') = tx_content (snd s) ++ more.

(** A call on a leaf store: any event but the calls on the store itself
    and the stores to the closed flag. *)
Definition is_leaf_call (e : event) : bool :=
  match e with
  | ev_begin_write | ev_end_write | ev_store_open | ev_store_close
  | ev_set_closed _ => false
  | _ => true
  end.

(** [m] makes calls on the leaves only. *)
Definition quiet {A : Type} (m : M A) : Prop :=
  forall db a db',
    m db = (a, db') ->
    exists mid,
      trace_ db' = trace_ db ++ mid /\ forallb is_leaf_call mid = true.

(** [m] makes calls on the leaves, then [end_write], which is the last
    thing it does; its code is [success] only when [end_write] has
    succeeded. *)
Definition closing {A : Type} (code_of : A -> option code) (m : M A) : Prop :=
  forall db a db',
    m db = (a, db') ->
    exists mid db1 ok,
      trace_ db1 = trace_ db ++ mid /\ forallb is_leaf_call mid = true /\
      store.end_write db1 = (ok, db') /\
      (code_of a = Some success -> ok = true).

(** [m] is one write at most. It does nothing at all; or [begin_write]
    fails, which is all it does, and the code is [store_lock_failure]; or
    [begin_write] succeeds, calls on the leaves follow, and [end_write] is
    the last thing done, the code being [success] only when it has
    succeeded. *)
Definition bracketed {A : Type} (code_of : A -> option code) (m : M A)
  : Prop :=
  forall db a db',
    m db = (a, db') ->
    db' = db \/
    (store.begin_write db = (false, db') /\
     code_of a = Some store_lock_failure) \/
    exists db0 mid db1 ok,
      store.begin_write db = (true, db0) /\
      trace_ db1 = trace_ db0 ++ mid /\ forallb is_leaf_call mid = true /\
      store.end_write db1 = (ok, db') /\
      (code_of a = Some success -> ok = true) /\
      trace_ db' = trace_ db ++ ev_begin_write :: mid ++ [ev_end_write].

(** The single writes of the object: the public writers and the steps of
    the two reorganizations. *)
Inductive write : Type :=
| write_store (tx : transaction) (forks : Z)
| write_update (b : block) (height : size_t)
| write_invalidate (h : header) (err : code)
| write_candidate (b : block)
| write_push (b : block) (height : size_t) (mtp : Z)
| write_index_transaction (tx : transaction) (addresses : address_database.t)
| write_index_block (b : block) (addresses : address_database.t)
| write_push_header (h : header) (height : size_t) (mtp : Z)
| write_pop_header (out : header) (height : size_t)
| write_push_block (b : block) (height : size_t)
| write_pop_block (out : block) (height : size_t).

(** A single write, for its code; [None] when it has not returned. *)
Definition run_write (w : write) : M (option code) :=
  match w with
  | write_store tx forks =>
      r <- public_writers.store tx forks ;; ret (Some (fst r))
  | write_update b height =>
      r <- public_writers.update b height ;; ret (Some (fst r))
  | write_invalidate h err => r <- invalidate h err ;; ret (Some (fst r))
  | write_candidate b =>
      r <- public_writers.candidate b ;; ret (Some (fst r))
  | write_push b height mtp => r <- push b height mtp ;; ret (Some (fst r))
  | write_index_transaction tx addresses =>
      r <- public_writers.index_transaction tx addresses ;; ret (Some (fst r))
  | write_index_block b addresses =>
      r <- public_writers.index_block b addresses ;; ret (Some (fst r))
  | write_push_header h height mtp =>
      r <- header_reorganization.push_header h height mtp ;; ret (Some r)
  | write_pop_header out height =>
      r <- header_reorganization.pop_header out height ;; ret (Some (fst r))
  | write_push_block b height => block_reorganization.push_block b height
  | write_pop_block out height =>
      r <- block_reorganization.pop_block out height ;; ret (Some (fst r))
  end.

(** The confirmed index is a prefix of the candidate index. *)
Definition confirmed_is_prefix (b : block_database.t) : Prop :=
  exists rest,
    block_database.candidate_index b = block_database.confirmed_index b ++ rest.

(** If the confirmed index was a prefix of the candidate index, it still
    is. *)
Definition prefix_kept : store_relation :=
  fun s s' => confirmed_is_prefix (fst s) -> confirmed_is_prefix (fst s').

(** The call is a reorganization of headers. *)
Definition is_header_reorganization (c : call) : bool :=
  match c with
  | call_reorganize_headers _ _ _ => true
  | _ => false
  end.

(** The opening of a leaf store. *)
Definition is_leaf_open (e : event) : bool :=
  match e with
  | ev_open _ => true
  | _ => false
  end.

(** The events of an [open] in which every call succeeds, by the settings:
    the calls, then the store to the closed flag. *)
Definition open_events (s : settings) : list event :=
  [ev_store_open; ev_open blocks_leaf; ev_open transactions_leaf]
  ++ (if index_addresses s then [ev_open addresses_leaf] else [])
  ++ [ev_set_closed false].

(** The transactions of a list that did not exist when they were stored. *)
Definition missing (txs : list transaction) : list transaction :=
  filter (fun tx => negb (existed (tx_metadata tx))) txs.

(** The block store is as before and the transaction store holds the same
    transactions. *)
Definition marks_only : store_relation :=
  fun s s' => fst s' = fst s /\ tx_content (snd s') = tx_content (snd s).

(** The link of a transaction resolves in the store to a record of its
    hash. *)
Definition resolves (t : transaction_database.t) (tx : transaction) : Prop :=
  exists rec,
    transaction_database.get t (link (tx_metadata tx)) = Some rec /\
    transaction_database.rec_tx_hash rec = tx_hash tx.

(** The link of a transaction resolves to a record of its hash that is
    confirmed at [height], with [mtp]. *)
Definition confirmed_at (t : transaction_database.t) (height : size_t)
    (mtp : Z) (tx : transaction) : Prop :=
  exists rec position,
    transaction_database.get t (link (tx_metadata tx)) = Some rec /\
    transaction_database.rec_tx_hash rec = tx_hash tx /\
    transaction_database.rec_confirmation rec = Some (height, mtp, position).

(** The header is recorded, if its metadata says it exists. *)
Definition exists_is_accurate (b : block_database.t) (h : header) : Prop :=
  exists_ (metadata h) = true ->
  exists r, block_database.get_hash b (hash h) = Some r.

(** The record under the link of a transaction has the property [P]. *)
Definition marked (P : transaction_database.tx_record -> Prop)
    (t : transaction_database.t) (l : link_type) : Prop :=
  exists rec, transaction_database.get t l = Some rec /\ P rec.

(** The header of the block has its chain state set. *)
Definition has_state (b : block) : Prop :=
  exists mtp, state (metadata (block_header b)) = Some mtp.

(** The header of the block has no chain state. *)
Definition no_state (b : block) : Prop :=
  state (metadata (block_header b)) = None.

(** The outgoing list of a reorganization that has returned. *)
Definition returned_outgoing {A : Type} (r : option (code * list A))
  : list A :=
  match r with
  | Some r => snd r
  | None => []
  end.

(** ** More stores to run the functions on *)

Module scenarios.

Definition empty_blocks : block_database.t :=
  {| block_database.table := [];
     block_database.candidate_index := [];
     block_database.confirmed_index := [] |}.

(** An object constructed over empty stores and never opened. *)
Definition constructed (s : settings) (io : list bool) : data_base :=
  lifecycle.construct s empty_blocks [] false io.

(** [examples.chain] with write flushing and no file operation that
    fails. *)
Definition chain : data_base := examples.chain examples.flushing [].

(** The store after [push(genesis, 0, 0)], likewise. *)
Definition created : data_base := examples.created examples.flushing [].

(** The fork points at the headers [100] (the genesis), [101] (the top of
    the confirmed index of [chain]) and [103] (the top of its candidate
    index). *)
Definition fork_100 : checkpoint :=
  {| checkpoint_hash := 100; checkpoint_height := 0 |}.

Definition fork_101 : checkpoint :=
  {| checkpoint_hash := 101; checkpoint_height := 1 |}.

Definition fork_103 : checkpoint :=
  {| checkpoint_hash := 103; checkpoint_height := 3 |}.

(** A transaction as a store returns it, with its link. *)
Definition linked (h : hash_digest) (l : link_type) : transaction :=
  {| tx_hash := h; tx_fields := h + 1;
     tx_metadata := {| link := l; existed := true |} |}.

(** A header with its chain state set, of median time past [mtp]. *)
Definition with_state (h parent : hash_digest) (mtp : Z) : header :=
  {| hash := h; previous_block_hash := parent; fields := h * 16;
     metadata := {| exists_ := false; validated := false; error := success;
                    median_time_past := 0; state := Some mtp |} |}.

(** The block of the header [102], its chain state set, with the
    transactions [1001] and [1002], which [chain] has under the links 1 and
    2. *)
Definition block_102 : block :=
  {| block_header := with_state 102 101 12;
     transactions := [linked 1001 1; linked 1002 2] |}.

(** The block of the header [102], its chain state set, with no
    transaction. *)
Definition bare_102 : block :=
  {| block_header := with_state 102 101 12; transactions := [] |}.

(** The block of the header [101], its chain state set, with the
    transactions [chain] has for it. *)
Definition block_101 : block :=
  {| block_header := with_state 101 100 11;
     transactions := [linked 1001 1; linked 1002 2] |}.

(** A header that is not recorded, though its metadata says it exists. *)
Definition phantom : header :=
  {| hash := 104; previous_block_hash := 103; fields := 0;
     metadata := {| exists_ := true; validated := false; error := success;
                    median_time_past := 14; state := None |} |}.

(** A block whose header fits no height of [chain]. *)
Definition stray : block := examples.a_block 105 0 [2000].

(** [chain] after the header [102] has been confirmed with no
    transaction. *)
Definition confirmed_102 : data_base :=
  snd (block_reorganization.push_block bare_102 2 chain).

(** The blocks [101] and [102] as [pop_block] gives them on
    [confirmed_102]. *)
Definition popped_101_102 : list block :=
  returned_outgoing
    (fst (block_reorganization.reorganize fork_100 [block_101] []
            confirmed_102)).

(** [confirmed_102] after the blocks [101] and [102] have been popped and
    the block [101] pushed. *)
Definition confirmed_101 : data_base :=
  snd (block_reorganization.reorganize fork_100 [block_101] []
         confirmed_102).

(** The store that holds the genesis block alone, once [candidate] has
    marked its transaction, which is under the link 0. *)
Definition candidate_genesis : data_base :=
  snd (public_writers.candidate
         {| block_header := examples.a_header 100 0;
            transactions := [linked 1000 0] |}
         created).

End scenarios.

(** * Properties *)

(** ** Vectors and machine integers *)

Lemma wrap_small (z : Z) : 0 <= z <= max_size_t -> wrap z = z.
Proof.
  unfold wrap, max_size_t. intros Hz. apply Z.mod_small. lia.
Qed.

Lemma size_length {A : Type} (l : list A) : size l = Z.of_nat (length l).
Proof. induction l as [|x l IH]; cbn [size length]; lia. Qed.

Lemma size_nonneg {A : Type} (l : list A) : 0 <= size l.
Proof. rewrite size_length. lia. Qed.

Lemma size_app {A : Type} (l l' : list A) : size (l ++ l') = size l + size l'.
Proof. rewrite !size_length, length_app. lia. Qed.

Lemma size_cons {A : Type} (x : A) (l : list A) : size (x :: l) = size l + 1.
Proof. reflexivity. Qed.

Lemma at_position_range {A : Type} (l : list A) :
  forall k x, at_position l k = Some x -> 0 <= k < size l.
Proof.
  induction l as [|y l IH]; intros k x H; cbn [at_position] in H.
  - discriminate.
  - rewrite size_cons. destruct (Z.eqb_spec k 0) as [->|Hk].
    + pose proof (size_nonneg l). lia.
    + apply IH in H. lia.
Qed.

Lemma at_position_app_l {A : Type} (l l' : list A) :
  forall k x, at_position l k = Some x -> at_position (l ++ l') k = Some x.
Proof.
  induction l as [|y l IH]; intros k x H; cbn [at_position app] in *.
  - discriminate.
  - destruct (k =? 0); [assumption | now apply IH].
Qed.

Lemma at_position_last {A : Type} (l : list A) (x : A) :
  at_position (l ++ [x]) (size l) = Some x.
Proof.
  induction l as [|y l IH]; cbn [at_position app].
  - reflexivity.
  - rewrite size_cons. pose proof (size_nonneg l).
    destruct (Z.eqb_spec (size l + 1) 0); [lia|].
    replace (size l + 1 - 1) with (size l) by lia. exact IH.
Qed.

Lemma at_position_below {A : Type} (l : list A) :
  forall k, 0 <= k < size l -> exists x, at_position l k = Some x.
Proof.
  induction l as [|y l IH]; intros k Hk.
  - cbn [size] in Hk. lia.
  - rewrite size_cons in Hk. cbn [at_position].
    destruct (Z.eqb_spec k 0); [now exists y|]. apply IH. lia.
Qed.

Lemma at_position_app_below {A : Type} (l l' : list A) (k : Z) :
  0 <= k < size l -> at_position (l ++ l') k = at_position l k.
Proof.
  intros Hk. destruct (at_position_below l k Hk) as [x Hx].
  rewrite Hx. now apply at_position_app_l.
Qed.

(** A non-empty vector is its front and its last element. *)
Lemma split_last {A : Type} (l : list A) :
  l <> [] -> exists x, l = removelast l ++ [x].
Proof.
  intros Hl. destruct l as [|a l]; [congruence|].
  exists (last (a :: l) a). apply app_removelast_last. discriminate.
Qed.

Lemma size_removelast {A : Type} (l : list A) :
  l <> [] -> size (removelast l) = size l - 1.
Proof.
  intros Hl. destruct (split_last l Hl) as [x Hx].
  rewrite Hx at 2. rewrite size_app. cbn [size]. lia.
Qed.

Lemma at_position_removelast {A : Type} (l : list A) (k : Z) :
  0 <= k < size l - 1 -> at_position (removelast l) k = at_position l k.
Proof.
  intros Hk. assert (Hl : l <> []).
  { intros ->. cbn [size] in Hk. lia. }
  destruct (split_last l Hl) as [x Hx].
  rewrite Hx at 2. symmetry. apply at_position_app_below.
  rewrite size_removelast by assumption. exact Hk.
Qed.

(** ** The block store *)

Section BlockStoreFacts.

Import block_database.

Lemma find_record_hash (tb : list block_record) (h : hash_digest)
    (r : block_record) :
  find_record tb h = Some r -> rec_hash r = h.
Proof.
  unfold find_record. intros H. apply find_some in H.
  destruct H as [_ H]. now apply Z.eqb_eq.
Qed.

(** Rewriting a record in place keeps every digest findable, when the
    rewriting keeps the digest of the record. *)
Lemma find_rewrite_record (f : block_record -> block_record)
    (h h' : hash_digest) (tb : list block_record) :
  (forall r, rec_hash (f r) = rec_hash r) ->
  forall r, find_record tb h' = Some r ->
  exists r', find_record (rewrite_record f h tb) h' = Some r' /\
             rec_previous r' = rec_previous (if h =? h' then f r else r) /\
             rec_fields r' = rec_fields (if h =? h' then f r else r) /\
             r' = (if h =? h' then f r else r).
Proof.
  intros Hf. unfold find_record.
  induction tb as [|x tb IH]; intros r H; cbn [find rewrite_record] in *.
  - discriminate.
  - destruct (Z.eqb_spec (rec_hash x) h) as [Hx|Hx].
    + cbn [find]. rewrite Hf.
      destruct (Z.eqb_spec (rec_hash x) h') as [Hx'|Hx'].
      * inversion H; subst r. exists (f x).
        replace (h =? h') with true by (symmetry; apply Z.eqb_eq; congruence).
        auto.
      * exists r. replace (h =? h') with false
          by (symmetry; apply Z.eqb_neq; congruence).
        auto.
    + cbn [find]. destruct (Z.eqb_spec (rec_hash x) h') as [Hx'|Hx'].
      * inversion H; subst r. exists x.
        replace (h =? h') with false
          by (symmetry; apply Z.eqb_neq; congruence).
        auto.
      * now apply IH.
Qed.

Lemma index_of_with_index (db : t) (c c' : bool) (idx : list hash_digest) :
  index_of (with_index db c idx) c' = if Bool.eqb c c' then idx else index_of db c'.
Proof. destruct c, c'; reflexivity. Qed.

(** What a successful [index] has done. *)
Lemma index_true (db db' : t) (h : hash_digest) (height : size_t) (c : bool) :
  index db h height c = (true, db') ->
  height = size (index_of db c) /\
  db' = with_index db c (index_of db c ++ [h]) /\
  exists r, find_record (table db) h = Some r.
Proof.
  unfold index. destruct (Z.eqb_spec height (size (index_of db c))) as [Hh|Hh];
    [|discriminate].
  destruct (find_record (table db) h) as [r|] eqn:Hr; [|discriminate].
  intros H. inversion H. eauto.
Qed.

(** What a successful [unindex] has done. *)
Lemma unindex_true (db db' : t) (h : hash_digest) (height : size_t) (c : bool) :
  unindex db h height c = (true, db') ->
  size (index_of db c) = height + 1 /\
  at_position (index_of db c) height = Some h /\
  db' = with_index db c (removelast (index_of db c)).
Proof.
  unfold unindex.
  destruct (Z.eqb_spec (size (index_of db c)) (height + 1)) as [Hs|Hs];
    [|discriminate].
  destruct (at_position (index_of db c) height) as [h'|] eqn:Hp;
    [|discriminate].
  destruct (Z.eqb_spec h' h) as [->|]; [|discriminate].
  cbn [andb]. intros H. inversion H. auto.
Qed.

(** [validate] and [update] leave the indices alone and keep every header
    findable under its digest. *)
Lemma validate_indices (db db' : t) (h : hash_digest) (ec : code) (ok : bool) :
  validate db h ec = (ok, db') ->
  candidate_index db' = candidate_index db /\
  confirmed_index db' = confirmed_index db.
Proof.
  unfold validate. destruct (find_record (table db) h);
    intros H; inversion H; auto.
Qed.

Lemma update_indices (db db' : t) (b : block) (ok : bool) :
  update db b = (ok, db') ->
  candidate_index db' = candidate_index db /\
  confirmed_index db' = confirmed_index db.
Proof.
  unfold update. destruct (find_record (table db) (block_hash b));
    intros H; inversion H; auto.
Qed.

Lemma validate_find (db db' : t) (h h' : hash_digest) (ec : code) (ok : bool)
    (r : block_record) :
  validate db h ec = (ok, db') ->
  find_record (table db) h' = Some r ->
  exists r', find_record (table db') h' = Some r'.
Proof.
  unfold validate. destruct (find_record (table db) h) eqn:Hf;
    intros H Hr; inversion H; subst; [|eauto].
  cbn [table with_table].
  edestruct find_rewrite_record as [r' [Hr' _]]; [|exact Hr|eauto].
  reflexivity.
Qed.

Lemma update_find (db db' : t) (b : block) (h' : hash_digest) (ok : bool)
    (r : block_record) :
  update db b = (ok, db') ->
  find_record (table db) h' = Some r ->
  exists r', find_record (table db') h' = Some r'.
Proof.
  unfold update. destruct (find_record (table db) (block_hash b)) eqn:Hf;
    intros H Hr; inversion H; subst; [|eauto].
  cbn [table with_table].
  edestruct find_rewrite_record as [r' [Hr' _]]; [|exact Hr|eauto].
  reflexivity.
Qed.

(** The top of an index, and the header at a height of it. *)
Lemma top_size (db : t) (c : bool) (height : size_t) :
  top db c = Some height <->
  index_of db c <> [] /\ size (index_of db c) = height + 1.
Proof.
  unfold top. destruct (index_of db c) as [|x idx].
  - split; [discriminate|]. intros [H _]. congruence.
  - split.
    + intros H. injection H as H. split; [discriminate|].
      rewrite size_cons. lia.
    + intros [_ H]. f_equal. rewrite size_cons in H. rewrite size_cons. lia.
Qed.

Lemma top_of_size (db : t) (c : bool) (height : size_t) :
  0 <= height -> size (index_of db c) = height + 1 -> top db c = Some height.
Proof.
  intros H0 Hs. apply top_size. split; [|assumption].
  intros Hnil. rewrite Hnil in Hs. cbn [size] in Hs. lia.
Qed.

End BlockStoreFacts.

Lemma begin_write_frame (db db' : data_base) (ok : bool) :
  store.begin_write db = (ok, db') ->
  frame db db' [ev_begin_write] /\
  blocks_ db' = blocks_ db /\ transactions_ db' = transactions_ db.
Proof.
  unfold store.begin_write, store.flush_each_write, emit, modify, gets,
    next_io, bind, ret, frame.
  destruct db as [c [ia fw] b t fl io tr]; cbn.
  destruct fw, fl, io as [|[|] io]; cbn; intros H; inversion H; cbn; auto.
Qed.

Lemma end_write_frame (db db' : data_base) (ok : bool) :
  store.end_write db = (ok, db') ->
  frame db db' [ev_end_write] /\
  blocks_ db' = blocks_ db /\ transactions_ db' = transactions_ db.
Proof.
  unfold store.end_write, store.flush_each_write, emit, modify, gets,
    next_io, bind, ret, frame.
  destruct db as [c [ia fw] b t fl io tr]; cbn.
  destruct fw, io as [|[|] io]; cbn; intros H; inversion H; cbn; auto.
Qed.

Lemma on_blocks_frame (e : event)
    (f : block_database.t -> bool * block_database.t)
    (db db' : data_base) (ok : bool) :
  on_blocks e f db = (ok, db') ->
  frame db db' [e] /\
  f (blocks_ db) = (ok, blocks_ db') /\
  transactions_ db' = transactions_ db /\
  io_ db' = io_ db /\ flush_lock_ db' = flush_lock_ db.
Proof.
  unfold on_blocks, emit, modify, gets, bind, ret, frame. cbn.
  destruct (f (blocks_ db)) as [ok' b']. intros H; inversion H; cbn; auto.
Qed.

Lemma on_transactions_frame (e : event)
    (f : transaction_database.t -> bool * transaction_database.t)
    (db db' : data_base) (ok : bool) :
  on_transactions e f db = (ok, db') ->
  frame db db' [e] /\
  f (transactions_ db) = (ok, transactions_ db') /\
  blocks_ db' = blocks_ db /\
  io_ db' = io_ db /\ flush_lock_ db' = flush_lock_ db.
Proof.
  unfold on_transactions, emit, modify, gets, bind, ret, frame. cbn.
  destruct (f (transactions_ db)) as [ok' t']. intros H; inversion H; cbn; auto.
Qed.

Lemma blocks_store_frame (h : header) (height : size_t) (mtp : Z)
    (db db' : data_base) (u : unit) :
  blocks_store h height mtp db = (u, db') ->
  frame db db' [ev_blocks_store (hash h) height mtp] /\
  blocks_ db' = block_database.store (blocks_ db) h height mtp /\
  transactions_ db' = transactions_ db /\
  io_ db' = io_ db /\ flush_lock_ db' = flush_lock_ db.
Proof.
  unfold blocks_store, emit, modify, bind, frame. cbn.
  intros H; inversion H; cbn; auto.
Qed.

Lemma transactions_store_frame (txs txs' : list transaction)
    (db db' : data_base) (ok : bool) :
  transactions_store txs db = (ok, txs', db') ->
  frame db db' [ev_transactions_store (map tx_hash txs)] /\
  blocks_ db' = blocks_ db /\
  transaction_database.store (transactions_ db) txs
    = (ok, transactions_ db', txs') /\
  io_ db' = io_ db /\ flush_lock_ db' = flush_lock_ db.
Proof.
  unfold transactions_store, emit, modify, gets, bind, ret, frame. cbn.
  destruct (transaction_database.store (transactions_ db) txs) as [[ok' t'] l'].
  intros H; inversion H; cbn; auto.
Qed.

Lemma leaf_commit_frame (l : leaf) (db db' : data_base) (u : unit) :
  leaf_commit l db = (u, db') ->
  frame db db' [ev_commit l] /\
  blocks_ db' = blocks_ db /\ transactions_ db' = transactions_ db /\
  io_ db' = io_ db /\ flush_lock_ db' = flush_lock_ db.
Proof.
  unfold leaf_commit, emit, modify, frame. intros H; inversion H; cbn; auto.
Qed.

Lemma commit_frame (db db' : data_base) (u : unit) :
  commit db = (u, db') ->
  frame db db' (commit_events (settings_ db)) /\
  blocks_ db' = blocks_ db /\ transactions_ db' = transactions_ db /\
  io_ db' = io_ db /\ flush_lock_ db' = flush_lock_ db.
Proof.
  unfold commit, commit_events, leaf_commit, emit, modify, gets, bind, ret,
    frame. cbn.
  destruct (index_addresses (settings_ db)); cbn;
    intros H; inversion H; cbn; rewrite <- ?app_assoc; auto.
Qed.

Lemma fail_write_result {A : Type} (a a' : A) (db db' : data_base) :
  fail_write a db = (a', db') ->
  a' = a /\ frame db db' [ev_end_write] /\
  blocks_ db' = blocks_ db /\ transactions_ db' = transactions_ db.
Proof.
  unfold fail_write, bind, ret.
  destruct (store.end_write db) as [ok db1] eqn:E.
  intros H; inversion H; subst. split; [reflexivity|].
  now apply end_write_frame in E.
Qed.

Lemma finish_write_result (ec : code) (db db' : data_base) :
  finish_write db = (ec, db') ->
  (ec = success \/ ec = store_lock_failure) /\
  frame db db' [ev_end_write] /\
  blocks_ db' = blocks_ db /\ transactions_ db' = transactions_ db.
Proof.
  unfold finish_write, bind, ret.
  destruct (store.end_write db) as [ok db1] eqn:E.
  intros H; inversion H; subst. split; [destruct ok; auto|].
  now apply end_write_frame in E.
Qed.

(** One step of a computation in a hypothesis: names the result and the
    state of its first call. *)
Ltac run_step H x db' E :=
  match type of H with
  | bind ?m ?k ?db = _ =>
      change (bind m k db) with (let (a, s) := m db in k a s) in H;
      destruct (m db) as [x db'] eqn:E;
      cbv beta iota in H
  end.

(** A branch that has returned a failure, against a success. *)
Ltac failed_branch H :=
  first
    [ discriminate H
    | let E := fresh in
      unfold ret in H; injection H as E; discriminate E
    | let E := fresh in
      apply fail_write_result in H; destruct H as [E _]; discriminate E ].

(** ** The transaction store *)

(** [store] sets the link metadata and keeps the transactions. *)
Lemma store_hashes (txs : list transaction) :
  forall (t t' : transaction_database.t) (ok : bool) (txs' : list transaction),
  transaction_database.store t txs = (ok, t', txs') ->
  map tx_hash txs' = map tx_hash txs.
Proof.
  induction txs as [|tx txs IH]; intros t t' ok txs' H;
    cbn [transaction_database.store] in H.
  - now inversion H.
  - destruct (transaction_database.store_one t tx) as [t1 tx1] eqn:E1.
    destruct (transaction_database.store t1 txs) as [[ok2 t2] rest] eqn:E2.
    inversion H; subst. cbn [map]. f_equal.
    + unfold transaction_database.store_one in E1.
      destruct (transaction_database.find_link t (tx_hash tx) 0);
        inversion E1; reflexivity.
    + eapply IH; eassumption.
Qed.

(** ** [push] *)

(** C1. When [push(B, h, mtp)] returns success, the candidate top and the
    confirmed top are [h], the header at height [h] of the candidate index
    and of the confirmed index has the hash of [B], and the calls made are,
    in order: [blocks.store], [blocks.index] on the candidate index,
    [transactions.store], [blocks.update], [transactions.confirm],
    [blocks.validate] with success, [blocks.index] on the confirmed index,
    then the commits (between [begin_write] and [end_write]). *)
Theorem push_success (B B' : block) (h : size_t) (mtp : Z)
    (db db' : data_base) :
  push B h mtp db = (success, B', db') ->
  block_database.top (blocks_ db') true = Some h /\
  block_database.top (blocks_ db') false = Some h /\
  (exists r, block_database.get (blocks_ db') h true = Some r /\
             block_database.rec_hash r = block_hash B) /\
  (exists r, block_database.get (blocks_ db') h false = Some r /\
             block_database.rec_hash r = block_hash B) /\
  trace_ db' =
    trace_ db
    ++ [ev_begin_write;
        ev_blocks_store (block_hash B) h mtp;
        ev_blocks_index (block_hash B) h true;
        ev_transactions_store (map tx_hash (transactions B));
        ev_blocks_update (block_hash B);
        ev_transactions_confirm_all (map tx_hash (transactions B)) h mtp;
        ev_blocks_validate (block_hash B) success;
        ev_blocks_index (block_hash B) h false]
    ++ commit_events (settings_ db)
    ++ [ev_end_write].
Proof.
  intros H. unfold push in H.
  run_step H ok0 db0 E0. destruct ok0; cbn [negb] in H; [|failed_branch H].
  run_step H u1 db1 E1.
  run_step H ok2 db2 E2. destruct ok2; cbn [negb] in H; [|failed_branch H].
  run_step H r3 db3 E3. destruct r3 as [ok3 txs].
  destruct ok3; cbn [negb] in H; [|failed_branch H].
  run_step H ok4 db4 E4. destruct ok4; cbn [negb] in H; [|failed_branch H].
  run_step H ok5 db5 E5. destruct ok5; cbn [negb] in H; [|failed_branch H].
  run_step H ok6 db6 E6. destruct ok6; cbn [negb] in H; [|failed_branch H].
  run_step H ok7 db7 E7. destruct ok7; cbn [negb] in H; [|failed_branch H].
  run_step H u8 db8 E8.
  run_step H ec9 db9 E9.
  unfold ret in H. inversion H; subst ec9 B' db9. clear H.
  cbn [block_hash block_header transactions] in *.
  apply begin_write_frame in E0. destruct E0 as (F0 & Hb0 & _).
  apply blocks_store_frame in E1. destruct E1 as (F1 & Hb1 & _).
  apply on_blocks_frame in E2. destruct E2 as (F2 & Hb2 & _).
  apply transactions_store_frame in E3. destruct E3 as (F3 & Hb3 & Hs3 & _).
  apply on_blocks_frame in E4. destruct E4 as (F4 & Hb4 & _).
  apply on_transactions_frame in E5. destruct E5 as (F5 & _ & Hb5 & _).
  apply on_blocks_frame in E6. destruct E6 as (F6 & Hb6 & _).
  apply on_blocks_frame in E7. destruct E7 as (F7 & Hb7 & _).
  apply commit_frame in E8. destruct E8 as (F8 & Hb8 & _).
  apply finish_write_result in E9. destruct E9 as (_ & F9 & Hb9 & _).
  (* the block store, call by call *)
  rewrite Hb1, Hb0 in Hb2. apply index_true in Hb2.
  destruct Hb2 as (Hh & Hb2 & r1 & Hr1).
  cbn [block_database.index_of block_database.store block_database.with_table
       block_database.candidate_index block_database.table] in Hh, Hb2, Hr1.
  rewrite Hb3 in Hb4.
  destruct (update_indices _ _ _ _ Hb4) as [Hc4 Hf4].
  assert (Hr2 : block_database.find_record
                  (block_database.table (blocks_ db2)) (hash (block_header B))
                = Some r1) by (rewrite Hb2; exact Hr1).
  destruct (update_find _ _ _ (hash (block_header B)) _ _ Hb4 Hr2) as [r4 Hr4].
  rewrite Hb5 in Hb6.
  destruct (validate_indices _ _ _ _ _ Hb6) as [Hc6 Hf6].
  destruct (validate_find _ _ _ (hash (block_header B)) _ _ _ Hb6 Hr4)
    as [r6 Hr6].
  apply index_true in Hb7. destruct Hb7 as (Hh7 & Hb7 & _).
  cbn [block_database.index_of] in Hh7, Hb7.
  assert (Hcand : block_database.candidate_index (blocks_ db')
                  = block_database.candidate_index (blocks_ db)
                    ++ [hash (block_header B)]).
  { rewrite Hb9, Hb8, Hb7. cbn [block_database.with_index
      block_database.candidate_index].
    rewrite Hc6, Hc4, Hb2. reflexivity. }
  assert (Hconf : block_database.confirmed_index (blocks_ db')
                  = block_database.confirmed_index (blocks_ db6)
                    ++ [hash (block_header B)]).
  { rewrite Hb9, Hb8, Hb7. reflexivity. }
  assert (Htab : block_database.find_record
                   (block_database.table (blocks_ db'))
                   (hash (block_header B)) = Some r6).
  { rewrite Hb9, Hb8, Hb7. exact Hr6. }
  pose proof (size_nonneg (block_database.candidate_index (blocks_ db))) as H0.
  pose proof (size_nonneg (block_database.confirmed_index (blocks_ db6))) as H6.
  repeat split.
  - apply top_of_size; [lia|]. cbn [block_database.index_of].
    rewrite Hcand, size_app. cbn [size]. lia.
  - apply top_of_size; [lia|]. cbn [block_database.index_of].
    rewrite Hconf, size_app. cbn [size]. lia.
  - exists r6. split; [|now apply find_record_hash in Htab].
    unfold block_database.get. cbn [block_database.index_of].
    rewrite Hcand, Hh, at_position_last. exact Htab.
  - exists r6. split; [|now apply find_record_hash in Htab].
    unfold block_database.get. cbn [block_database.index_of].
    rewrite Hconf, Hh7, at_position_last. exact Htab.
  - destruct F0 as (S0 & _ & T0), F1 as (S1 & _ & T1), F2 as (S2 & _ & T2),
      F3 as (S3 & _ & T3), F4 as (S4 & _ & T4), F5 as (S5 & _ & T5),
      F6 as (S6 & _ & T6), F7 as (S7 & _ & T7), F8 as (S8 & _ & T8),
      F9 as (S9 & _ & T9).
    rewrite T9, T8, T7, T6, T5, T4, T3, T2, T1, T0.
    rewrite S7, S6, S5, S4, S3, S2, S1, S0.
    rewrite (store_hashes _ _ _ _ _ Hs3).
    rewrite <- !app_assoc. reflexivity.
Qed.

(** The genesis block pushed on the empty store, with write flushing. *)
Lemma push_success_witness :
  push examples.genesis 0 0 (examples.fresh examples.flushing [])
  = (success,
     snd (fst (push examples.genesis 0 0 (examples.fresh examples.flushing []))),
     examples.created examples.flushing []) /\
  block_database.top (blocks_ (examples.created examples.flushing [])) true
  = Some 0 /\
  block_database.top (blocks_ (examples.created examples.flushing [])) false
  = Some 0.
Proof.
  assert (E : push examples.genesis 0 0 (examples.fresh examples.flushing [])
              = (success,
                 snd (fst (push examples.genesis 0 0
                             (examples.fresh examples.flushing []))),
                 examples.created examples.flushing []))
    by (vm_compute; reflexivity).
  split; [exact E|].
  destruct (push_success _ _ _ _ _ _ E) as (Hc & Hf & _).
  exact (conj Hc Hf).
Defined.

(** ** [pop_header] and [pop_block] *)

(** C2 (what the code does). When [verify_top] fails, that is when the
    candidate top is not [height], [pop_header] makes no call on a leaf and
    writes no flush lock: the data base and [out_header] are left as they
    were. The code it returns is not the failure of the precondition: it is
    [success], the default-constructed [ec], which the test of [verify_top]
    never assigns. *)
Theorem pop_header_top_mismatch (db : data_base) (out : header)
    (height : size_t) :
  is_error (verify.verify_top (blocks_ db) height true) = true ->
  header_reorganization.pop_header out height db = (success, out, db).
Proof.
  intros Hv. unfold header_reorganization.pop_header, bind, gets.
  rewrite Hv. reflexivity.
Qed.

(** The sibling [pop_block] assigns the code of [verify_top] and returns
    it on the same failure. *)
Lemma pop_block_top_mismatch (db : data_base) (out : block)
    (height : size_t) :
  is_error (verify.verify_top (blocks_ db) height false) = true ->
  block_reorganization.pop_block out height db
  = (verify.verify_top (blocks_ db) height false, out, db).
Proof.
  intros Hv. unfold block_reorganization.pop_block, bind, gets.
  rewrite Hv. reflexivity.
Qed.

(** The candidate top is 3; the header at height 7 is asked for. *)
Lemma pop_header_top_mismatch_witness :
  verify.verify_top (blocks_ (examples.chain examples.flushing [])) 7 true
  = operation_failed /\
  header_reorganization.pop_header default_header 7
    (examples.chain examples.flushing [])
  = (success, default_header, examples.chain examples.flushing []).
Proof.
  split; [reflexivity|].
  apply (pop_header_top_mismatch (examples.chain examples.flushing [])
           default_header 7).
  reflexivity.
Defined.

(** C10. [pop_block] assigns [out_block] before the write begins: in every
    call that passes [verify_top] and reads the result, whatever code is
    returned afterwards, the caller's block is the header of the result with
    its transactions hydrated; in particular when [begin_write] fails, with
    [store_lock_failure] returned and nothing else done. *)
Theorem pop_block_assigns_out_first (db db' : data_base) (out out' : block)
    (height : size_t) (r : block_database.block_record) (ec : code) :
  verify.verify_top (blocks_ db) height false = success ->
  block_database.get (blocks_ db) height false = Some r ->
  block_reorganization.pop_block out height db = (ec, out', db') ->
  out' = {| block_header := block_database.result_header r;
            transactions :=
              block_reorganization.to_transactions (transactions_ db) r |} /\
  (forall db1, store.begin_write db = (false, db1) ->
               ec = store_lock_failure /\ db' = db1).
Proof.
  intros Hv Hg H. unfold block_reorganization.pop_block in H.
  run_step H b0 db0 E0. unfold gets in E0. inversion E0; subst b0 db0.
  rewrite Hv in H. cbn [is_error] in H. rewrite Hg in H.
  run_step H t1 db1 E1. unfold gets in E1. inversion E1; subst t1 db1.
  run_step H ok2 db2 E2. destruct ok2; cbn [negb] in H.
  - split; [|intros dbx Hx; discriminate Hx].
    run_step H ok3 db3 E3. destruct ok3; cbn [negb] in H.
    + run_step H ok4 db4 E4. destruct ok4; cbn [negb] in H.
      * run_step H u5 db5 E5. run_step H ec6 db6 E6.
        unfold ret in H. now inversion H.
      * apply fail_write_result in H. destruct H as [H _]. now inversion H.
    + apply fail_write_result in H. destruct H as [H _]. now inversion H.
  - unfold ret in H. inversion H; subst. split; [reflexivity|].
    intros dbx Hx. now inversion Hx.
Qed.

(** The confirmed top is 1; creating the flush lock fails. *)
Lemma pop_block_assigns_out_first_witness :
  block_reorganization.pop_block default_block 1
    (examples.chain examples.flushing [false])
  = (store_lock_failure,
     {| block_header :=
          {| hash := 101; previous_block_hash := 100; fields := 1616;
             metadata := {| exists_ := true; validated := true;
                            error := success; median_time_past := 11;
                            state := None |} |};
        transactions :=
          [ {| tx_hash := 1001; tx_fields := 1002;
               tx_metadata := {| link := 1; existed := true |} |};
            {| tx_hash := 1002; tx_fields := 1003;
               tx_metadata := {| link := 2; existed := true |} |} ] |},
     set_trace [ev_begin_write] (examples.chain examples.flushing [])) /\
  snd (fst (block_reorganization.pop_block default_block 1
              (examples.chain examples.flushing [false])))
  = {| block_header :=
         block_database.result_header
           {| block_database.rec_hash := 101;
              block_database.rec_previous := 100;
              block_database.rec_fields := 1616;
              block_database.rec_height := 1;
              block_database.rec_median_time_past := 11;
              block_database.rec_validated := true;
              block_database.rec_error := success;
              block_database.rec_links := [1; 2] |};
       transactions :=
         block_reorganization.to_transactions
           (transactions_ (examples.chain examples.flushing [false]))
           {| block_database.rec_hash := 101;
              block_database.rec_previous := 100;
              block_database.rec_fields := 1616;
              block_database.rec_height := 1;
              block_database.rec_median_time_past := 11;
              block_database.rec_validated := true;
              block_database.rec_error := success;
              block_database.rec_links := [1; 2] |} |}.
Proof.
  split; [vm_compute; reflexivity|].
  refine (proj1 (pop_block_assigns_out_first
                   (examples.chain examples.flushing [false])
                   (snd (block_reorganization.pop_block default_block 1
                           (examples.chain examples.flushing [false])))
                   default_block _ 1 _ 
                   (fst (fst (block_reorganization.pop_block default_block 1
                                (examples.chain examples.flushing [false]))))
                   _ _ _)).
  - vm_compute; reflexivity.
  - vm_compute; reflexivity.
  - vm_compute; reflexivity.
Defined.

(** ** [reorganize]: the guards *)

Lemma at_position_above {A : Type} (l : list A) (k : Z) :
  size l <= k -> at_position l k = None.
Proof.
  intros Hk. destruct (at_position l k) as [x|] eqn:E; [|reflexivity].
  apply at_position_range in E. lia.
Qed.

(** A fork point above the top of the index does not verify. *)
Lemma verify_above_top (blocks : block_database.t) (fork_point : checkpoint)
    (candidate : bool) (top : size_t) :
  block_database.top blocks candidate = Some top ->
  top < checkpoint_height fork_point ->
  verify.verify blocks fork_point candidate = invalid_fork_point.
Proof.
  intros Ht Hlt. apply top_size in Ht. destruct Ht as [_ Hs].
  unfold verify.verify, block_database.get.
  rewrite at_position_above by lia. reflexivity.
Qed.

(** C5 (as the code has it). When the fork point does not verify against
    the index, in particular when its height is above the top, the
    reorganization makes no call at all (the data base is as it was, no pop
    and no push) and fails; [pop_above] returns a bool, so the code of
    [verify] is lost and the code surfaced is [operation_failed]. *)
Theorem reorganize_invalid_fork_point (db : data_base) (fork_point : checkpoint)
    (incoming outgoing : list header) (incoming_b outgoing_b : list block) :
  (is_error (verify.verify (blocks_ db) fork_point true) = true ->
   exists out,
     header_reorganization.reorganize fork_point incoming outgoing db
     = (operation_failed, out, db)) /\
  (is_error (verify.verify (blocks_ db) fork_point false) = true ->
   exists out,
     block_reorganization.reorganize fork_point incoming_b outgoing_b db
     = (Some (operation_failed, out), db)) /\
  (forall candidate top,
     block_database.top (blocks_ db) candidate = Some top ->
     top < checkpoint_height fork_point ->
     is_error (verify.verify (blocks_ db) fork_point candidate) = true).
Proof.
  split; [|split].
  - intros Hv. unfold header_reorganization.reorganize.
    destruct (_ >? _); [now exists outgoing|].
    unfold header_reorganization.pop_above, bind, gets, and_then, ret.
    rewrite Hv. now exists [].
  - intros Hv. unfold block_reorganization.reorganize.
    destruct (_ >? _); [now exists outgoing_b|].
    unfold block_reorganization.pop_above, bind, gets, block_reorganization.and_then_push, ret.
    rewrite Hv. now exists [].
  - intros candidate top Ht Hlt.
    now rewrite (verify_above_top _ _ _ _ Ht Hlt).
Qed.

(** The candidate top is 3 and the fork point is at height 5: [verify]
    says [invalid_fork_point], [reorganize] says [operation_failed]. *)
Lemma reorganize_invalid_fork_point_counterexample :
  verify.verify (blocks_ (examples.chain examples.flushing []))
    {| checkpoint_hash := 103; checkpoint_height := 5 |} true
  = invalid_fork_point /\
  header_reorganization.reorganize
    {| checkpoint_hash := 103; checkpoint_height := 5 |}
    [examples.a_header 106 105] [] (examples.chain examples.flushing [])
  = (operation_failed, [], examples.chain examples.flushing []).
Proof. split; vm_compute; reflexivity. Qed.

Lemma reorganize_invalid_fork_point_witness :
  exists out,
    header_reorganization.reorganize
      {| checkpoint_hash := 103; checkpoint_height := 5 |}
      [examples.a_header 106 105] [] (examples.chain examples.flushing [])
    = (operation_failed, out, examples.chain examples.flushing []).
Proof.
  apply (proj1 (reorganize_invalid_fork_point
                  (examples.chain examples.flushing [])
                  {| checkpoint_hash := 103; checkpoint_height := 5 |}
                  [examples.a_header 106 105] [] [] [])).
  reflexivity.
Defined.

(** C6. With the height of the fork point and the size of [incoming] in
    [size_t]: when their sum is above [max_size_t], which is the test
    [fork_point.height() > max_size_t - incoming->size()] of the code,
    [reorganize] returns [operation_failed] and the data base and
    [outgoing] are as they were, nothing popped and nothing pushed;
    otherwise the guard passes and the result is that of [pop_above]
    followed by [push_all]. Both for headers and for blocks. *)
Theorem reorganize_overflow_guard (db : data_base) (fork_point : checkpoint)
    (incoming outgoing : list header) (incoming_b outgoing_b : list block) :
  0 <= checkpoint_height fork_point <= max_size_t ->
  size incoming <= max_size_t ->
  size incoming_b <= max_size_t ->
  (checkpoint_height fork_point + size incoming > max_size_t ->
   header_reorganization.reorganize fork_point incoming outgoing db
   = (operation_failed, outgoing, db)) /\
  (checkpoint_height fork_point + size incoming <= max_size_t ->
   header_reorganization.reorganize fork_point incoming outgoing db
   = ('(popped, out) <- header_reorganization.pop_above outgoing fork_point ;;
      result <- and_then popped
                  (header_reorganization.push_all incoming fork_point) ;;
      ret (if result then success else operation_failed, out)) db) /\
  (checkpoint_height fork_point + size incoming_b > max_size_t ->
   block_reorganization.reorganize fork_point incoming_b outgoing_b db
   = (Some (operation_failed, outgoing_b), db)) /\
  (checkpoint_height fork_point + size incoming_b <= max_size_t ->
   block_reorganization.reorganize fork_point incoming_b outgoing_b db
   = ('(popped, out) <- block_reorganization.pop_above outgoing_b fork_point ;;
      result <- block_reorganization.and_then_push popped
                  (block_reorganization.push_all incoming_b fork_point) ;;
      match result with
      | None => ret None
      | Some result =>
          ret (Some (if result then success else operation_failed, out))
      end) db).
Proof.
  intros Hh Hn Hnb.
  pose proof (size_nonneg incoming) as H0.
  pose proof (size_nonneg incoming_b) as H0b.
  unfold header_reorganization.reorganize, block_reorganization.reorganize.
  rewrite !wrap_small by lia.
  repeat split; intros Hsum.
  - destruct (Z.gtb_spec (checkpoint_height fork_point)
                         (max_size_t - size incoming)); [reflexivity|lia].
  - destruct (Z.gtb_spec (checkpoint_height fork_point)
                         (max_size_t - size incoming)); [lia|reflexivity].
  - destruct (Z.gtb_spec (checkpoint_height fork_point)
                         (max_size_t - size incoming_b)); [reflexivity|lia].
  - destruct (Z.gtb_spec (checkpoint_height fork_point)
                         (max_size_t - size incoming_b)); [lia|reflexivity].
Qed.

(** A fork point at the greatest height and one incoming header. *)
Lemma reorganize_overflow_guard_witness :
  header_reorganization.reorganize
    {| checkpoint_hash := 103; checkpoint_height := max_size_t |}
    [examples.a_header 104 103] [examples.a_header 9 8]
    (examples.chain examples.flushing [])
  = (operation_failed, [examples.a_header 9 8],
     examples.chain examples.flushing []).
Proof.
  refine (proj1 (reorganize_overflow_guard
                   (examples.chain examples.flushing [])
                   {| checkpoint_hash := 103; checkpoint_height := max_size_t |}
                   [examples.a_header 104 103] [examples.a_header 9 8] [] []
                   _ _ _) _).
  - vm_compute. split; discriminate.
  - vm_compute. discriminate.
  - vm_compute. discriminate.
  - vm_compute. reflexivity.
Defined.

(** ** [close] *)

Lemma leaf_close_frame (l : leaf) (db db' : data_base) (ok : bool) :
  leaf_close l db = (ok, db') -> frame db db' [ev_close l].
Proof.
  unfold leaf_close, emit, modify, next_io, bind, frame.
  destruct db as [c s b t fl io tr]; cbn.
  destruct io as [|x io]; intros H; inversion H; cbn; auto.
Qed.

Lemma store_close_frame (db db' : data_base) (ok : bool) :
  store.close db = (ok, db') -> frame db db' [ev_store_close].
Proof.
  unfold store.close, store.flush_each_write, emit, modify, gets, next_io,
    bind, ret, frame.
  destruct db as [c [ia fw] b t fl io tr]; cbn.
  destruct fw, io as [|[|] io]; cbn; intros H; inversion H; cbn; auto.
Qed.

Lemma close_closed (db : data_base) :
  closed_ db = true -> close db = (true, db).
Proof.
  intros Hc. unfold close, bind, gets. rewrite Hc. reflexivity.
Qed.

Lemma close_times_closed (n : nat) (db : data_base) :
  closed_ db = true -> close_times n db = (repeat true n, db).
Proof.
  intros Hc. induction n as [|n IH]; cbn [close_times repeat].
  - reflexivity.
  - unfold bind. rewrite (close_closed db Hc), IH. reflexivity.
Qed.

(** C7 (as the code has it). On an open data base, the first [close()]
    stores true in the closed flag before it makes any call on a leaf: the
    store is the first thing in its trace, and the leaves are closed from
    the state that has the flag set. It then closes the leaves in the order
    blocks, transactions, addresses (when they are indexed), which is the
    order in which [open] opens them, each after the success of the one
    before, then the store: what the call does is a prefix of
    [close_events] that holds the store to the flag and the close of the
    blocks, all of it when the call returns true. The blocks are closed
    exactly once, no leaf twice. The [n] calls that follow see the flag:
    each returns true and leaves the data base as it is. *)
Theorem close_idempotent (db : data_base) (n : nat) :
  closed_ db = false ->
  exists first db0 db1,
    assign_closed true db = (tt, db0) /\
    closed_ db0 = true /\
    trace_ db0 = trace_ db ++ [ev_set_closed true] /\
    close_leaves db0 = (first, db1) /\
    close db = (first, db1) /\
    closed_ db1 = true /\
    close_times (S n) db = (first :: repeat true n, db1) /\
    exists k,
      (2 <= k)%nat /\
      trace_ db1 = trace_ db ++ firstn k (close_events (settings_ db)) /\
      (first = true ->
       trace_ db1 = trace_ db ++ close_events (settings_ db)).
Proof.
  intros Hc.
  destruct (assign_closed true db) as [[] db0] eqn:E0.
  assert (S0 : settings_ db0 = settings_ db).
  { unfold assign_closed, emit, modify, bind in E0. now inversion E0. }
  assert (T0 : trace_ db0 = trace_ db ++ [ev_set_closed true]).
  { unfold assign_closed, emit, modify, bind in E0. now inversion E0. }
  assert (C0 : closed_ db0 = true).
  { unfold assign_closed, emit, modify, bind in E0. now inversion E0. }
  assert (Hl : close db = close_leaves db0).
  { unfold close, close_leaves. unfold bind at 1. unfold gets at 1.
    rewrite Hc. unfold bind at 1. rewrite E0. reflexivity. }
  destruct (close_leaves db0) as [first db1] eqn:R.
  assert (Hc1 : closed_ db1 = true /\
                exists k,
                  (2 <= k)%nat /\
                  trace_ db1 = trace_ db ++ firstn k (close_events (settings_ db)) /\
                  (first = true ->
                   trace_ db1 = trace_ db ++ close_events (settings_ db))).
  { clear Hl E0.
    unfold close_leaves, close_events in *.
    run_step R c1 d1 E1. apply leaf_close_frame in E1.
    destruct E1 as (S1 & C1 & T1).
    destruct c1; cbn [and_then] in R.
    - run_step R c2 d2 E2. apply leaf_close_frame in E2.
      destruct E2 as (S2 & C2 & T2).
      run_step R ia d3 E3. unfold gets in E3. inversion E3; subst ia d3.
      rewrite S2, S1, S0 in R.
      destruct c2; cbn [and_then] in R.
      + destruct (index_addresses (settings_ db)).
        * run_step R c4 d4 E4. apply leaf_close_frame in E4.
          destruct E4 as (S4 & C4 & T4).
          destruct c4; cbn [and_then] in R.
          -- apply store_close_frame in R. destruct R as (S5 & C5 & T5).
             split; [congruence|]. exists 5%nat.
             rewrite T5, T4, T2, T1, T0, <- !app_assoc. cbn.
             repeat split; solve [lia | reflexivity | intros; reflexivity].
          -- unfold ret in R. inversion R; subst.
             split; [congruence|]. exists 4%nat.
             rewrite T4, T2, T1, T0, <- !app_assoc. cbn.
             repeat split; solve [lia | reflexivity | discriminate].
        * run_step R c4 d4 E4. unfold ret in E4. inversion E4; subst c4 d4.
          cbn [and_then] in R.
          apply store_close_frame in R. destruct R as (S5 & C5 & T5).
          split; [congruence|]. exists 4%nat.
          rewrite T5, T2, T1, T0, <- !app_assoc. cbn.
          repeat split; solve [lia | reflexivity | intros; reflexivity].
      + assert (R' : (false, d2) = (first, db1)).
        { destruct (index_addresses (settings_ db)); exact R. }
        inversion R'; subst.
        split; [congruence|]. exists 3%nat.
        rewrite T2, T1, T0, <- !app_assoc. cbn.
        repeat split; solve [lia | reflexivity | discriminate].
    - run_step R c2 d2 E2. unfold ret in E2. inversion E2; subst c2 d2.
      run_step R ia d3 E3. unfold gets in E3. inversion E3; subst ia d3.
      assert (R' : (false, d1) = (first, db1)).
      { destruct (index_addresses (settings_ d1)); exact R. }
      inversion R'; subst.
      split; [congruence|]. exists 2%nat.
      rewrite T1, T0, <- !app_assoc. cbn.
      repeat split; solve [lia | reflexivity | discriminate]. }
  destruct Hc1 as [Hc1 Hk].
  exists first, db0, db1.
  split; [reflexivity|]. split; [exact C0|]. split; [exact T0|].
  split; [exact R|]. split; [exact Hl|].
  split; [exact Hc1|]. split; [|exact Hk].
  cbn [close_times]. unfold bind. rewrite Hl.
  rewrite (close_times_closed n db1 Hc1). reflexivity.
Qed.

(** With the addresses indexed and every file operation succeeding, [open]
    opens blocks, transactions, addresses and [close] closes blocks,
    transactions, addresses: the same order, not the reverse. And when the
    close of the blocks fails, the first of two calls returns false, with
    the transactions and the addresses not closed at all. *)
Lemma close_idempotent_counterexample :
  open (set_closed true (examples.fresh examples.indexing []))
  = (true,
     set_trace [ev_store_open; ev_open blocks_leaf; ev_open transactions_leaf;
                ev_open addresses_leaf; ev_set_closed false]
       (examples.fresh examples.indexing [])) /\
  close (examples.fresh examples.indexing [])
  = (true,
     set_trace [ev_set_closed true; ev_close blocks_leaf;
                ev_close transactions_leaf; ev_close addresses_leaf;
                ev_store_close]
       (set_closed true (examples.fresh examples.indexing []))) /\
  close_times 2 (examples.fresh examples.indexing [false])
  = ([false; true],
     set_trace [ev_set_closed true; ev_close blocks_leaf]
       (set_closed true (examples.fresh examples.indexing []))).
Proof. repeat split; vm_compute; reflexivity. Qed.

Lemma close_idempotent_witness :
  closed_ (examples.fresh examples.indexing []) = false /\
  exists first db0 db1,
    assign_closed true (examples.fresh examples.indexing []) = (tt, db0) /\
    closed_ db0 = true /\
    trace_ db0
    = trace_ (examples.fresh examples.indexing []) ++ [ev_set_closed true] /\
    close_leaves db0 = (first, db1) /\
    close (examples.fresh examples.indexing []) = (first, db1) /\
    closed_ db1 = true /\
    close_times 3 (examples.fresh examples.indexing [])
    = (first :: repeat true 2, db1) /\
    exists k,
      (2 <= k)%nat /\
      trace_ db1
      = trace_ (examples.fresh examples.indexing [])
        ++ firstn k (close_events
                       (settings_ (examples.fresh examples.indexing []))) /\
      (first = true ->
       trace_ db1
       = trace_ (examples.fresh examples.indexing [])
         ++ close_events (settings_ (examples.fresh examples.indexing []))).
Proof.
  split; [reflexivity|].
  apply (close_idempotent (examples.fresh examples.indexing []) 2).
  reflexivity.
Defined.

(** ** The accessor *)

Lemma assign_calls (buffers : list Z) :
  forall a,
    accessor.mutex_ (fold_left accessor.assign buffers a)
    = accessor.mutex_ a
      ++ repeat accessor.unlock_upgrade_and_lock_shared (length buffers).
Proof.
  induction buffers as [|b buffers IH]; intros a; cbn [fold_left length repeat].
  - now rewrite app_nil_r.
  - rewrite IH. cbn [accessor.assign accessor.mutex_].
    now rewrite <- app_assoc.
Qed.

(** C9 (as the code has it). In the life of an accessor the calls on the
    mutex are: [lock_upgrade] at construction, one
    [unlock_upgrade_and_lock_shared] for each [assign], and [unlock_shared]
    at destruction, whatever came before. The accessor keeps no record of
    what it holds, so this is a run of the lock state machine exactly when
    [assign] has been called once: destroyed without an [assign] it releases
    a shared lock while it holds the upgradable one, and assigned twice it
    downgrades a lock that is shared already. *)
Theorem accessor_life (buffers : list Z) :
  accessor.life buffers
  = [accessor.lock_upgrade]
    ++ repeat accessor.unlock_upgrade_and_lock_shared (length buffers)
    ++ [accessor.unlock_shared] /\
  (accessor.run accessor.nothing (accessor.life buffers)
   = if (length buffers =? 1)%nat then Some accessor.nothing else None).
Proof.
  assert (E : accessor.life buffers
              = [accessor.lock_upgrade]
                ++ repeat accessor.unlock_upgrade_and_lock_shared
                     (length buffers)
                ++ [accessor.unlock_shared]).
  { unfold accessor.life, accessor.destroy. rewrite assign_calls.
    cbn [accessor.construct accessor.mutex_]. now rewrite <- app_assoc. }
  split; [exact E|]. rewrite E.
  destruct buffers as [|b1 [|b2 buffers]]; reflexivity.
Qed.

(** Constructed, never assigned, destroyed: [unlock_shared] is called while
    the upgradable lock is held, which is not a transition of the state
    machine. *)
Lemma accessor_life_counterexample :
  accessor.life [] = [accessor.lock_upgrade; accessor.unlock_shared] /\
  accessor.run accessor.nothing [accessor.lock_upgrade] = Some accessor.upgrade /\
  accessor.step accessor.upgrade accessor.unlock_shared = None /\
  accessor.run accessor.nothing (accessor.life []) = None.
Proof. repeat split. Qed.

(** ** [invalidate] *)





(** ** [pop_above] *)

Lemma uncandidate_links_frame (links : list link_type) :
  forall (db db' : data_base) (ok : bool),
    header_reorganization.uncandidate_links links db = (ok, db') ->
    blocks_ db' = blocks_ db.
Proof.
  induction links as [|l links IH]; intros db db' ok H;
    cbn [header_reorganization.uncandidate_links] in H.
  - unfold ret in H. now inversion H.
  - run_step H ok1 db1 E1. apply on_transactions_frame in E1.
    destruct E1 as (_ & _ & B1 & _).
    destruct ok1; cbn [negb] in H.
    + apply IH in H. congruence.
    + unfold ret in H. inversion H; subst. exact B1.
Qed.

(** A [pop_header] at the candidate top that does not fail has read the
    header at the top and removed it from the candidate index; the table
    and the confirmed index are as before. *)
Lemma pop_header_done (db db' : data_base) (out out' : header)
    (height : size_t) (ec : code) :
  verify.verify_top (blocks_ db) height true = success ->
  header_reorganization.pop_header out height db = (ec, out', db') ->
  is_error ec = false ->
  exists r,
    block_database.get (blocks_ db) height true = Some r /\
    out' = block_database.result_header r /\
    blocks_ db' = block_database.with_index (blocks_ db) true
                    (removelast (block_database.candidate_index (blocks_ db))).
Proof.
  intros Hv H Hec. unfold header_reorganization.pop_header in H.
  run_step H b0 db0 E0. unfold gets in E0. inversion E0; subst b0 db0.
  rewrite Hv in H. cbn [is_error] in H.
  destruct (block_database.get (blocks_ db) height true) as [r|] eqn:Hg.
  2:{ unfold ret in H. inversion H; subst. discriminate Hec. }
  exists r. split; [reflexivity|].
  run_step H ok1 db1 E1. apply begin_write_frame in E1.
  destruct E1 as (_ & B1 & _).
  destruct ok1; cbn [negb] in H.
  2:{ unfold ret in H. inversion H; subst. discriminate Hec. }
  run_step H ok2 db2 E2. apply uncandidate_links_frame in E2.
  destruct ok2; cbn [negb] in H.
  2:{ apply fail_write_result in H. destruct H as [H _].
      inversion H; subst. discriminate Hec. }
  run_step H ok3 db3 E3. apply on_blocks_frame in E3.
  destruct E3 as (_ & B3 & _).
  destruct ok3; cbn [negb] in H.
  2:{ apply fail_write_result in H. destruct H as [H _].
      inversion H; subst. discriminate Hec. }
  run_step H u4 db4 E4. apply leaf_commit_frame in E4.
  destruct E4 as (_ & B4 & _).
  run_step H ec5 db5 E5. apply finish_write_result in E5.
  destruct E5 as (_ & _ & B5 & _).
  unfold ret in H. inversion H; subst ec5 out' db5. clear H.
  split; [reflexivity|].
  rewrite E2, B1 in B3. apply unindex_true in B3.
  destruct B3 as (_ & _ & B3).
  rewrite B5, B4, B3. reflexivity.
Qed.

Lemma get_removelast (b : block_database.t) (c : bool) (k : size_t) :
  0 <= k < size (block_database.index_of b c) - 1 ->
  block_database.get
    (block_database.with_index b c (removelast (block_database.index_of b c)))
    k c
  = block_database.get b k c.
Proof.
  intros Hk. unfold block_database.get.
  rewrite index_of_with_index, Bool.eqb_reflx.
  rewrite at_position_removelast by exact Hk. reflexivity.
Qed.

(** The fuel of the loop is no limit: from the depth on, more fuel gives
    the same run. *)
Lemma pop_from_fuel (fuel : nat) :
  forall (fuel' : nat) (height fork : size_t) (headers : list header)
         (db : data_base),
    0 <= fork -> height <= max_size_t ->
    (Z.to_nat (height - fork) <= fuel)%nat ->
    (Z.to_nat (height - fork) <= fuel')%nat ->
    header_reorganization.pop_from fuel height fork headers db
    = header_reorganization.pop_from fuel' height fork headers db.
Proof.
  induction fuel as [|fuel IH]; intros [|fuel'] height fork headers db
    Hf Hmax H1 H2; cbn [header_reorganization.pop_from]; try reflexivity.
  - destruct (Z.gtb_spec height fork); [lia|reflexivity].
  - destruct (Z.gtb_spec height fork); [lia|reflexivity].
  - destruct (Z.gtb_spec height fork) as [Hgt|Hle]; [|reflexivity].
    unfold bind.
    destruct (header_reorganization.pop_header default_header height db)
      as [[ec next] db1].
    destruct (is_error ec); [reflexivity|].
    rewrite wrap_small by lia. apply IH; lia.
Qed.

(** The loop of [pop_above] on headers: when it succeeds from the top
    [height] of the candidate index, the headers it has put in front of the
    list are those of the heights [fork + 1] to [height], in this order. *)
Lemma pop_from_headers (fuel : nat) :
  forall (height fork : size_t) (headers out : list header)
         (db db' : data_base),
    0 <= fork <= height -> height <= max_size_t ->
    (fork < height ->
     size (block_database.candidate_index (blocks_ db)) = height + 1) ->
    (Z.to_nat (height - fork) <= fuel)%nat ->
    header_reorganization.pop_from fuel height fork headers db
    = (true, out, db') ->
    exists popped,
      out = popped ++ headers /\
      size popped = height - fork /\
      forall i, 0 <= i < height - fork ->
        exists r,
          block_database.get (blocks_ db) (fork + 1 + i) true = Some r /\
          at_position popped i = Some (block_database.result_header r).
Proof.
  induction fuel as [|fuel IH]; intros height fork headers out db db'
    Hf Hmax Hsize Hfuel H; cbn [header_reorganization.pop_from] in H.
  - unfold ret in H. inversion H; subst. exists [].
    split; [reflexivity|]. split; [cbn [size]; lia|]. intros i Hi. lia.
  - destruct (Z.gtb_spec height fork) as [Hgt|Hle].
    2:{ unfold ret in H. inversion H; subst. exists [].
        split; [reflexivity|]. split; [cbn [size]; lia|]. intros i Hi. lia. }
    specialize (Hsize ltac:(lia)).
    assert (Hv : verify.verify_top (blocks_ db) height true = success).
    { unfold verify.verify_top.
      rewrite (top_of_size (blocks_ db) true height) by (cbn; lia).
      now rewrite Z.eqb_refl. }
    run_step H r1 db1 E1. destruct r1 as [ec next].
    destruct (is_error ec) eqn:Hec.
    { unfold ret in H. inversion H. }
    destruct (pop_header_done _ _ _ _ _ _ Hv E1 Hec) as (r & Hg & Hn & Hb).
    rewrite wrap_small in H by lia.
    apply IH in H; [| lia | lia | | lia].
    2:{ intros _. rewrite Hb. cbn [block_database.candidate_index
          block_database.with_index].
        rewrite size_removelast; [lia|].
        intros Hnil. rewrite Hnil in Hsize. cbn [size] in Hsize. lia. }
    destruct H as (popped & Hout & Hsz & Hel).
    exists (popped ++ [next]). split; [|split].
    + rewrite Hout, <- app_assoc. reflexivity.
    + rewrite size_app. cbn [size]. lia.
    + intros i Hi. destruct (Z.eq_dec i (height - 1 - fork)) as [->|Hne].
      * exists r. replace (fork + 1 + (height - 1 - fork)) with height by lia.
        split; [exact Hg|]. rewrite <- Hsz, at_position_last. now subst next.
      * destruct (Hel i ltac:(lia)) as (ri & Hgi & Hpi).
        exists ri. split.
        -- rewrite Hb in Hgi.
           rewrite <- Hgi. symmetry.
           apply (get_removelast (blocks_ db) true).
           cbn [block_database.index_of]. lia.
        -- now apply at_position_app_l.
Qed.

Lemma at_position_map {A B : Type} (f : A -> B) (l : list A) :
  forall k, at_position (map f l) k = option_map f (at_position l k).
Proof.
  induction l as [|x l IH]; intros k; cbn [map at_position].
  - reflexivity.
  - destruct (k =? 0); [reflexivity|apply IH].
Qed.

(** The hydrated transactions depend on the content of the store only. *)
Lemma to_transactions_content (t1 t2 : transaction_database.t)
    (r : block_database.block_record) :
  tx_content t1 = tx_content t2 ->
  block_reorganization.to_transactions t1 r
  = block_reorganization.to_transactions t2 r.
Proof.
  intros Hc. unfold block_reorganization.to_transactions.
  apply map_ext. intros l. unfold transaction_database.get.
  assert (E : option_map (fun r => (transaction_database.rec_tx_hash r,
                                    transaction_database.rec_tx_fields r))
                (at_position t1 l)
              = option_map (fun r => (transaction_database.rec_tx_hash r,
                                      transaction_database.rec_tx_fields r))
                  (at_position t2 l)).
  { rewrite <- !at_position_map. unfold tx_content in Hc. now rewrite Hc. }
  destruct (at_position t1 l) as [r1|], (at_position t2 l) as [r2|];
    cbn [option_map] in E; try discriminate E; [|reflexivity].
  inversion E as [[Hh Hf]].
  unfold transaction_database.result_transaction. now rewrite Hh, Hf.
Qed.

Lemma rewrite_at_content (f : transaction_database.tx_record ->
                              transaction_database.tx_record) :
  (forall r, transaction_database.rec_tx_hash (f r)
             = transaction_database.rec_tx_hash r /\
             transaction_database.rec_tx_fields (f r)
             = transaction_database.rec_tx_fields r) ->
  forall (db db' : transaction_database.t) (l : link_type),
    transaction_database.rewrite_at f db l = Some db' ->
    tx_content db' = tx_content db.
Proof.
  intros Hf. induction db as [|r db IH]; intros db' l H;
    cbn [transaction_database.rewrite_at] in H.
  - discriminate H.
  - destruct (l =? 0).
    + inversion H; subst. unfold tx_content. cbn [map].
      destruct (Hf r) as [-> ->]. reflexivity.
    + destruct (transaction_database.rewrite_at f db (l - 1)) as [rest|] eqn:E;
        [|discriminate H].
      inversion H; subst. unfold tx_content in *. cbn [map].
      now rewrite (IH _ _ E).
Qed.

Lemma unconfirm_content (t t' : transaction_database.t) (l : link_type)
    (ok : bool) :
  transaction_database.unconfirm t l = (ok, t') ->
  tx_content t' = tx_content t.
Proof.
  unfold transaction_database.unconfirm, transaction_database.apply_at.
  destruct (transaction_database.rewrite_at _ t l) as [t1|] eqn:E;
    intros H; inversion H; subst; [|reflexivity].
  eapply rewrite_at_content; [|exact E]. intros r. split; reflexivity.
Qed.

Lemma unconfirm_transactions_frame (txs : list transaction) :
  forall (db db' : data_base) (ok : bool),
    block_reorganization.unconfirm_transactions txs db = (ok, db') ->
    blocks_ db' = blocks_ db /\
    tx_content (transactions_ db') = tx_content (transactions_ db).
Proof.
  induction txs as [|tx txs IH]; intros db db' ok H;
    cbn [block_reorganization.unconfirm_transactions] in H.
  - unfold ret in H. now inversion H.
  - run_step H ok1 db1 E1. apply on_transactions_frame in E1.
    destruct E1 as (_ & T1 & B1 & _). apply unconfirm_content in T1.
    destruct ok1; cbn [negb] in H.
    + apply IH in H. destruct H as [HB HT]. split; congruence.
    + unfold ret in H. inversion H; subst. auto.
Qed.

(** A [pop_block] at the confirmed top that does not fail has read the
    block at the top and removed it from the confirmed index; the table and
    the content of the transaction store are as before. *)
Lemma pop_block_done (db db' : data_base) (out out' : block)
    (height : size_t) (ec : code) :
  verify.verify_top (blocks_ db) height false = success ->
  block_reorganization.pop_block out height db = (ec, out', db') ->
  is_error ec = false ->
  exists r,
    block_database.get (blocks_ db) height false = Some r /\
    out' = {| block_header := block_database.result_header r;
              transactions :=
                block_reorganization.to_transactions (transactions_ db) r |} /\
    blocks_ db' = block_database.with_index (blocks_ db) false
                    (removelast (block_database.confirmed_index (blocks_ db))) /\
    tx_content (transactions_ db') = tx_content (transactions_ db).
Proof.
  intros Hv H Hec. unfold block_reorganization.pop_block in H.
  run_step H b0 db0 E0. unfold gets in E0. inversion E0; subst b0 db0.
  rewrite Hv in H. cbn [is_error] in H.
  destruct (block_database.get (blocks_ db) height false) as [r|] eqn:Hg.
  2:{ unfold ret in H. inversion H; subst. discriminate Hec. }
  exists r. split; [reflexivity|].
  run_step H t0 db0 E0'. unfold gets in E0'. inversion E0'; subst t0 db0.
  run_step H ok1 db1 E1. apply begin_write_frame in E1.
  destruct E1 as (_ & B1 & T1).
  destruct ok1; cbn [negb] in H.
  2:{ unfold ret in H. inversion H; subst. discriminate Hec. }
  run_step H ok2 db2 E2. apply unconfirm_transactions_frame in E2.
  destruct E2 as [B2 T2].
  destruct ok2; cbn [negb] in H.
  2:{ apply fail_write_result in H. destruct H as [H _].
      inversion H; subst. discriminate Hec. }
  run_step H ok3 db3 E3. apply on_blocks_frame in E3.
  destruct E3 as (_ & B3 & T3 & _).
  destruct ok3; cbn [negb] in H.
  2:{ apply fail_write_result in H. destruct H as [H _].
      inversion H; subst. discriminate Hec. }
  run_step H u4 db4 E4. apply commit_frame in E4.
  destruct E4 as (_ & B4 & T4 & _).
  run_step H ec5 db5 E5. apply finish_write_result in E5.
  destruct E5 as (_ & _ & B5 & T5).
  unfold ret in H. inversion H; subst ec5 out' db5. clear H.
  split; [reflexivity|].
  rewrite B2, B1 in B3. apply unindex_true in B3.
  destruct B3 as (_ & _ & B3).
  split; [rewrite B5, B4, B3; reflexivity|].
  rewrite T5, T4, T3, T2, T1. reflexivity.
Qed.

Lemma pop_from_blocks_fuel (fuel : nat) :
  forall (fuel' : nat) (height fork : size_t) (blocks : list block)
         (db : data_base),
    0 <= fork -> height <= max_size_t ->
    (Z.to_nat (height - fork) <= fuel)%nat ->
    (Z.to_nat (height - fork) <= fuel')%nat ->
    block_reorganization.pop_from fuel height fork blocks db
    = block_reorganization.pop_from fuel' height fork blocks db.
Proof.
  induction fuel as [|fuel IH]; intros [|fuel'] height fork blocks db
    Hf Hmax H1 H2; cbn [block_reorganization.pop_from]; try reflexivity.
  - destruct (Z.gtb_spec height fork); [lia|reflexivity].
  - destruct (Z.gtb_spec height fork); [lia|reflexivity].
  - destruct (Z.gtb_spec height fork) as [Hgt|Hle]; [|reflexivity].
    unfold bind.
    destruct (block_reorganization.pop_block default_block height db)
      as [[ec next] db1].
    destruct (is_error ec); [reflexivity|].
    rewrite wrap_small by lia. apply IH; lia.
Qed.

(** The loop of [pop_above] on blocks. *)
Lemma pop_from_blocks (fuel : nat) :
  forall (height fork : size_t) (blocks out : list block)
         (db db' : data_base),
    0 <= fork <= height -> height <= max_size_t ->
    (fork < height ->
     size (block_database.confirmed_index (blocks_ db)) = height + 1) ->
    (Z.to_nat (height - fork) <= fuel)%nat ->
    block_reorganization.pop_from fuel height fork blocks db
    = (true, out, db') ->
    exists popped,
      out = popped ++ blocks /\
      size popped = height - fork /\
      forall i, 0 <= i < height - fork ->
        exists r,
          block_database.get (blocks_ db) (fork + 1 + i) false = Some r /\
          at_position popped i
          = Some {| block_header := block_database.result_header r;
                    transactions :=
                      block_reorganization.to_transactions
                        (transactions_ db) r |}.
Proof.
  induction fuel as [|fuel IH]; intros height fork blocks out db db'
    Hf Hmax Hsize Hfuel H; cbn [block_reorganization.pop_from] in H.
  - unfold ret in H. inversion H; subst. exists [].
    split; [reflexivity|]. split; [cbn [size]; lia|]. intros i Hi. lia.
  - destruct (Z.gtb_spec height fork) as [Hgt|Hle].
    2:{ unfold ret in H. inversion H; subst. exists [].
        split; [reflexivity|]. split; [cbn [size]; lia|]. intros i Hi. lia. }
    specialize (Hsize ltac:(lia)).
    assert (Hv : verify.verify_top (blocks_ db) height false = success).
    { unfold verify.verify_top.
      rewrite (top_of_size (blocks_ db) false height) by (cbn; lia).
      now rewrite Z.eqb_refl. }
    run_step H r1 db1 E1. destruct r1 as [ec next].
    destruct (is_error ec) eqn:Hec.
    { unfold ret in H. inversion H. }
    destruct (pop_block_done _ _ _ _ _ _ Hv E1 Hec) as (r & Hg & Hn & Hb & Ht).
    rewrite wrap_small in H by lia.
    apply IH in H; [| lia | lia | | lia].
    2:{ intros _. rewrite Hb. cbn [block_database.confirmed_index
          block_database.with_index].
        rewrite size_removelast; [lia|].
        intros Hnil. rewrite Hnil in Hsize. cbn [size] in Hsize. lia. }
    destruct H as (popped & Hout & Hsz & Hel).
    exists (popped ++ [next]). split; [|split].
    + rewrite Hout, <- app_assoc. reflexivity.
    + rewrite size_app. cbn [size]. lia.
    + intros i Hi. destruct (Z.eq_dec i (height - 1 - fork)) as [->|Hne].
      * exists r. replace (fork + 1 + (height - 1 - fork)) with height by lia.
        split; [exact Hg|]. rewrite <- Hsz, at_position_last. now subst next.
      * destruct (Hel i ltac:(lia)) as (ri & Hgi & Hpi).
        exists ri. split.
        -- rewrite Hb in Hgi.
           rewrite <- Hgi. symmetry.
           apply (get_removelast (blocks_ db) false).
           cbn [block_database.index_of]. lia.
        -- rewrite (to_transactions_content _ _ ri Ht) in Hpi.
           now apply at_position_app_l.
Qed.

Lemma verify_height_nonneg (b : block_database.t) (fork_point : checkpoint)
    (c : bool) :
  is_error (verify.verify b fork_point c) = false ->
  0 <= checkpoint_height fork_point.
Proof.
  unfold verify.verify, block_database.get.
  destruct (at_position (block_database.index_of b c)
              (checkpoint_height fork_point)) as [h|] eqn:E;
    [|discriminate].
  intros _. apply at_position_range in E. lia.
Qed.

(** C4. When [pop_above] succeeds, for headers on the candidate index and
    for blocks on the confirmed index, with the top of the index at [top]
    and the fork point at a height no greater: [outgoing] has
    [top - fork] elements, and its element [i] is the header (the block,
    with its transactions hydrated) that the index had at height
    [fork + 1 + i] before the call, so the list ascends; when the top is
    the fork point the list is empty and the data base is untouched. And
    when the fork point verifies and is the top of the index, [pop_above]
    does succeed: it returns true with the empty list and makes no call,
    whatever list it was given. *)
Theorem pop_above_outgoing (db : data_base) (fork_point : checkpoint)
    (top : size_t) :
  checkpoint_height fork_point <= top <= max_size_t ->
  (forall headers out db',
     block_database.top (blocks_ db) true = Some top ->
     header_reorganization.pop_above headers fork_point db = (true, out, db') ->
     size out = top - checkpoint_height fork_point /\
     (forall i, 0 <= i < top - checkpoint_height fork_point ->
        exists r,
          block_database.get (blocks_ db)
            (checkpoint_height fork_point + 1 + i) true = Some r /\
          at_position out i = Some (block_database.result_header r)) /\
     (top = checkpoint_height fork_point -> out = [] /\ db' = db)) /\
  (forall blocks out db',
     block_database.top (blocks_ db) false = Some top ->
     block_reorganization.pop_above blocks fork_point db = (true, out, db') ->
     size out = top - checkpoint_height fork_point /\
     (forall i, 0 <= i < top - checkpoint_height fork_point ->
        exists r,
          block_database.get (blocks_ db)
            (checkpoint_height fork_point + 1 + i) false = Some r /\
          at_position out i
          = Some {| block_header := block_database.result_header r;
                    transactions :=
                      block_reorganization.to_transactions
                        (transactions_ db) r |}) /\
     (top = checkpoint_height fork_point -> out = [] /\ db' = db)) /\
  (forall headers,
     is_error (verify.verify (blocks_ db) fork_point true) = false ->
     block_database.top (blocks_ db) true
     = Some (checkpoint_height fork_point) ->
     header_reorganization.pop_above headers fork_point db = (true, [], db)) /\
  (forall blocks,
     is_error (verify.verify (blocks_ db) fork_point false) = false ->
     block_database.top (blocks_ db) false
     = Some (checkpoint_height fork_point) ->
     block_reorganization.pop_above blocks fork_point db = (true, [], db)).
Proof.
  intros Hft. split; [|split; [|split]].
  3:{ intros headers Hv Htop.
      unfold header_reorganization.pop_above, bind, gets.
      rewrite Hv, Htop, Z.sub_diag. reflexivity. }
  3:{ intros blocks Hv Htop.
      unfold block_reorganization.pop_above, bind, gets.
      rewrite Hv, Htop, Z.sub_diag. reflexivity. }
  - intros headers out db' Htop H.
    unfold header_reorganization.pop_above in H.
    run_step H b0 db0 E0. unfold gets in E0. inversion E0; subst b0 db0.
    destruct (is_error (verify.verify (blocks_ db) fork_point true)) eqn:Hv.
    { unfold ret in H. inversion H. }
    apply verify_height_nonneg in Hv.
    rewrite Htop in H. rewrite wrap_small in H by lia.
    destruct (Z.eqb_spec (top - checkpoint_height fork_point) 0) as [Hz|Hnz].
    + unfold ret in H. inversion H; subst. cbn [size].
      split; [lia|]. split; [intros i Hi; lia|]. auto.
    + apply top_size in Htop. destruct Htop as [_ Hsz].
      apply pop_from_headers in H; [| lia | lia | intros _; exact Hsz | lia].
      destruct H as (popped & Hout & Hsize & Hel).
      rewrite app_nil_r in Hout. subst out.
      split; [exact Hsize|]. split; [exact Hel|]. intros Heq. lia.
  - intros blocks out db' Htop H.
    unfold block_reorganization.pop_above in H.
    run_step H b0 db0 E0. unfold gets in E0. inversion E0; subst b0 db0.
    destruct (is_error (verify.verify (blocks_ db) fork_point false)) eqn:Hv.
    { unfold ret in H. inversion H. }
    apply verify_height_nonneg in Hv.
    rewrite Htop in H. rewrite wrap_small in H by lia.
    destruct (Z.eqb_spec (top - checkpoint_height fork_point) 0) as [Hz|Hnz].
    + unfold ret in H. inversion H; subst. cbn [size].
      split; [lia|]. split; [intros i Hi; lia|]. auto.
    + apply top_size in Htop. destruct Htop as [_ Hsz].
      apply pop_from_blocks in H; [| lia | lia | intros _; exact Hsz | lia].
      destruct H as (popped & Hout & Hsize & Hel).
      rewrite app_nil_r in Hout. subst out.
      split; [exact Hsize|]. split; [exact Hel|]. intros Heq. lia.
Qed.

(** The candidate top is 3 and the fork point is header [101] at height 1:
    the headers [102] and [103] come out, in this order. On the store with
    the blocks [100], [101] and [102] confirmed, the confirmed top is 2:
    with the fork point the header [100] at height 0 the blocks [101], with
    its two transactions, and [102] come out, in this order, and [100]
    alone stays confirmed. With the confirmed top at 1 and the fork point
    the header [101], nothing is popped, and the list given is cleared. *)
Lemma pop_above_outgoing_witness :
  header_reorganization.pop_above []
    {| checkpoint_hash := 101; checkpoint_height := 1 |}
    (examples.chain examples.flushing [])
  = (true,
     [ {| hash := 102; previous_block_hash := 101; fields := 1632;
          metadata := {| exists_ := true; validated := false;
                         error := success; median_time_past := 12;
                         state := None |} |};
       {| hash := 103; previous_block_hash := 102; fields := 1648;
          metadata := {| exists_ := true; validated := false;
                         error := success; median_time_past := 13;
                         state := None |} |} ],
     snd (header_reorganization.pop_above []
            {| checkpoint_hash := 101; checkpoint_height := 1 |}
            (examples.chain examples.flushing []))) /\
  size (snd (fst (header_reorganization.pop_above []
                    {| checkpoint_hash := 101; checkpoint_height := 1 |}
                    (examples.chain examples.flushing []))))
  = 3 - 1 /\
  block_reorganization.pop_above []
    {| checkpoint_hash := 100; checkpoint_height := 0 |}
    scenarios.confirmed_102
  = (true,
     [ {| block_header :=
            {| hash := 101; previous_block_hash := 100; fields := 1616;
               metadata := {| exists_ := true; validated := true;
                              error := success; median_time_past := 11;
                              state := None |} |};
          transactions :=
            [ {| tx_hash := 1001; tx_fields := 1002;
                 tx_metadata := {| link := 1; existed := true |} |};
              {| tx_hash := 1002; tx_fields := 1003;
                 tx_metadata := {| link := 2; existed := true |} |} ] |};
       {| block_header :=
            {| hash := 102; previous_block_hash := 101; fields := 1632;
               metadata := {| exists_ := true; validated := false;
                              error := success; median_time_past := 12;
                              state := None |} |};
          transactions := [] |} ],
     snd (block_reorganization.pop_above []
            {| checkpoint_hash := 100; checkpoint_height := 0 |}
            scenarios.confirmed_102)) /\
  block_database.confirmed_index (blocks_ scenarios.confirmed_102)
  = [100; 101; 102] /\
  block_database.confirmed_index
    (blocks_ (snd (block_reorganization.pop_above []
                     {| checkpoint_hash := 100; checkpoint_height := 0 |}
                     scenarios.confirmed_102)))
  = [100] /\
  size (snd (fst (block_reorganization.pop_above []
                    {| checkpoint_hash := 100; checkpoint_height := 0 |}
                    scenarios.confirmed_102)))
  = 2 - 0 /\
  block_reorganization.pop_above [default_block]
    {| checkpoint_hash := 101; checkpoint_height := 1 |}
    (examples.chain examples.flushing [])
  = (true, [], examples.chain examples.flushing []).
Proof.
  split; [vm_compute; reflexivity|].
  assert (R : 1 <= 3 <= max_size_t) by (vm_compute; split; discriminate).
  assert (R0 : 0 <= 2 <= max_size_t) by (vm_compute; split; discriminate).
  assert (R1 : 1 <= 1 <= max_size_t) by (vm_compute; split; discriminate).
  split; [|split; [vm_compute; reflexivity|]].
  2:split; [vm_compute; reflexivity|].
  2:split; [vm_compute; reflexivity|split].
  - refine (proj1 (proj1 (pop_above_outgoing
                            (examples.chain examples.flushing [])
                            {| checkpoint_hash := 101; checkpoint_height := 1 |}
                            3 R)
                     [] _ (snd (header_reorganization.pop_above []
                                  {| checkpoint_hash := 101;
                                     checkpoint_height := 1 |}
                                  (examples.chain examples.flushing [])))
                     _ _)).
    + vm_compute; reflexivity.
    + vm_compute; reflexivity.
  - refine (proj1 (proj1 (proj2 (pop_above_outgoing
                                   scenarios.confirmed_102
                                   {| checkpoint_hash := 100;
                                      checkpoint_height := 0 |}
                                   2 R0))
                     [] _ (snd (block_reorganization.pop_above []
                                  {| checkpoint_hash := 100;
                                     checkpoint_height := 0 |}
                                  scenarios.confirmed_102))
                     _ _)).
    + vm_compute; reflexivity.
    + vm_compute; reflexivity.
  - refine (proj2 (proj2 (proj2 (pop_above_outgoing
                                   (examples.chain examples.flushing [])
                                   {| checkpoint_hash := 101;
                                      checkpoint_height := 1 |}
                                   1 R1)))
              [default_block] _ _).
    + vm_compute; reflexivity.
    + vm_compute; reflexivity.
Defined.

(** ** [push_header] then [pop_header] *)

(** A [push_header] that returns success has passed [verify_push], stored
    the header unless it existed, and called [blocks.index], whose result
    it does not look at. *)
Lemma push_header_done (db db1 : data_base) (h : header) (height : size_t)
    (mtp : Z) :
  header_reorganization.push_header h height mtp db = (success, db1) ->
  height = size (block_database.candidate_index (blocks_ db)) /\
  blocks_ db1
  = snd (block_database.index
           (if exists_ (metadata h) then blocks_ db
            else block_database.store (blocks_ db) h height mtp)
           (hash h) height true).
Proof.
  intros H. unfold header_reorganization.push_header in H.
  run_step H b0 db0 E0. unfold gets in E0. inversion E0; subst b0 db0.
  destruct (verify.verify_push_header (blocks_ db) h height) eqn:Hv;
    cbn [is_error] in H; try (unfold ret in H; discriminate H).
  assert (Hh : height = size (block_database.candidate_index (blocks_ db))).
  { unfold verify.verify_push_header in Hv.
    destruct (Z.eqb_spec height
                (size (block_database.candidate_index (blocks_ db))));
      [assumption|discriminate Hv]. }
  split; [exact Hh|].
  run_step H ok1 db1' E1. apply begin_write_frame in E1.
  destruct E1 as (_ & B1 & _).
  destruct ok1; cbn [negb] in H; [|unfold ret in H; discriminate H].
  run_step H u2 db2 E2.
  assert (B2 : blocks_ db2
               = if exists_ (metadata h) then blocks_ db
                 else block_database.store (blocks_ db) h height mtp).
  { destruct (exists_ (metadata h)); cbn [negb] in E2.
    - unfold ret in E2. inversion E2; subst. exact B1.
    - apply blocks_store_frame in E2. destruct E2 as (_ & B2 & _).
      now rewrite B2, B1. }
  run_step H ok3 db3 E3. apply on_blocks_frame in E3.
  destruct E3 as (_ & B3 & _).
  run_step H u4 db4 E4. apply leaf_commit_frame in E4.
  destruct E4 as (_ & B4 & _).
  apply finish_write_result in H. destruct H as (_ & _ & B5 & _).
  rewrite B5, B4, <- B2, B3. reflexivity.
Qed.

(** C3 (as the code has it). For a header whose [exists] flag says what
    the store holds, when [push_header(H, h, mtp)] succeeds and the
    [pop_header(&out, h)] that follows succeeds, the candidate index and the
    confirmed index of the block store are as before the push and [out] is
    [H]. The table of headers is as before only when the header existed: a
    header the push has stored stays stored, since [pop_header] unindexes
    and nothing removes a record. *)
Theorem push_pop_header (db db1 db2 : data_base) (h out0 out : header)
    (height : size_t) (mtp : Z) :
  (exists_ (metadata h) = true ->
   exists r, block_database.get_hash (blocks_ db) (hash h) = Some r /\
             same_header (block_database.result_header r) h) ->
  header_reorganization.push_header h height mtp db = (success, db1) ->
  header_reorganization.pop_header out0 height db1 = (success, out, db2) ->
  block_database.candidate_index (blocks_ db2)
  = block_database.candidate_index (blocks_ db) /\
  block_database.confirmed_index (blocks_ db2)
  = block_database.confirmed_index (blocks_ db) /\
  block_database.table (blocks_ db2)
  = (if exists_ (metadata h) then block_database.table (blocks_ db)
     else stored_record h height mtp :: block_database.table (blocks_ db)) /\
  same_header out h.
Proof.
  intros Hex Hpush Hpop.
  apply push_header_done in Hpush. destruct Hpush as [Hh B1].
  pose proof (size_nonneg (block_database.candidate_index (blocks_ db))) as H0.
  (* the block store after the push *)
  assert (Hidx : exists r,
             blocks_ db1
             = block_database.with_index
                 (if exists_ (metadata h) then blocks_ db
                  else block_database.store (blocks_ db) h height mtp)
                 true
                 (block_database.candidate_index (blocks_ db) ++ [hash h]) /\
             block_database.find_record (block_database.table (blocks_ db1))
               (hash h) = Some r /\
             same_header (block_database.result_header r) h).
  { unfold block_database.index in B1. 
    destruct (exists_ (metadata h)) eqn:Hx.
    - destruct (Hex eq_refl) as (r & Hr & Hs).
      unfold block_database.get_hash in Hr.
      cbn [block_database.index_of] in B1.
      rewrite <- Hh, Z.eqb_refl, Hr in B1. cbn [snd] in B1.
      exists r. rewrite B1. auto.
    - cbn [block_database.index_of block_database.store
           block_database.with_table block_database.candidate_index
           block_database.table block_database.find_record find
           block_database.rec_hash] in B1.
      rewrite <- Hh, !Z.eqb_refl in B1. cbn [snd] in B1.
      exists (stored_record h height mtp). rewrite B1.
      split; [reflexivity|]. split.
      + unfold block_database.store, block_database.with_table,
          block_database.with_index, block_database.find_record.
        cbn [block_database.table find block_database.rec_hash].
        now rewrite Z.eqb_refl.
      + unfold same_header, stored_record. cbn. auto. }
  destruct Hidx as (r & Hb1 & Hr & Hs).
  assert (Hc1 : block_database.candidate_index (blocks_ db1)
                = block_database.candidate_index (blocks_ db) ++ [hash h]).
  { rewrite Hb1. reflexivity. }
  assert (Hv : verify.verify_top (blocks_ db1) height true = success).
  { unfold verify.verify_top.
    rewrite (top_of_size (blocks_ db1) true height).
    - now rewrite Z.eqb_refl.
    - lia.
    - cbn [block_database.index_of]. rewrite Hc1, size_app. cbn [size]. lia. }
  destruct (pop_header_done _ _ _ _ _ _ Hv Hpop eq_refl) as (r' & Hg & Ho & Hb2).
  assert (r' = r).
  { unfold block_database.get in Hg. cbn [block_database.index_of] in Hg.
    rewrite Hc1, Hh, at_position_last in Hg. congruence. }
  subst r'. rewrite Hc1, removelast_last in Hb2.
  rewrite Hb2, Hb1. cbn [block_database.with_index
    block_database.candidate_index block_database.confirmed_index
    block_database.table].
  destruct (exists_ (metadata h)); subst out; auto.
Qed.

(** Header [104] pushed on top of the candidate chain and popped again.
    Both calls succeed and the header comes back, and the table of the
    block store has one record more than before the push. With a failure of
    the third file operation, the creation of the flush lock of the pop, the
    push succeeds and the pop returns [store_lock_failure]. *)
Lemma push_pop_header_counterexample :
  fst (header_reorganization.push_header (examples.a_header 104 103) 4 14
         (examples.chain examples.flushing []))
  = success /\
  fst (header_reorganization.pop_header default_header 4
         (snd (header_reorganization.push_header (examples.a_header 104 103)
                 4 14 (examples.chain examples.flushing []))))
  = (success,
     {| hash := 104; previous_block_hash := 103; fields := 1664;
        metadata := {| exists_ := true; validated := false; error := success;
                       median_time_past := 14; state := None |} |}) /\
  block_database.table
    (blocks_
       (snd (header_reorganization.pop_header default_header 4
               (snd (header_reorganization.push_header
                       (examples.a_header 104 103) 4 14
                       (examples.chain examples.flushing []))))))
  = stored_record (examples.a_header 104 103) 4 14
    :: block_database.table (blocks_ (examples.chain examples.flushing [])) /\
  fst (header_reorganization.push_header (examples.a_header 104 103) 4 14
         (examples.chain examples.flushing [true; true; false]))
  = success /\
  fst (fst (header_reorganization.pop_header default_header 4
              (snd (header_reorganization.push_header
                      (examples.a_header 104 103) 4 14
                      (examples.chain examples.flushing
                         [true; true; false])))))
  = store_lock_failure.
Proof. repeat split; vm_compute; reflexivity. Qed.

Lemma push_pop_header_witness :
  block_database.candidate_index
    (blocks_
       (snd (header_reorganization.pop_header default_header 4
               (snd (header_reorganization.push_header
                       (examples.a_header 104 103) 4 14
                       (examples.chain examples.flushing []))))))
  = block_database.candidate_index
      (blocks_ (examples.chain examples.flushing [])) /\
  same_header
    (snd (fst (header_reorganization.pop_header default_header 4
                 (snd (header_reorganization.push_header
                         (examples.a_header 104 103) 4 14
                         (examples.chain examples.flushing []))))))
    (examples.a_header 104 103).
Proof.
  assert (X : exists_ (metadata (examples.a_header 104 103)) = true ->
              exists r,
                block_database.get_hash
                  (blocks_ (examples.chain examples.flushing []))
                  (hash (examples.a_header 104 103)) = Some r /\
                same_header (block_database.result_header r)
                  (examples.a_header 104 103)).
  { intros E. vm_compute in E. discriminate E. }
  assert (P : header_reorganization.push_header (examples.a_header 104 103)
                4 14 (examples.chain examples.flushing [])
              = (success,
                 snd (header_reorganization.push_header
                        (examples.a_header 104 103) 4 14
                        (examples.chain examples.flushing []))))
    by (vm_compute; reflexivity).
  assert (Q : header_reorganization.pop_header default_header 4
                (snd (header_reorganization.push_header
                        (examples.a_header 104 103) 4 14
                        (examples.chain examples.flushing [])))
              = (success,
                 snd (fst (header_reorganization.pop_header default_header 4
                             (snd (header_reorganization.push_header
                                     (examples.a_header 104 103) 4 14
                                     (examples.chain examples.flushing []))))),
                 snd (header_reorganization.pop_header default_header 4
                        (snd (header_reorganization.push_header
                                (examples.a_header 104 103) 4 14
                                (examples.chain examples.flushing []))))))
    by (vm_compute; reflexivity).
  destruct (push_pop_header _ _ _ _ _ _ _ _ X P Q) as (Hc & _ & _ & Hs).
  exact (conj Hc Hs).
Defined.

(** * Further properties *)

Lemma pairing3 {A B C : Type} (p : A * B * C) :
  p = (fst (fst p), snd (fst p), snd p).
Proof. destruct p as [[a b] c]. reflexivity. Qed.

(** ** Relations between the stores before and after a computation *)

(** A call on the block store that reports a failure has changed nothing. *)
Lemma index_failed (b : block_database.t) (h : hash_digest) (height : size_t)
    (c : bool) :
  fst (block_database.index b h height c) = false ->
  snd (block_database.index b h height c) = b.
Proof.
  unfold block_database.index. destruct (height =? _); [|reflexivity].
  destruct (block_database.find_record _ h); [discriminate|reflexivity].
Qed.

Lemma unindex_failed (b : block_database.t) (h : hash_digest)
    (height : size_t) (c : bool) :
  fst (block_database.unindex b h height c) = false ->
  snd (block_database.unindex b h height c) = b.
Proof.
  unfold block_database.unindex. destruct (_ && _); [discriminate|reflexivity].
Qed.

Lemma validate_failed (b : block_database.t) (h : hash_digest) (ec : code) :
  fst (block_database.validate b h ec) = false ->
  snd (block_database.validate b h ec) = b.
Proof.
  unfold block_database.validate.
  destruct (block_database.find_record _ h); [discriminate|reflexivity].
Qed.

Lemma update_failed (b : block_database.t) (blk : block) :
  fst (block_database.update b blk) = false ->
  snd (block_database.update b blk) = b.
Proof.
  unfold block_database.update.
  destruct (block_database.find_record _ _); [discriminate|reflexivity].
Qed.

(** Setting a mark of a transaction keeps the content of the store. *)
Lemma apply_at_content (f : transaction_database.tx_record ->
                            transaction_database.tx_record) :
  (forall r, transaction_database.rec_tx_hash (f r)
             = transaction_database.rec_tx_hash r /\
             transaction_database.rec_tx_fields (f r)
             = transaction_database.rec_tx_fields r) ->
  forall (t : transaction_database.t) (l : link_type),
    tx_content (snd (transaction_database.apply_at f t l)) = tx_content t.
Proof.
  intros Hf t l. unfold transaction_database.apply_at.
  destruct (transaction_database.rewrite_at f t l) as [t'|] eqn:E;
    [|reflexivity].
  cbn [snd]. eapply rewrite_at_content; eassumption.
Qed.

Lemma confirm_from_content (txs : list transaction) :
  forall (t : transaction_database.t) (height : size_t) (mtp position : Z),
    tx_content (snd (transaction_database.confirm_from t txs height mtp
                       position))
    = tx_content t.
Proof.
  induction txs as [|tx txs IH]; intros t height mtp position;
    cbn [transaction_database.confirm_from].
  - reflexivity.
  - pose proof (apply_at_content
                  (transaction_database.set_confirmation
                     (Some (height, mtp, position)))
                  (fun r => conj eq_refl eq_refl) t
                  (link (tx_metadata tx))) as Hc.
    unfold transaction_database.confirm.
    destruct (transaction_database.apply_at _ t _) as [ok t1].
    cbn [snd] in Hc. destruct ok; [|exact Hc].
    rewrite IH. exact Hc.
Qed.

Section Keeping.

Variable R : store_relation.
Hypothesis R_refl : forall s, R s s.
Hypothesis R_trans : forall s1 s2 s3, R s1 s2 -> R s2 s3 -> R s1 s3.

(** What the calls on the leaves have to satisfy. *)
Hypothesis R_store :
  forall b t h height mtp, R (b, t) (block_database.store b h height mtp, t).
Hypothesis R_index_candidate :
  forall b t h height b',
    block_database.index b h height true = (true, b') -> R (b, t) (b', t).
Hypothesis R_index_confirmed :
  forall b t h height b',
    block_database.index b h height false = (true, b') -> R (b, t) (b', t).
Hypothesis R_unindex_candidate :
  forall b t h height b',
    block_database.unindex b h height true = (true, b') -> R (b, t) (b', t).
Hypothesis R_unindex_confirmed :
  forall b t h height b',
    block_database.unindex b h height false = (true, b') -> R (b, t) (b', t).
Hypothesis R_validate :
  forall b t h ec b',
    block_database.validate b h ec = (true, b') -> R (b, t) (b', t).
Hypothesis R_update :
  forall b t blk b',
    block_database.update b blk = (true, b') -> R (b, t) (b', t).
Hypothesis R_marks :
  forall b t t', tx_content t' = tx_content t -> R (b, t) (b, t').
Hypothesis R_tx_store :
  forall b t tx, R (b, t) (b, fst (transaction_database.store_one t tx)).

Lemma keeps_ret {A : Type} (a : A) : keeps R (ret a).
Proof. intros db a' db' H. inversion H. apply R_refl. Qed.

Lemma keeps_bind {A B : Type} (m : M A) (k : A -> M B) :
  keeps R m -> (forall a, keeps R (k a)) -> keeps R (bind m k).
Proof.
  intros Hm Hk db b db' H. unfold bind in H.
  destruct (m db) as [a db1] eqn:E.
  eapply R_trans; [eapply Hm; exact E|eapply Hk; exact H].
Qed.

Lemma keeps_same {A : Type} (m : M A) :
  (forall db a db', m db = (a, db') ->
     blocks_ db' = blocks_ db /\ transactions_ db' = transactions_ db) ->
  keeps R m.
Proof.
  intros Hm db a db' H. destruct (Hm _ _ _ H) as [Hb Ht].
  unfold stores. rewrite Hb, Ht. apply R_refl.
Qed.

Lemma keeps_gets {A : Type} (f : data_base -> A) : keeps R (gets f).
Proof. apply keeps_same. intros db a db' H. now inversion H. Qed.

Lemma keeps_next_io : keeps R next_io.
Proof.
  apply keeps_same. intros db a db'. unfold next_io.
  destruct (io_ db); intros H; inversion H; auto.
Qed.

Lemma keeps_begin_write : keeps R store.begin_write.
Proof.
  apply keeps_same. intros db a db' H. now apply begin_write_frame in H.
Qed.

Lemma keeps_end_write : keeps R store.end_write.
Proof.
  apply keeps_same. intros db a db' H. now apply end_write_frame in H.
Qed.

Lemma keeps_fail_write {A : Type} (a : A) : keeps R (fail_write a).
Proof.
  apply keeps_same. intros db a' db' H. now apply fail_write_result in H.
Qed.

Lemma keeps_finish_write : keeps R finish_write.
Proof.
  apply keeps_same. intros db a' db' H. now apply finish_write_result in H.
Qed.

Lemma keeps_leaf_commit (l : leaf) : keeps R (leaf_commit l).
Proof.
  apply keeps_same. intros db a db' H. apply leaf_commit_frame in H. tauto.
Qed.

Lemma keeps_commit : keeps R commit.
Proof.
  apply keeps_same. intros db a db' H. apply commit_frame in H. tauto.
Qed.

Lemma keeps_on_blocks (e : event)
    (f : block_database.t -> bool * block_database.t) :
  (forall b, fst (f b) = false -> snd (f b) = b) ->
  (forall b t b', f b = (true, b') -> R (b, t) (b', t)) ->
  keeps R (on_blocks e f).
Proof.
  intros Hfalse Htrue db ok db' H. apply on_blocks_frame in H.
  destruct H as (_ & Hf & Ht & _). unfold stores. rewrite Ht.
  destruct ok.
  - now apply Htrue.
  - specialize (Hfalse (blocks_ db)). rewrite Hf in Hfalse.
    cbn in Hfalse. rewrite Hfalse by reflexivity. apply R_refl.
Qed.

Lemma keeps_on_transactions (e : event)
    (f : transaction_database.t -> bool * transaction_database.t) :
  (forall t, tx_content (snd (f t)) = tx_content t) ->
  keeps R (on_transactions e f).
Proof.
  intros Hf db ok db' H. apply on_transactions_frame in H.
  destruct H as (_ & Hft & Hb & _). unfold stores. rewrite Hb.
  apply R_marks. specialize (Hf (transactions_ db)). now rewrite Hft in Hf.
Qed.

(** The calls on the leaves, traced. *)
Lemma keeps_blocks_store (h : header) (height : size_t) (mtp : Z) :
  keeps R (blocks_store h height mtp).
Proof.
  intros db u db' H. apply blocks_store_frame in H.
  destruct H as (_ & Hb & Ht & _). unfold stores. rewrite Hb, Ht.
  apply R_store.
Qed.

Lemma keeps_blocks_index_candidate (h : hash_digest) (height : size_t) :
  keeps R (blocks_index h height true).
Proof.
  apply keeps_on_blocks; [intros b0; apply index_failed|]. intros b t b'.
  apply R_index_candidate.
Qed.

Lemma keeps_blocks_index_confirmed (h : hash_digest) (height : size_t) :
  keeps R (blocks_index h height false).
Proof.
  apply keeps_on_blocks; [intros b0; apply index_failed|]. intros b t b'.
  apply R_index_confirmed.
Qed.

Lemma keeps_blocks_unindex_candidate (h : hash_digest) (height : size_t) :
  keeps R (blocks_unindex h height true).
Proof.
  apply keeps_on_blocks; [intros b0; apply unindex_failed|]. intros b t b'.
  apply R_unindex_candidate.
Qed.

Lemma keeps_blocks_unindex_confirmed (h : hash_digest) (height : size_t) :
  keeps R (blocks_unindex h height false).
Proof.
  apply keeps_on_blocks; [intros b0; apply unindex_failed|]. intros b t b'.
  apply R_unindex_confirmed.
Qed.

Lemma keeps_blocks_validate (h : hash_digest) (ec : code) :
  keeps R (blocks_validate h ec).
Proof.
  apply keeps_on_blocks; [intros b0; apply validate_failed|]. intros b t b'.
  apply R_validate.
Qed.

Lemma keeps_blocks_update (b : block) : keeps R (blocks_update b).
Proof.
  apply keeps_on_blocks; [intros b0; apply update_failed|]. intros bs t b'.
  apply R_update.
Qed.

Lemma keeps_transactions_confirm (l : link_type) (height : size_t)
    (mtp position : Z) :
  keeps R (transactions_confirm l height mtp position).
Proof.
  apply keeps_on_transactions. intros t. apply apply_at_content.
  intros r; split; reflexivity.
Qed.

Lemma keeps_transactions_unconfirm (l : link_type) :
  keeps R (transactions_unconfirm l).
Proof.
  apply keeps_on_transactions. intros t. apply apply_at_content.
  intros r; split; reflexivity.
Qed.

Lemma keeps_transactions_candidate (l : link_type) :
  keeps R (transactions_candidate l).
Proof.
  apply keeps_on_transactions. intros t. apply apply_at_content.
  intros r; split; reflexivity.
Qed.

Lemma keeps_transactions_uncandidate (l : link_type) :
  keeps R (transactions_uncandidate l).
Proof.
  apply keeps_on_transactions. intros t. apply apply_at_content.
  intros r; split; reflexivity.
Qed.

Lemma keeps_transactions_confirm_all (txs : list transaction)
    (height : size_t) (mtp : Z) :
  keeps R (transactions_confirm_all txs height mtp).
Proof.
  apply keeps_on_transactions. intros t. apply confirm_from_content.
Qed.

Lemma store_list_related (txs : list transaction) :
  forall b t, R (b, t) (b, snd (fst (transaction_database.store t txs))).
Proof.
  induction txs as [|tx txs IH]; intros b t;
    cbn [transaction_database.store].
  - apply R_refl.
  - pose proof (R_tx_store b t tx) as H1.
    destruct (transaction_database.store_one t tx) as [t1 tx1].
    cbn [fst] in H1. specialize (IH b t1).
    destruct (transaction_database.store t1 txs) as [[ok t2] rest].
    cbn [fst snd] in *. eapply R_trans; eassumption.
Qed.

Lemma keeps_transactions_store (txs : list transaction) :
  keeps R (transactions_store txs).
Proof.
  intros db [ok txs'] db' H. apply transactions_store_frame in H.
  destruct H as (_ & Hb & Hs & _). unfold stores. rewrite Hb.
  pose proof (store_list_related txs (blocks_ db) (transactions_ db)) as Hr.
  now rewrite Hs in Hr.
Qed.

Lemma keeps_transactions_store_one (tx : transaction) (forks : Z) :
  keeps R (transactions_store_one tx forks).
Proof.
  intros db a db' H.
  unfold transactions_store_one, emit, modify, gets, bind, ret in H.
  cbn in H. pose proof (R_tx_store (blocks_ db) (transactions_ db) tx) as Hr.
  destruct (transaction_database.store_one (transactions_ db) tx) as [t1 tx1].
  inversion H; subst. exact Hr.
Qed.

(** One step through a computation built from the calls above. *)
Ltac keeps_step :=
  first
    [ apply keeps_ret | apply keeps_gets | apply keeps_next_io
    | apply keeps_begin_write | apply keeps_end_write
    | apply keeps_fail_write | apply keeps_finish_write
    | apply keeps_leaf_commit | apply keeps_commit
    | apply keeps_blocks_store
    | apply keeps_blocks_index_candidate | apply keeps_blocks_index_confirmed
    | apply keeps_blocks_unindex_candidate
    | apply keeps_blocks_unindex_confirmed
    | apply keeps_blocks_validate | apply keeps_blocks_update
    | apply keeps_transactions_confirm | apply keeps_transactions_unconfirm
    | apply keeps_transactions_candidate
    | apply keeps_transactions_uncandidate
    | apply keeps_transactions_confirm_all | apply keeps_transactions_store
    | apply keeps_transactions_store_one
    | apply keeps_bind; [|intros]
    | match goal with
      | |- keeps _ (if ?b then _ else _) => destruct b
      | |- keeps _ (match ?x with _ => _ end) => destruct x
      end
    | progress cbv zeta ].

(** The public writers. *)
Lemma keeps_invalidate (h : header) (err : code) : keeps R (invalidate h err).
Proof. unfold invalidate. repeat keeps_step. Qed.

Lemma keeps_push (b : block) (height : size_t) (mtp : Z) :
  keeps R (push b height mtp).
Proof. unfold push. repeat keeps_step. Qed.

Lemma keeps_update (b : block) (height : size_t) :
  keeps R (public_writers.update b height).
Proof. unfold public_writers.update. repeat keeps_step. Qed.

Lemma keeps_store (tx : transaction) (forks : Z) :
  keeps R (public_writers.store tx forks).
Proof. unfold public_writers.store. repeat keeps_step. Qed.

Lemma keeps_candidate_transactions (txs : list transaction) :
  keeps R (public_writers.candidate_transactions txs).
Proof.
  induction txs as [|tx txs IH]; cbn [public_writers.candidate_transactions];
    repeat keeps_step; exact IH.
Qed.

Lemma keeps_candidate (b : block) : keeps R (public_writers.candidate b).
Proof.
  unfold public_writers.candidate.
  repeat first [apply keeps_candidate_transactions | keeps_step].
Qed.

Lemma keeps_index_transaction (tx : transaction)
    (addresses : address_database.t) :
  keeps R (public_writers.index_transaction tx addresses).
Proof. unfold public_writers.index_transaction. repeat keeps_step. Qed.

Lemma keeps_index_block (b : block) (addresses : address_database.t) :
  keeps R (public_writers.index_block b addresses).
Proof. unfold public_writers.index_block. repeat keeps_step. Qed.

(** Header reorganization. *)
Lemma keeps_push_header (h : header) (height : size_t) (mtp : Z) :
  keeps R (header_reorganization.push_header h height mtp).
Proof. unfold header_reorganization.push_header. repeat keeps_step. Qed.

Lemma keeps_uncandidate_links (links : list link_type) :
  keeps R (header_reorganization.uncandidate_links links).
Proof.
  induction links as [|l links IH];
    cbn [header_reorganization.uncandidate_links];
    repeat keeps_step; exact IH.
Qed.

Lemma keeps_pop_header (out : header) (height : size_t) :
  keeps R (header_reorganization.pop_header out height).
Proof.
  unfold header_reorganization.pop_header.
  repeat first [apply keeps_uncandidate_links | keeps_step].
Qed.

(** Block reorganization. *)
Lemma keeps_confirm_transactions (txs : list transaction) :
  forall height mtp position,
    keeps R (block_reorganization.confirm_transactions txs height mtp position).
Proof.
  induction txs as [|tx txs IH]; intros height mtp position;
    cbn [block_reorganization.confirm_transactions];
    repeat first [apply IH | keeps_step].
Qed.

Lemma keeps_push_block (b : block) (height : size_t) :
  keeps R (block_reorganization.push_block b height).
Proof.
  unfold block_reorganization.push_block.
  repeat first [apply keeps_confirm_transactions | keeps_step].
Qed.

Lemma keeps_unconfirm_transactions (txs : list transaction) :
  keeps R (block_reorganization.unconfirm_transactions txs).
Proof.
  induction txs as [|tx txs IH];
    cbn [block_reorganization.unconfirm_transactions];
    repeat first [apply IH | keeps_step].
Qed.

Lemma keeps_pop_block (out : block) (height : size_t) :
  keeps R (block_reorganization.pop_block out height).
Proof.
  unfold block_reorganization.pop_block.
  repeat first [apply keeps_unconfirm_transactions | keeps_step].
Qed.

End Keeping.

Section Composing.

Variable R : store_relation.
Hypothesis R_refl : forall s, R s s.
Hypothesis R_trans : forall s1 s2 s3, R s1 s2 -> R s2 s3 -> R s1 s3.

Ltac compose_step :=
  first
    [ apply (keeps_ret R R_refl) | apply (keeps_gets R R_refl)
    | apply (keeps_bind R R_trans); [|intros]
    | match goal with
      | |- keeps _ (if ?b then _ else _) => destruct b
      | |- keeps _ (match ?x with _ => _ end) => destruct x
      end
    | progress cbv zeta ].

Section Headers.

Hypothesis keeps_push_header :
  forall h height mtp,
    keeps R (header_reorganization.push_header h height mtp).
Hypothesis keeps_pop_header :
  forall out height, keeps R (header_reorganization.pop_header out height).

Lemma keeps_push_from_headers (headers : list header) :
  forall first_height index,
    keeps R (header_reorganization.push_from headers first_height index).
Proof.
  induction headers as [|h headers IH]; intros first_height index;
    cbn [header_reorganization.push_from].
  - apply (keeps_ret R R_refl).
  - repeat first [apply keeps_push_header | apply IH | compose_step].
Qed.

Lemma keeps_push_all_headers (headers : list header) (fork_point : checkpoint) :
  keeps R (header_reorganization.push_all headers fork_point).
Proof. apply keeps_push_from_headers. Qed.

Lemma keeps_pop_from_headers (fuel : nat) :
  forall height fork headers,
    keeps R (header_reorganization.pop_from fuel height fork headers).
Proof.
  induction fuel as [|fuel IH]; intros height fork headers;
    cbn [header_reorganization.pop_from].
  - apply (keeps_ret R R_refl).
  - repeat first [apply keeps_pop_header | apply IH | compose_step].
Qed.

Lemma keeps_pop_above_headers (headers : list header)
    (fork_point : checkpoint) :
  keeps R (header_reorganization.pop_above headers fork_point).
Proof.
  unfold header_reorganization.pop_above.
  repeat first [apply keeps_pop_from_headers | compose_step].
Qed.

Lemma keeps_reorganize_headers (fork_point : checkpoint)
    (incoming outgoing : list header) :
  keeps R (header_reorganization.reorganize fork_point incoming outgoing).
Proof.
  unfold header_reorganization.reorganize, and_then.
  repeat first [apply keeps_pop_above_headers | apply keeps_push_all_headers
               | compose_step].
Qed.

End Headers.

Section Blocks.

Hypothesis keeps_push_block :
  forall b height, keeps R (block_reorganization.push_block b height).
Hypothesis keeps_pop_block :
  forall out height, keeps R (block_reorganization.pop_block out height).

Lemma keeps_push_from_blocks (blocks : list block) :
  forall first_height index,
    keeps R (block_reorganization.push_from blocks first_height index).
Proof.
  induction blocks as [|b blocks IH]; intros first_height index;
    cbn [block_reorganization.push_from].
  - apply (keeps_ret R R_refl).
  - repeat first [apply keeps_push_block | apply IH | compose_step].
Qed.

Lemma keeps_push_all_blocks (blocks : list block) (fork_point : checkpoint) :
  keeps R (block_reorganization.push_all blocks fork_point).
Proof. apply keeps_push_from_blocks. Qed.

Lemma keeps_pop_from_blocks (fuel : nat) :
  forall height fork blocks,
    keeps R (block_reorganization.pop_from fuel height fork blocks).
Proof.
  induction fuel as [|fuel IH]; intros height fork blocks;
    cbn [block_reorganization.pop_from].
  - apply (keeps_ret R R_refl).
  - repeat first [apply keeps_pop_block | apply IH | compose_step].
Qed.

Lemma keeps_pop_above_blocks (blocks : list block) (fork_point : checkpoint) :
  keeps R (block_reorganization.pop_above blocks fork_point).
Proof.
  unfold block_reorganization.pop_above.
  repeat first [apply keeps_pop_from_blocks | compose_step].
Qed.

Lemma keeps_reorganize_blocks (fork_point : checkpoint)
    (incoming outgoing : list block) :
  keeps R (block_reorganization.reorganize fork_point incoming outgoing).
Proof.
  unfold block_reorganization.reorganize,
    block_reorganization.and_then_push.
  repeat first [apply keeps_pop_above_blocks | apply keeps_push_all_blocks
               | compose_step].
Qed.

End Blocks.

End Composing.

(** ** What the reorganizations leave alone *)

Lemma confirmed_untouched_refl s : confirmed_untouched s s.
Proof. split; reflexivity. Qed.

Lemma confirmed_untouched_trans s1 s2 s3 :
  confirmed_untouched s1 s2 -> confirmed_untouched s2 s3 ->
  confirmed_untouched s1 s3.
Proof. intros [A B] [C D]. split; congruence. Qed.

Lemma candidate_untouched_refl s : candidate_untouched s s.
Proof. repeat split; reflexivity. Qed.

Lemma candidate_untouched_trans s1 s2 s3 :
  candidate_untouched s1 s2 -> candidate_untouched s2 s3 ->
  candidate_untouched s1 s3.
Proof. intros (A & B & C) (D & E & F). repeat split; congruence. Qed.

Lemma confirmed_untouched_store b t h height mtp :
  confirmed_untouched (b, t) (block_database.store b h height mtp, t).
Proof. split; reflexivity. Qed.

Lemma confirmed_untouched_index b t h height b' :
  block_database.index b h height true = (true, b') ->
  confirmed_untouched (b, t) (b', t).
Proof.
  intros Hi. apply index_true in Hi. destruct Hi as (_ & -> & _).
  split; reflexivity.
Qed.

Lemma confirmed_untouched_unindex b t h height b' :
  block_database.unindex b h height true = (true, b') ->
  confirmed_untouched (b, t) (b', t).
Proof.
  intros Hi. apply unindex_true in Hi. destruct Hi as (_ & _ & ->).
  split; reflexivity.
Qed.

Lemma confirmed_untouched_marks b t t' :
  tx_content t' = tx_content t -> confirmed_untouched (b, t) (b, t').
Proof. intros Hc. split; [reflexivity|exact Hc]. Qed.

Lemma candidate_untouched_index b t h height b' :
  block_database.index b h height false = (true, b') ->
  candidate_untouched (b, t) (b', t).
Proof.
  intros Hi. apply index_true in Hi. destruct Hi as (_ & -> & _).
  repeat split; reflexivity.
Qed.

Lemma candidate_untouched_unindex b t h height b' :
  block_database.unindex b h height false = (true, b') ->
  candidate_untouched (b, t) (b', t).
Proof.
  intros Hi. apply unindex_true in Hi. destruct Hi as (_ & _ & ->).
  repeat split; reflexivity.
Qed.

Lemma candidate_untouched_marks b t t' :
  tx_content t' = tx_content t -> candidate_untouched (b, t) (b, t').
Proof. intros Hc. repeat split. exact Hc. Qed.

(** X1. Whatever it returns, the reorganization of headers leaves the
    confirmed index as it was, and the transaction store with the same
    transactions. *)
Theorem header_reorganize_keeps_confirmed (fork_point : checkpoint)
    (incoming outgoing : list header) (db db' : data_base)
    (r : code * list header) :
  header_reorganization.reorganize fork_point incoming outgoing db
  = (r, db') ->
  block_database.confirmed_index (blocks_ db')
  = block_database.confirmed_index (blocks_ db) /\
  tx_content (transactions_ db') = tx_content (transactions_ db).
Proof.
  revert db r db'.
  change (keeps confirmed_untouched
            (header_reorganization.reorganize fork_point incoming outgoing)).
  apply keeps_reorganize_headers;
    [ exact confirmed_untouched_refl | exact confirmed_untouched_trans
    | intros; apply keeps_push_header | intros; apply keeps_pop_header ].
  all: first
    [ exact confirmed_untouched_refl | exact confirmed_untouched_trans
    | exact confirmed_untouched_store
    | exact confirmed_untouched_index | exact confirmed_untouched_unindex
    | exact confirmed_untouched_marks ].
Qed.

(** The headers above [101] replaced by a header [104]. *)
Lemma header_reorganize_keeps_confirmed_witness :
  fst (fst (header_reorganization.reorganize scenarios.fork_101
              [examples.a_header 104 101] [] scenarios.chain))
  = success /\
  block_database.confirmed_index
    (blocks_ (snd (header_reorganization.reorganize scenarios.fork_101
                     [examples.a_header 104 101] [] scenarios.chain)))
  = block_database.confirmed_index (blocks_ scenarios.chain) /\
  tx_content
    (transactions_ (snd (header_reorganization.reorganize scenarios.fork_101
                           [examples.a_header 104 101] [] scenarios.chain)))
  = tx_content (transactions_ scenarios.chain).
Proof.
  split; [vm_compute; reflexivity|].
  exact (header_reorganize_keeps_confirmed scenarios.fork_101
           [examples.a_header 104 101] [] scenarios.chain _ _
           (surjective_pairing
              (header_reorganization.reorganize scenarios.fork_101
                 [examples.a_header 104 101] [] scenarios.chain))).
Defined.

(** X2. Whatever it returns, the reorganization of blocks leaves the
    candidate index and the table of the headers as they were, and the
    transaction store with the same transactions. *)
Theorem block_reorganize_keeps_candidate (fork_point : checkpoint)
    (incoming outgoing : list block) (db db' : data_base)
    (r : option (code * list block)) :
  block_reorganization.reorganize fork_point incoming outgoing db
  = (r, db') ->
  block_database.candidate_index (blocks_ db')
  = block_database.candidate_index (blocks_ db) /\
  block_database.table (blocks_ db') = block_database.table (blocks_ db) /\
  tx_content (transactions_ db') = tx_content (transactions_ db).
Proof.
  revert db r db'.
  change (keeps candidate_untouched
            (block_reorganization.reorganize fork_point incoming outgoing)).
  apply keeps_reorganize_blocks;
    [ exact candidate_untouched_refl | exact candidate_untouched_trans
    | intros; apply keeps_push_block | intros; apply keeps_pop_block ].
  all: first
    [ exact candidate_untouched_refl | exact candidate_untouched_trans
    | exact candidate_untouched_index | exact candidate_untouched_unindex
    | exact candidate_untouched_marks ].
Qed.

(** The block [101] popped. *)
Lemma block_reorganize_keeps_candidate_witness :
  option_map fst
    (fst (block_reorganization.reorganize scenarios.fork_100 [] []
            scenarios.chain))
  = Some success /\
  block_database.candidate_index
    (blocks_ (snd (block_reorganization.reorganize scenarios.fork_100 [] []
                     scenarios.chain)))
  = block_database.candidate_index (blocks_ scenarios.chain) /\
  block_database.table
    (blocks_ (snd (block_reorganization.reorganize scenarios.fork_100 [] []
                     scenarios.chain)))
  = block_database.table (blocks_ scenarios.chain) /\
  tx_content
    (transactions_ (snd (block_reorganization.reorganize scenarios.fork_100
                           [] [] scenarios.chain)))
  = tx_content (transactions_ scenarios.chain).
Proof.
  split; [vm_compute; reflexivity|].
  exact (block_reorganize_keeps_candidate scenarios.fork_100 [] []
           scenarios.chain _ _
           (surjective_pairing
              (block_reorganization.reorganize scenarios.fork_100 [] []
                 scenarios.chain))).
Defined.

(** ** What no writer loses *)

Lemma grown_refl s : grown s s.
Proof.
  split; [eauto|]. exists []. now rewrite app_nil_r.
Qed.

Lemma grown_trans s1 s2 s3 : grown s1 s2 -> grown s2 s3 -> grown s1 s3.
Proof.
  intros [A [m1 B]] [C [m2 D]]. split.
  - intros h r Hr. destruct (A h r Hr) as [r1 Hr1]. eauto.
  - exists (m1 ++ m2). rewrite D, B, app_assoc. reflexivity.
Qed.

Lemma grown_table (b b' : block_database.t) (t : transaction_database.t) :
  (forall h r,
     block_database.find_record (block_database.table b) h = Some r ->
     exists r',
       block_database.find_record (block_database.table b') h = Some r') ->
  grown (b, t) (b', t).
Proof.
  intros H. split; [exact H|]. exists []. now rewrite app_nil_r.
Qed.

Lemma grown_store_one (b : block_database.t) (t : transaction_database.t)
    (tx : transaction) :
  grown (b, t) (b, fst (transaction_database.store_one t tx)).
Proof.
  split; [eauto|]. unfold transaction_database.store_one.
  destruct (transaction_database.find_link t (tx_hash tx) 0); cbn [fst snd].
  - exists []. now rewrite app_nil_r.
  - eexists. unfold tx_content. rewrite map_app. reflexivity.
Qed.

(** A link that resolves in a store resolves to the same transaction in a
    store that has grown from it. *)
Lemma grown_get (t t' : transaction_database.t) (more : list (hash_digest * Z))
    (l : link_type) (r : transaction_database.tx_record) :
  tx_content t' = tx_content t ++ more ->
  transaction_database.get t l = Some r ->
  exists r',
    transaction_database.get t' l = Some r' /\
    transaction_database.rec_tx_hash r' = transaction_database.rec_tx_hash r /\
    transaction_database.rec_tx_fields r'
    = transaction_database.rec_tx_fields r.
Proof.
  intros Hc Hg. unfold transaction_database.get in *.
  assert (H1 : at_position (tx_content t) l
               = Some (transaction_database.rec_tx_hash r,
                       transaction_database.rec_tx_fields r)).
  { unfold tx_content. rewrite at_position_map, Hg. reflexivity. }
  apply (at_position_app_l _ more) in H1. rewrite <- Hc in H1.
  unfold tx_content in H1. rewrite at_position_map in H1.
  destruct (at_position t' l) as [r'|]; [|discriminate H1].
  cbn [option_map] in H1. inversion H1. eauto.
Qed.

Lemma keeps_grown_run (c : call) : keeps grown (run c).
Proof.
  assert (Hstore : forall b t h height mtp,
             grown (b, t) (block_database.store b h height mtp, t)).
  { intros b t h height mtp. apply grown_table. intros h' r Hr.
    unfold block_database.store, block_database.with_table,
      block_database.find_record in *. cbn [block_database.table find].
    destruct (_ =? h'); eauto. }
  assert (Hindex : forall c b t h height b',
             block_database.index b h height c = (true, b') ->
             grown (b, t) (b', t)).
  { intros c' b t h height b' Hi. apply index_true in Hi.
    destruct Hi as (_ & -> & _). apply grown_table. eauto. }
  assert (Hunindex : forall c b t h height b',
             block_database.unindex b h height c = (true, b') ->
             grown (b, t) (b', t)).
  { intros c' b t h height b' Hi. apply unindex_true in Hi.
    destruct Hi as (_ & _ & ->). apply grown_table. eauto. }
  assert (Hvalidate : forall b t h ec b',
             block_database.validate b h ec = (true, b') ->
             grown (b, t) (b', t)).
  { intros b t h ec b' Hv. apply grown_table. intros h' r Hr.
    eapply validate_find; eassumption. }
  assert (Hupdate : forall b t blk b',
             block_database.update b blk = (true, b') ->
             grown (b, t) (b', t)).
  { intros b t blk b' Hu. apply grown_table. intros h' r Hr.
    eapply update_find; eassumption. }
  assert (Hmarks : forall b t t',
             tx_content t' = tx_content t -> grown (b, t) (b, t')).
  { intros b t t' Hc. split; [eauto|]. exists [].
    now rewrite app_nil_r. }
  destruct c; cbn [run];
    (apply keeps_bind;
     [apply grown_trans| |intros; apply keeps_ret; apply grown_refl]).
  all: first
    [ apply keeps_store | apply keeps_update | apply keeps_invalidate
    | apply keeps_candidate | apply keeps_push
    | apply keeps_index_transaction | apply keeps_index_block
    | apply keeps_reorganize_headers;
      [ exact grown_refl | exact grown_trans
      | intros; apply keeps_push_header | intros; apply keeps_pop_header ]
    | apply keeps_reorganize_blocks;
      [ exact grown_refl | exact grown_trans
      | intros; apply keeps_push_block | intros; apply keeps_pop_block ] ].
  all: first
    [ exact grown_refl | exact grown_trans | exact grown_store_one
    | exact Hstore | exact (Hindex true) | exact (Hindex false)
    | exact (Hunindex true) | exact (Hunindex false)
    | exact Hvalidate | exact Hupdate | exact Hmarks ].
Qed.

Lemma keeps_grown_run_all (calls : list call) : keeps grown (run_all calls).
Proof.
  induction calls as [|c calls IH]; cbn [run_all].
  - apply keeps_ret. apply grown_refl.
  - apply keeps_bind; [apply grown_trans|apply keeps_grown_run|].
    intros [ec|]; [|apply keeps_ret; apply grown_refl].
    apply keeps_bind; [apply grown_trans|exact IH|].
    intros ecs. apply keeps_ret. apply grown_refl.
Qed.

(** X3. Through any sequence of calls of the public writers, whatever each
    returns: a header that was recorded is still recorded, and a link that
    resolved in the transaction store still resolves, to the same
    transaction. No writer removes a record. *)
Theorem writers_lose_nothing (calls : list call) (db db' : data_base)
    (codes : option (list code)) :
  run_all calls db = (codes, db') ->
  (forall h r,
     block_database.get_hash (blocks_ db) h = Some r ->
     exists r', block_database.get_hash (blocks_ db') h = Some r') /\
  (forall l r,
     transaction_database.get (transactions_ db) l = Some r ->
     exists r',
       transaction_database.get (transactions_ db') l = Some r' /\
       transaction_database.rec_tx_hash r'
       = transaction_database.rec_tx_hash r /\
       transaction_database.rec_tx_fields r'
       = transaction_database.rec_tx_fields r).
Proof.
  intros H. apply keeps_grown_run_all in H. destruct H as [Hb [more Ht]].
  split.
  - exact Hb.
  - intros l r Hg. eapply grown_get; eassumption.
Qed.

(** A push that fails, a reorganization of headers and one of blocks: the
    header [103], which the reorganization pops, is still recorded, and the
    link 2 still resolves. *)
Lemma writers_lose_nothing_witness :
  fst (run_all [call_push scenarios.stray 7 0;
                call_reorganize_headers scenarios.fork_101 [] [];
                call_reorganize_blocks scenarios.fork_100 [] []]
         scenarios.chain)
  = Some [operation_failed; success; success] /\
  (exists r',
     block_database.get_hash
       (blocks_ (snd (run_all [call_push scenarios.stray 7 0;
                               call_reorganize_headers scenarios.fork_101 [] [];
                               call_reorganize_blocks scenarios.fork_100 [] []]
                        scenarios.chain))) 103
     = Some r') /\
  (exists r',
     transaction_database.get
       (transactions_ (snd (run_all [call_push scenarios.stray 7 0;
                                     call_reorganize_headers
                                       scenarios.fork_101 [] [];
                                     call_reorganize_blocks
                                       scenarios.fork_100 [] []]
                              scenarios.chain))) 2
     = Some r' /\
     transaction_database.rec_tx_hash r' = 1002 /\
     transaction_database.rec_tx_fields r' = 1003).
Proof.
  split; [vm_compute; reflexivity|].
  destruct (writers_lose_nothing
              [call_push scenarios.stray 7 0;
               call_reorganize_headers scenarios.fork_101 [] [];
               call_reorganize_blocks scenarios.fork_100 [] []]
              scenarios.chain _ _
              (surjective_pairing
                 (run_all [call_push scenarios.stray 7 0;
                           call_reorganize_headers scenarios.fork_101 [] [];
                           call_reorganize_blocks scenarios.fork_100 [] []]
                    scenarios.chain))) as [Hb Ht].
  split.
  - refine (Hb 103 _ _). vm_compute; reflexivity.
  - refine (Ht 2 {| transaction_database.rec_tx_hash := 1002;
                    transaction_database.rec_tx_fields := 1003;
                    transaction_database.rec_candidate := false;
                    transaction_database.rec_confirmation := Some (1, 11, 1) |}
               _).
    vm_compute; reflexivity.
Defined.

(** ** Proofs *)

Lemma quiet_ret {A : Type} (a : A) : quiet (ret a).
Proof.
  intros db a' db' H. injection H as _ <-. exists [].
  now rewrite app_nil_r.
Qed.

Lemma quiet_gets {A : Type} (f : data_base -> A) : quiet (gets f).
Proof.
  intros db a' db' H. injection H as _ <-. exists [].
  now rewrite app_nil_r.
Qed.

Lemma quiet_bind {A B : Type} (m : M A) (k : A -> M B) :
  quiet m -> (forall a, quiet (k a)) -> quiet (bind m k).
Proof.
  intros Hm Hk db b db' H. unfold bind in H.
  destruct (m db) as [a db1] eqn:E.
  destruct (Hm _ _ _ E) as (m1 & T1 & F1).
  destruct (Hk a _ _ _ H) as (m2 & T2 & F2).
  exists (m1 ++ m2). split.
  - rewrite T2, T1. now rewrite app_assoc.
  - rewrite forallb_app, F1, F2. reflexivity.
Qed.

Lemma quiet_frame {A : Type} (m : M A) (evs : list event) :
  (forall db a db', m db = (a, db') -> frame db db' evs) ->
  forallb is_leaf_call evs = true -> quiet m.
Proof.
  intros Hf He db a db' H. exists evs. split; [|exact He].
  apply (Hf _ _ _ H).
Qed.

Lemma quiet_on_blocks (e : event)
    (f : block_database.t -> bool * block_database.t) :
  is_leaf_call e = true -> quiet (on_blocks e f).
Proof.
  intros He. apply (quiet_frame _ [e]).
  - intros db a db' H. apply (on_blocks_frame _ _ _ _ _ H).
  - cbn. now rewrite He.
Qed.

Lemma quiet_on_transactions (e : event)
    (f : transaction_database.t -> bool * transaction_database.t) :
  is_leaf_call e = true -> quiet (on_transactions e f).
Proof.
  intros He. apply (quiet_frame _ [e]).
  - intros db a db' H. apply (on_transactions_frame _ _ _ _ _ H).
  - cbn. now rewrite He.
Qed.

Lemma quiet_blocks_store (h : header) (height : size_t) (mtp : Z) :
  quiet (blocks_store h height mtp).
Proof.
  apply (quiet_frame _ [ev_blocks_store (hash h) height mtp]).
  - intros db [] db' H. apply (blocks_store_frame _ _ _ _ _ _ H).
  - reflexivity.
Qed.

Lemma quiet_transactions_store (txs : list transaction) :
  quiet (transactions_store txs).
Proof.
  apply (quiet_frame _ [ev_transactions_store (map tx_hash txs)]).
  - intros db [ok txs'] db' H. apply (transactions_store_frame _ _ _ _ _ H).
  - reflexivity.
Qed.

Lemma quiet_transactions_store_one (tx : transaction) (forks : Z) :
  quiet (transactions_store_one tx forks).
Proof.
  intros db a db' H. unfold transactions_store_one, bind, emit, modify, gets in H.
  cbn in H. destruct (transaction_database.store_one _ tx) as [t' tx'].
  injection H as _ <-. exists [ev_transactions_store [tx_hash tx]].
  split; reflexivity.
Qed.

Lemma quiet_leaf_commit (l : leaf) : quiet (leaf_commit l).
Proof.
  apply (quiet_frame _ [ev_commit l]).
  - intros db [] db' H. apply (leaf_commit_frame _ _ _ _ H).
  - reflexivity.
Qed.

Lemma quiet_commit : quiet commit.
Proof.
  intros db [] db' H. exists (commit_events (settings_ db)). split.
  - apply (commit_frame _ _ _ H).
  - unfold commit_events. destruct (index_addresses (settings_ db)); reflexivity.
Qed.

Ltac quiet_step :=
  first
    [ apply quiet_ret | apply quiet_gets
    | apply quiet_blocks_store | apply quiet_transactions_store
    | apply quiet_transactions_store_one
    | apply quiet_leaf_commit | apply quiet_commit
    | apply quiet_on_blocks; reflexivity
    | apply quiet_on_transactions; reflexivity
    | apply quiet_bind; [|intros]
    | match goal with
      | |- quiet (if ?b then _ else _) => destruct b
      | |- quiet (match ?x with _ => _ end) => destruct x
      end
    | progress cbv zeta ].

Lemma quiet_uncandidate_links (links : list link_type) :
  quiet (header_reorganization.uncandidate_links links).
Proof.
  induction links as [|l links IH];
    cbn [header_reorganization.uncandidate_links].
  - apply quiet_ret.
  - unfold transactions_uncandidate. repeat quiet_step. exact IH.
Qed.

Lemma quiet_candidate_transactions (txs : list transaction) :
  quiet (public_writers.candidate_transactions txs).
Proof.
  induction txs as [|tx txs IH];
    cbn [public_writers.candidate_transactions].
  - apply quiet_ret.
  - unfold transactions_candidate. repeat quiet_step. exact IH.
Qed.

Lemma quiet_confirm_transactions (txs : list transaction) :
  forall height mtp position,
    quiet (block_reorganization.confirm_transactions txs height mtp position).
Proof.
  induction txs as [|tx txs IH]; intros height mtp position;
    cbn [block_reorganization.confirm_transactions].
  - apply quiet_ret.
  - unfold transactions_confirm. repeat quiet_step. apply IH.
Qed.

Lemma quiet_unconfirm_transactions (txs : list transaction) :
  quiet (block_reorganization.unconfirm_transactions txs).
Proof.
  induction txs as [|tx txs IH];
    cbn [block_reorganization.unconfirm_transactions].
  - apply quiet_ret.
  - unfold transactions_unconfirm. repeat quiet_step. exact IH.
Qed.

Lemma closing_fail_write {A : Type} (c : A -> option code) (a : A) :
  c a <> Some success -> closing c (fail_write a).
Proof.
  intros Hc db a' db' H. unfold fail_write, bind, ret in H.
  destruct (store.end_write db) as [ok db1] eqn:E. injection H as <- <-.
  exists [], db, ok. rewrite app_nil_r.
  repeat split; [exact E|]. intros Hs. now destruct Hc.
Qed.

Lemma closing_finish_ret {A : Type} (c : A -> option code) (f : code -> A) :
  (forall ec, c (f ec) = Some ec) ->
  closing c (bind finish_write (fun ec => ret (f ec))).
Proof.
  intros Hc db a' db' H. unfold finish_write, bind, ret in H.
  destruct (store.end_write db) as [ok db1] eqn:E. injection H as <- <-.
  exists [], db, ok. rewrite app_nil_r.
  repeat split; [exact E|]. rewrite Hc. now destruct ok.
Qed.

Lemma closing_finish_write : closing Some finish_write.
Proof.
  intros db a' db' H. unfold finish_write, bind, ret in H.
  destruct (store.end_write db) as [ok db1] eqn:E. injection H as <- <-.
  exists [], db, ok. rewrite app_nil_r.
  repeat split; [exact E|]. now destruct ok.
Qed.

Lemma closing_bind {A B : Type} (c : B -> option code) (m : M A)
    (k : A -> M B) :
  quiet m -> (forall a, closing c (k a)) -> closing c (bind m k).
Proof.
  intros Hm Hk db b db' H. unfold bind in H.
  destruct (m db) as [a db1] eqn:E.
  destruct (Hm _ _ _ E) as (m1 & T1 & F1).
  destruct (Hk a _ _ _ H) as (m2 & db2 & ok & T2 & F2 & E2 & S2).
  exists (m1 ++ m2), db2, ok. repeat split.
  - rewrite T2, T1. now rewrite <- !app_assoc.
  - rewrite forallb_app, F1, F2. reflexivity.
  - exact E2.
  - exact S2.
Qed.

Ltac quiet_solve :=
  first
    [ apply quiet_uncandidate_links | apply quiet_candidate_transactions
    | apply quiet_confirm_transactions | apply quiet_unconfirm_transactions
    | unfold blocks_index, blocks_unindex, blocks_validate, blocks_update,
        transactions_confirm_all, transactions_confirm,
        transactions_unconfirm, transactions_uncandidate,
        transactions_candidate;
      repeat quiet_step ].

Ltac closing_step :=
  first
    [ apply closing_fail_write; cbn; discriminate
    | apply closing_finish_write
    | apply closing_finish_ret; intros; reflexivity
    | apply closing_bind; [quiet_solve|intros]
    | match goal with
      | |- closing _ (if ?b then _ else _) => destruct b
      | |- closing _ (match ?x with _ => _ end) => destruct x
      end
    | progress cbv zeta ].

Lemma bracketed_ret {A : Type} (c : A -> option code) (a : A) :
  bracketed c (ret a).
Proof. intros db a' db' H. injection H as _ <-. now left. Qed.

Lemma bracketed_gets {A B : Type} (c : B -> option code)
    (f : data_base -> A) (k : A -> M B) :
  (forall a, bracketed c (k a)) -> bracketed c (bind (gets f) k).
Proof. intros Hk db b db' H. exact (Hk _ _ _ _ H). Qed.

Lemma bracketed_write {A : Type} (c : A -> option code) (a : A)
    (body : M A) :
  c a = Some store_lock_failure -> closing c body ->
  bracketed c (ok <- store.begin_write ;; if negb ok then ret a else body).
Proof.
  intros Hc Hb db a' db' H. unfold bind in H.
  destruct (store.begin_write db) as [ok db0] eqn:E.
  pose proof (begin_write_frame _ _ _ E) as ((_ & _ & T) & _).
  destruct ok; cbn [negb] in H.
  - right. right.
    destruct (Hb _ _ _ H) as (mid & db1 & ok & T1 & F1 & E1 & S1).
    exists db0, mid, db1, ok. repeat split; try assumption.
    apply end_write_frame in E1. destruct E1 as ((_ & _ & T2) & _).
    rewrite T2, T1, T, <- !app_assoc. reflexivity.
  - right. left. injection H as <- <-. split; [reflexivity|exact Hc].
Qed.

Ltac bracketed_step :=
  first
    [ apply bracketed_ret
    | apply bracketed_write; [reflexivity|repeat closing_step]
    | apply bracketed_gets; intros
    | match goal with
      | |- bracketed _ (if ?b then _ else _) => destruct b
      | |- bracketed _ (match ?x with _ => _ end) => destruct x
      end
    | progress cbv zeta ].

Lemma bracketed_map {A : Type} (f : A -> code) (m : M A) :
  bracketed (fun r => Some (f r)) m ->
  bracketed (fun ec => ec) (r <- m ;; ret (Some (f r))).
Proof.
  intros Hm db ec db' H. unfold bind in H.
  destruct (m db) as [r db1] eqn:E. injection H as <- <-.
  exact (Hm _ _ _ E).
Qed.

Lemma bracketed_run_write (w : write) :
  bracketed (fun ec => ec) (run_write w).
Proof.
  destruct w; cbn [run_write];
    try apply (bracketed_map fst);
    try apply (bracketed_map (fun ec : code => ec)).
  - unfold public_writers.store. repeat bracketed_step.
  - unfold public_writers.update. repeat bracketed_step.
  - unfold invalidate. repeat bracketed_step.
  - unfold public_writers.candidate. repeat bracketed_step.
  - unfold push. repeat bracketed_step.
  - unfold public_writers.index_transaction. repeat bracketed_step.
  - unfold public_writers.index_block. repeat bracketed_step.
  - unfold header_reorganization.push_header. repeat bracketed_step.
  - unfold header_reorganization.pop_header. repeat bracketed_step.
  - unfold block_reorganization.push_block. repeat bracketed_step.
  - unfold block_reorganization.pop_block. repeat bracketed_step.
Qed.

(** X4. Every single write of the object (the public writers and the steps
    of the two reorganizations) is one write at most. It does nothing at
    all; or [begin_write] is called and fails, which is all the write does:
    no store changes and the code is [store_lock_failure]; or [begin_write]
    is called and succeeds, calls on the leaves follow, and [end_write] is
    called last, on the paths that fail after [begin_write] as on the path
    that succeeds, the code being [success] only when [end_write] has
    succeeded. *)
Theorem writes_are_bracketed (w : write) (db db' : data_base)
    (ec : option code) :
  run_write w db = (ec, db') ->
  db' = db \/
  (store.begin_write db = (false, db') /\
   trace_ db' = trace_ db ++ [ev_begin_write] /\
   blocks_ db' = blocks_ db /\ transactions_ db' = transactions_ db /\
   ec = Some store_lock_failure) \/
  exists db0 mid db1 ok,
    store.begin_write db = (true, db0) /\
    trace_ db1 = trace_ db0 ++ mid /\ forallb is_leaf_call mid = true /\
    store.end_write db1 = (ok, db') /\
    (ec = Some success -> ok = true) /\
    trace_ db' = trace_ db ++ ev_begin_write :: mid ++ [ev_end_write].
Proof.
  intros H. destruct (bracketed_run_write w db ec db' H) as [E|[[E C]|E]].
  - now left.
  - right. left.
    pose proof (begin_write_frame _ _ _ E) as ((_ & _ & T) & B & X).
    repeat split; assumption.
  - right. right. exact E.
Qed.

(** A push at a height that is not the next: [begin_write] succeeds, the
    first [index] fails, and [end_write] is called. *)
Lemma writes_are_bracketed_witness :
  fst (run_write (write_push scenarios.stray 7 0) scenarios.chain)
  = Some operation_failed /\
  trace_ (snd (run_write (write_push scenarios.stray 7 0) scenarios.chain))
  = [ev_begin_write; ev_blocks_store 105 7 0; ev_blocks_index 105 7 true;
     ev_end_write] /\
  (snd (run_write (write_push scenarios.stray 7 0) scenarios.chain)
   = scenarios.chain \/
   (store.begin_write scenarios.chain
    = (false,
       snd (run_write (write_push scenarios.stray 7 0) scenarios.chain)) /\
    trace_ (snd (run_write (write_push scenarios.stray 7 0) scenarios.chain))
    = trace_ scenarios.chain ++ [ev_begin_write] /\
    blocks_ (snd (run_write (write_push scenarios.stray 7 0) scenarios.chain))
    = blocks_ scenarios.chain /\
    transactions_
      (snd (run_write (write_push scenarios.stray 7 0) scenarios.chain))
    = transactions_ scenarios.chain /\
    fst (run_write (write_push scenarios.stray 7 0) scenarios.chain)
    = Some store_lock_failure) \/
   exists db0 mid db1 ok,
     store.begin_write scenarios.chain = (true, db0) /\
     trace_ db1 = trace_ db0 ++ mid /\ forallb is_leaf_call mid = true /\
     store.end_write db1
     = (ok, snd (run_write (write_push scenarios.stray 7 0) scenarios.chain)) /\
     (fst (run_write (write_push scenarios.stray 7 0) scenarios.chain)
      = Some success -> ok = true) /\
     trace_ (snd (run_write (write_push scenarios.stray 7 0) scenarios.chain))
     = trace_ scenarios.chain ++ ev_begin_write :: mid ++ [ev_end_write]).
Proof.
  split; [vm_compute; reflexivity|]. split; [vm_compute; reflexivity|].
  exact (writes_are_bracketed (write_push scenarios.stray 7 0)
           scenarios.chain _ _
           (surjective_pairing
              (run_write (write_push scenarios.stray 7 0) scenarios.chain))).
Defined.

(** ** The indices, call by call *)

Lemma blocks_store_indices (h : header) (height : size_t) (mtp : Z)
    (db db' : data_base) (u : unit) :
  blocks_store h height mtp db = (u, db') ->
  block_database.candidate_index (blocks_ db')
  = block_database.candidate_index (blocks_ db) /\
  block_database.confirmed_index (blocks_ db')
  = block_database.confirmed_index (blocks_ db).
Proof.
  intros H. apply blocks_store_frame in H. destruct H as (_ & -> & _).
  split; reflexivity.
Qed.

Lemma blocks_index_candidate (h : hash_digest) (height : size_t)
    (db db' : data_base) (ok : bool) :
  blocks_index h height true db = (ok, db') ->
  block_database.confirmed_index (blocks_ db')
  = block_database.confirmed_index (blocks_ db) /\
  block_database.table (blocks_ db') = block_database.table (blocks_ db) /\
  if ok
  then height = size (block_database.candidate_index (blocks_ db)) /\
       block_database.candidate_index (blocks_ db')
       = block_database.candidate_index (blocks_ db) ++ [h]
  else block_database.candidate_index (blocks_ db')
       = block_database.candidate_index (blocks_ db).
Proof.
  intros H. apply on_blocks_frame in H. destruct H as (_ & H & _).
  destruct ok.
  - apply index_true in H. destruct H as (Hh & -> & _).
    repeat split; assumption.
  - pose proof (index_failed (blocks_ db) h height true) as F.
    rewrite H in F. cbn [fst snd] in F. rewrite (F eq_refl).
    repeat split; reflexivity.
Qed.

Lemma blocks_index_confirmed (h : hash_digest) (height : size_t)
    (db db' : data_base) (ok : bool) :
  blocks_index h height false db = (ok, db') ->
  block_database.candidate_index (blocks_ db')
  = block_database.candidate_index (blocks_ db) /\
  block_database.table (blocks_ db') = block_database.table (blocks_ db) /\
  if ok
  then height = size (block_database.confirmed_index (blocks_ db)) /\
       block_database.confirmed_index (blocks_ db')
       = block_database.confirmed_index (blocks_ db) ++ [h]
  else block_database.confirmed_index (blocks_ db')
       = block_database.confirmed_index (blocks_ db).
Proof.
  intros H. apply on_blocks_frame in H. destruct H as (_ & H & _).
  destruct ok.
  - apply index_true in H. destruct H as (Hh & -> & _).
    repeat split; assumption.
  - pose proof (index_failed (blocks_ db) h height false) as F.
    rewrite H in F. cbn [fst snd] in F. rewrite (F eq_refl).
    repeat split; reflexivity.
Qed.

Lemma blocks_validate_indices (h : hash_digest) (ec : code)
    (db db' : data_base) (ok : bool) :
  blocks_validate h ec db = (ok, db') ->
  block_database.candidate_index (blocks_ db')
  = block_database.candidate_index (blocks_ db) /\
  block_database.confirmed_index (blocks_ db')
  = block_database.confirmed_index (blocks_ db) /\
  forall h' r,
    block_database.get_hash (blocks_ db) h' = Some r ->
    exists r', block_database.get_hash (blocks_ db') h' = Some r'.
Proof.
  intros H. apply on_blocks_frame in H. destruct H as (_ & H & _).
  destruct (validate_indices _ _ _ _ _ H) as [C F].
  repeat split; [exact C|exact F|].
  intros h' r Hr. exact (validate_find _ _ _ _ _ _ _ H Hr).
Qed.

Lemma blocks_update_indices (b : block) (db db' : data_base) (ok : bool) :
  blocks_update b db = (ok, db') ->
  block_database.candidate_index (blocks_ db')
  = block_database.candidate_index (blocks_ db) /\
  block_database.confirmed_index (blocks_ db')
  = block_database.confirmed_index (blocks_ db) /\
  forall h' r,
    block_database.get_hash (blocks_ db) h' = Some r ->
    exists r', block_database.get_hash (blocks_ db') h' = Some r'.
Proof.
  intros H. apply on_blocks_frame in H. destruct H as (_ & H & _).
  destruct (update_indices _ _ _ _ H) as [C F].
  repeat split; [exact C|exact F|].
  intros h' r Hr. exact (update_find _ _ _ _ _ _ H Hr).
Qed.

Lemma get_hash_table (b b' : block_database.t) (h : hash_digest) :
  block_database.table b' = block_database.table b ->
  block_database.get_hash b' h = block_database.get_hash b h.
Proof. intros E. unfold block_database.get_hash. now rewrite E. Qed.

Lemma get_hash_store (b : block_database.t) (h : header) (height : size_t)
    (mtp : Z) :
  block_database.get_hash (block_database.store b h height mtp) (hash h)
  = Some (stored_record h height mtp).
Proof.
  unfold block_database.get_hash, block_database.store,
    block_database.with_table, block_database.find_record.
  cbn [block_database.table find block_database.rec_hash].
  now rewrite Z.eqb_refl.
Qed.

(** [push], on every path. The indices are untouched, or the candidate
    index alone has the hash of the block appended, and the code is a
    failure; or both indices have it appended. Unless [begin_write] has
    failed, the header is recorded. *)
Lemma push_indices (b : block) (height : size_t) (mtp : Z)
    (db db' : data_base) (r : code * block) :
  push b height mtp db = (r, db') ->
  ((is_error (fst r) = true /\
    block_database.confirmed_index (blocks_ db')
    = block_database.confirmed_index (blocks_ db) /\
    (block_database.candidate_index (blocks_ db')
     = block_database.candidate_index (blocks_ db) \/
     height = size (block_database.candidate_index (blocks_ db)) /\
     block_database.candidate_index (blocks_ db')
     = block_database.candidate_index (blocks_ db) ++ [block_hash b])) \/
   ((fst r = success \/ fst r = store_lock_failure) /\
    height = size (block_database.candidate_index (blocks_ db)) /\
    height = size (block_database.confirmed_index (blocks_ db)) /\
    block_database.candidate_index (blocks_ db')
    = block_database.candidate_index (blocks_ db) ++ [block_hash b] /\
    block_database.confirmed_index (blocks_ db')
    = block_database.confirmed_index (blocks_ db) ++ [block_hash b])) /\
  ((fst r = store_lock_failure /\ blocks_ db' = blocks_ db /\
    transactions_ db' = transactions_ db) \/
   exists rec, block_database.get_hash (blocks_ db') (block_hash b) = Some rec).
Proof.
  intros H. unfold push in H.
  run_step H ok0 db0 E0. apply begin_write_frame in E0.
  destruct E0 as (_ & B0 & X0).
  destruct ok0; cbn [negb] in H.
  2:{ injection H as <- <-. cbn [fst]. rewrite B0. split.
      - left. repeat split. now left.
      - left. repeat split. exact X0. }
  run_step H u1 db1 E1. pose proof E1 as G1.
  apply blocks_store_indices in E1. destruct E1 as [C1 F1].
  rewrite B0 in C1, F1.
  apply blocks_store_frame in G1. destruct G1 as (_ & G1 & _).
  assert (R1 : exists rec,
             block_database.get_hash (blocks_ db1) (block_hash b) = Some rec).
  { rewrite G1. eexists. apply get_hash_store. }
  clear G1.
  run_step H ok2 db2 E2. apply blocks_index_candidate in E2.
  destruct E2 as (F2 & T2 & C2). rewrite C1 in C2. rewrite F1 in F2.
  assert (R2 : exists rec,
             block_database.get_hash (blocks_ db2) (block_hash b) = Some rec).
  { now rewrite (get_hash_table _ _ _ T2). }
  destruct ok2; cbn [negb] in H.
  2:{ apply fail_write_result in H. destruct H as (-> & _ & -> & _).
      split; [|right; exact R2].
      left. split; [reflexivity|]. split; [exact F2|left; exact C2]. }
  destruct C2 as [Hh C2].
  run_step H r3 db3 E3. destruct r3 as [ok3 txs].
  apply transactions_store_frame in E3. destruct E3 as (_ & B3 & _).
  cbn [block_hash block_header] in H.
  rewrite <- B3 in R2, F2, C2.
  destruct ok3; cbn [negb] in H.
  2:{ apply fail_write_result in H. destruct H as (-> & _ & -> & _).
      split; [|right; exact R2].
      left. split; [reflexivity|]. split; [exact F2|right; split; assumption]. }
  run_step H ok4 db4 E4. apply blocks_update_indices in E4.
  destruct E4 as (C4 & F4 & T4).
  destruct R2 as [rec2 R2]. destruct (T4 _ _ R2) as [rec4 R4].
  destruct ok4; cbn [negb] in H.
  2:{ apply fail_write_result in H. destruct H as (-> & _ & -> & _).
      split; [|right; now exists rec4].
      left. split; [reflexivity|].
      split; [congruence|right; split; congruence]. }
  run_step H ok5 db5 E5. apply on_transactions_frame in E5.
  destruct E5 as (_ & _ & B5 & _).
  rewrite <- B5 in R4, C4, F4.
  destruct ok5; cbn [negb] in H.
  2:{ apply fail_write_result in H. destruct H as (-> & _ & -> & _).
      split; [|right; now exists rec4].
      left. split; [reflexivity|].
      split; [congruence|right; split; congruence]. }
  run_step H ok6 db6 E6. apply blocks_validate_indices in E6.
  destruct E6 as (C6 & F6 & T6). destruct (T6 _ _ R4) as [rec6 R6].
  destruct ok6; cbn [negb] in H.
  2:{ apply fail_write_result in H. destruct H as (-> & _ & -> & _).
      split; [|right; now exists rec6].
      left. split; [reflexivity|].
      split; [congruence|right; split; congruence]. }
  run_step H ok7 db7 E7. apply blocks_index_confirmed in E7.
  destruct E7 as (C7 & T7 & F7).
  rewrite <- (get_hash_table _ _ _ T7) in R6.
  destruct ok7; cbn [negb] in H.
  2:{ apply fail_write_result in H. destruct H as (-> & _ & -> & _).
      split; [|right; now exists rec6].
      left. split; [reflexivity|].
      split; [congruence|right; split; congruence]. }
  destruct F7 as [Hh7 F7].
  run_step H u8 db8 E8. apply commit_frame in E8. destruct E8 as (_ & B8 & _).
  run_step H ec9 db9 E9. apply finish_write_result in E9.
  destruct E9 as (Hec & _ & B9 & _).
  injection H as <- <-. rewrite B9, B8. split; [|right; now exists rec6].
  right. unfold block_hash in *. cbn [block_header fst] in *.
  split; [exact Hec|]. repeat split; congruence.
Qed.

Lemma confirm_transactions_blocks (txs : list transaction)
    (height : size_t) (mtp position : Z) (db db' : data_base) (ok : bool) :
  block_reorganization.confirm_transactions txs height mtp position db
  = (ok, db') ->
  blocks_ db' = blocks_ db.
Proof.
  apply (keeps_confirm_transactions (fun s s' => fst s' = fst s)).
  - reflexivity.
  - intros s1 s2 s3 A B. congruence.
  - reflexivity.
Qed.

(** The indices after [push_block], on every path: untouched, or the
    confirmed index has the hash of the block appended, which the candidate
    index has at that height. *)
Lemma push_block_indices (b : block) (height : size_t)
    (db db' : data_base) (ec : option code) :
  block_reorganization.push_block b height db = (ec, db') ->
  block_database.candidate_index (blocks_ db')
  = block_database.candidate_index (blocks_ db) /\
  (block_database.confirmed_index (blocks_ db')
   = block_database.confirmed_index (blocks_ db) \/
   height = size (block_database.confirmed_index (blocks_ db)) /\
   at_position (block_database.candidate_index (blocks_ db)) height
   = Some (block_hash b) /\
   block_database.confirmed_index (blocks_ db')
   = block_database.confirmed_index (blocks_ db) ++ [block_hash b]).
Proof.
  intros H. unfold block_reorganization.push_block in H.
  destruct (state (metadata (block_header b))) as [median_time_past|].
  2:{ injection H as _ <-. split; [|left]; reflexivity. }
  cbv zeta in H. unfold bind at 1 in H. unfold gets at 1 in H.
  destruct (is_error (verify.verify_push_block (blocks_ db) b height)) eqn:V.
  { injection H as _ <-. split; [|left]; reflexivity. }
  assert (Hv : at_position (block_database.candidate_index (blocks_ db)) height
               = Some (block_hash b)).
  { unfold verify.verify_push_block in V.
    destruct (height =? _); [|discriminate].
    destruct (at_position _ height) as [h|]; [|discriminate].
    destruct (h =? block_hash b) eqn:Eh; [|discriminate].
    apply Z.eqb_eq in Eh. now rewrite Eh. }
  run_step H ok0 db0 E0. apply begin_write_frame in E0.
  destruct E0 as (_ & B0 & _).
  destruct ok0; cbn [negb] in H.
  2:{ injection H as _ <-. rewrite B0. split; [|left]; reflexivity. }
  run_step H ok1 db1 E1. apply confirm_transactions_blocks in E1.
  destruct ok1; cbn [negb] in H.
  2:{ apply fail_write_result in H. destruct H as (_ & _ & -> & _).
      rewrite E1, B0. split; [|left]; reflexivity. }
  run_step H ok2 db2 E2. apply blocks_index_confirmed in E2.
  destruct E2 as (C2 & _ & F2). rewrite E1, B0 in C2, F2.
  destruct ok2; cbn [negb] in H.
  2:{ apply fail_write_result in H. destruct H as (_ & _ & -> & _).
      split; [exact C2|left; exact F2]. }
  destruct F2 as [Hh F2].
  run_step H u3 db3 E3. apply commit_frame in E3. destruct E3 as (_ & B3 & _).
  run_step H ec4 db4 E4. apply finish_write_result in E4.
  destruct E4 as (_ & _ & B4 & _). injection H as _ <-.
  rewrite B4, B3. split; [exact C2|right]. repeat split; assumption.
Qed.

(** ** The confirmed index as a prefix of the candidate index *)

Lemma size_zero_nil {A : Type} (l : list A) : size l = 0 -> l = [].
Proof.
  destruct l as [|x l]; [reflexivity|]. rewrite size_cons.
  pose proof (size_nonneg l). lia.
Qed.

Lemma at_position_app_size {A : Type} (l l' : list A) (x : A) :
  at_position (l ++ l') (size l) = Some x ->
  exists rest, l' = x :: rest.
Proof.
  induction l as [|y l IH]; cbn [app size].
  - destruct l' as [|z l']; cbn [at_position]; [discriminate|].
    cbn. intros H. injection H as ->. now exists l'.
  - cbn [at_position]. pose proof (size_nonneg l).
    destruct (Z.eqb_spec (size l + 1) 0); [lia|].
    replace (size l + 1 - 1) with (size l) by lia. exact IH.
Qed.

Lemma prefix_kept_refl s : prefix_kept s s.
Proof. intros H. exact H. Qed.

Lemma prefix_kept_trans s1 s2 s3 :
  prefix_kept s1 s2 -> prefix_kept s2 s3 -> prefix_kept s1 s3.
Proof. intros A B H. exact (B (A H)). Qed.

Lemma prefix_kept_indices (b b' : block_database.t)
    (t t' : transaction_database.t) :
  block_database.candidate_index b' = block_database.candidate_index b ->
  block_database.confirmed_index b' = block_database.confirmed_index b ->
  prefix_kept (b, t) (b', t').
Proof.
  intros C F [rest H]. exists rest. cbn [fst]. rewrite C, F. exact H.
Qed.

Lemma prefix_kept_store b t h height mtp :
  prefix_kept (b, t) (block_database.store b h height mtp, t).
Proof. apply prefix_kept_indices; reflexivity. Qed.

Lemma prefix_kept_index b t h height b' :
  block_database.index b h height true = (true, b') ->
  prefix_kept (b, t) (b', t).
Proof.
  intros Hi [rest H]. apply index_true in Hi. destruct Hi as (_ & -> & _).
  cbn [fst] in *. exists (rest ++ [h]).
  cbn [block_database.with_index block_database.candidate_index
       block_database.confirmed_index block_database.index_of].
  rewrite H. now rewrite app_assoc.
Qed.

Lemma prefix_kept_unindex b t h height b' :
  block_database.unindex b h height false = (true, b') ->
  prefix_kept (b, t) (b', t).
Proof.
  intros Hi [rest H]. apply unindex_true in Hi.
  destruct Hi as (_ & Ha & ->). cbn [fst] in *.
  cbn [block_database.with_index block_database.candidate_index
       block_database.confirmed_index block_database.index_of] in *.
  destruct (block_database.confirmed_index b) as [|x l] eqn:E.
  { discriminate Ha. }
  destruct (split_last (x :: l)) as [y Hy]; [discriminate|].
  exists (y :: rest).
  cbn [block_database.with_index block_database.candidate_index
       block_database.confirmed_index].
  rewrite H. rewrite Hy at 1. now rewrite <- app_assoc.
Qed.

Lemma prefix_kept_validate b t h ec b' :
  block_database.validate b h ec = (true, b') -> prefix_kept (b, t) (b', t).
Proof.
  intros H. apply validate_indices in H. destruct H as [C F].
  now apply prefix_kept_indices.
Qed.

Lemma prefix_kept_update b t blk b' :
  block_database.update b blk = (true, b') -> prefix_kept (b, t) (b', t).
Proof.
  intros H. apply update_indices in H. destruct H as [C F].
  now apply prefix_kept_indices.
Qed.

Lemma prefix_kept_marks (b : block_database.t) (t t' : transaction_database.t) :
  tx_content t' = tx_content t -> prefix_kept (b, t) (b, t').
Proof. intros _. apply prefix_kept_indices; reflexivity. Qed.

Lemma prefix_kept_tx_store (b : block_database.t) (t : transaction_database.t)
    (tx : transaction) :
  prefix_kept (b, t) (b, fst (transaction_database.store_one t tx)).
Proof. apply prefix_kept_indices; reflexivity. Qed.

Lemma keeps_prefix_push (b : block) (height : size_t) (mtp : Z) :
  keeps prefix_kept (push b height mtp).
Proof.
  intros db r db' H [rest P]. apply push_indices in H. cbn [stores fst] in *.
  destruct H as [[(_ & F & [C|[Hh C]])|(_ & Hc & Hf & C & F)] _].
  - exists rest. now rewrite C, F.
  - exists (rest ++ [block_hash b]). rewrite C, F, P. now rewrite app_assoc.
  - exists []. rewrite C, F, app_nil_r. f_equal.
    assert (Hr : rest = []).
    { apply size_zero_nil. apply (f_equal size) in P.
      rewrite size_app in P. lia. }
    rewrite P, Hr. now rewrite app_nil_r.
Qed.

Lemma keeps_prefix_push_block (b : block) (height : size_t) :
  keeps prefix_kept (block_reorganization.push_block b height).
Proof.
  intros db r db' H [rest P]. apply push_block_indices in H.
  cbn [stores fst] in *.
  destruct H as [C [F|(Hh & Ha & F)]].
  - exists rest. now rewrite C, F.
  - rewrite P, Hh in Ha. apply at_position_app_size in Ha.
    destruct Ha as [rest' ->]. exists rest'. rewrite C, F, P.
    now rewrite <- app_assoc.
Qed.

Lemma keeps_prefix_run (c : call) :
  is_header_reorganization c = false -> keeps prefix_kept (run c).
Proof.
  intros Hc.
  destruct c; cbn [run]; try discriminate Hc;
    (apply keeps_bind;
     [apply prefix_kept_trans|
     |intros; apply keeps_ret; apply prefix_kept_refl]).
  all: first
    [ apply keeps_prefix_push
    | apply keeps_store | apply keeps_update | apply keeps_invalidate
    | apply keeps_candidate
    | apply keeps_index_transaction | apply keeps_index_block
    | apply keeps_reorganize_blocks;
      [ exact prefix_kept_refl | exact prefix_kept_trans
      | exact keeps_prefix_push_block | intros; apply keeps_pop_block ] ].
  all: first
    [ exact prefix_kept_refl | exact prefix_kept_trans
    | exact prefix_kept_store | exact prefix_kept_index
    | exact prefix_kept_unindex | exact prefix_kept_validate
    | exact prefix_kept_update | exact prefix_kept_marks
    | exact prefix_kept_tx_store ].
Qed.

Lemma keeps_prefix_run_all (calls : list call) :
  forallb (fun c => negb (is_header_reorganization c)) calls = true ->
  keeps prefix_kept (run_all calls).
Proof.
  induction calls as [|c calls IH]; cbn [run_all forallb]; intros Hc.
  - apply keeps_ret. apply prefix_kept_refl.
  - apply andb_prop in Hc. destruct Hc as [Hc Hcs].
    apply negb_true_iff in Hc.
    apply keeps_bind;
      [apply prefix_kept_trans|apply keeps_prefix_run; exact Hc|].
    intros [ec|]; [|apply keeps_ret; apply prefix_kept_refl].
    apply keeps_bind; [apply prefix_kept_trans|exact (IH Hcs)|].
    intros ecs. apply keeps_ret. apply prefix_kept_refl.
Qed.

(** X5. Through any sequence of calls of the public writers that has no
    reorganization of headers, whatever each call returns: if the confirmed
    index was a prefix of the candidate index, it still is. *)
Theorem writers_keep_confirmed_prefix (calls : list call)
    (db db' : data_base) (codes : option (list code)) :
  forallb (fun c => negb (is_header_reorganization c)) calls = true ->
  run_all calls db = (codes, db') ->
  confirmed_is_prefix (blocks_ db) ->
  confirmed_is_prefix (blocks_ db').
Proof.
  intros Hc H. exact (keeps_prefix_run_all calls Hc _ _ _ H).
Qed.

(** A push that fails after it has added to the candidate index, then the
    block [102], its chain state set, confirmed by a reorganization. *)
Lemma writers_keep_confirmed_prefix_witness :
  fst (run_all [call_push (examples.a_block 104 103 []) 4 14;
                call_reorganize_blocks scenarios.fork_101
                  [scenarios.bare_102] []]
         scenarios.chain)
  = Some [operation_failed; success] /\
  block_database.candidate_index
    (blocks_ (snd (run_all [call_push (examples.a_block 104 103 []) 4 14;
                            call_reorganize_blocks scenarios.fork_101
                              [scenarios.bare_102] []]
                     scenarios.chain)))
  = [100; 101; 102; 103; 104] /\
  confirmed_is_prefix
    (blocks_ (snd (run_all [call_push (examples.a_block 104 103 []) 4 14;
                            call_reorganize_blocks scenarios.fork_101
                              [scenarios.bare_102] []]
                     scenarios.chain))).
Proof.
  split; [vm_compute; reflexivity|]. split; [vm_compute; reflexivity|].
  refine (writers_keep_confirmed_prefix
            [call_push (examples.a_block 104 103 []) 4 14;
             call_reorganize_blocks scenarios.fork_101
               [scenarios.bare_102] []]
            scenarios.chain _ _ _
            (surjective_pairing
               (run_all [call_push (examples.a_block 104 103 []) 4 14;
                         call_reorganize_blocks scenarios.fork_101
                           [scenarios.bare_102] []]
                  scenarios.chain)) _).
  - reflexivity.
  - exists [102; 103]. vm_compute; reflexivity.
Defined.



(** X7. [pop_header] takes the header at the top of the candidate index off
    that index only: a header the confirmed index has at that height stays
    there, above the new top of the candidate index. *)
Theorem pop_header_leaves_confirmed (db db' : data_base) (out out' : header)
    (height : size_t) (ec : code) (r : block_database.block_record) :
  verify.verify_top (blocks_ db) height true = success ->
  block_database.get (blocks_ db) height false = Some r ->
  header_reorganization.pop_header out height db = (ec, out', db') ->
  is_error ec = false ->
  block_database.get (blocks_ db') height false = Some r /\
  block_database.get (blocks_ db') height true = None /\
  block_database.confirmed_index (blocks_ db')
  = block_database.confirmed_index (blocks_ db).
Proof.
  intros V G H Hec.
  destruct (pop_header_done _ _ _ _ _ _ V H Hec) as (r' & _ & _ & ->).
  repeat split.
  - exact G.
  - unfold block_database.get.
    cbn [block_database.index_of block_database.with_index
         block_database.candidate_index].
    rewrite at_position_above; [reflexivity|].
    unfold verify.verify_top in V.
    destruct (block_database.top (blocks_ db) true) as [top|] eqn:T;
      [|discriminate].
    destruct (Z.eqb_spec top height) as [->|]; [|discriminate].
    apply top_size in T. destruct T as [Hne Hs].
    cbn [block_database.index_of] in Hne, Hs.
    rewrite (size_removelast _ Hne). lia.
Qed.

(** The genesis header popped off the candidate index of the store that
    holds it alone: it stays confirmed. *)
Lemma pop_header_leaves_confirmed_witness :
  fst (fst (header_reorganization.pop_header default_header 0
              scenarios.created))
  = success /\
  block_database.candidate_index
    (blocks_ (snd (header_reorganization.pop_header default_header 0
                     scenarios.created)))
  = [] /\
  (exists r,
     block_database.get
       (blocks_ (snd (header_reorganization.pop_header default_header 0
                        scenarios.created))) 0 false
     = Some r /\
     block_database.rec_hash r = 100) /\
  block_database.get
    (blocks_ (snd (header_reorganization.pop_header default_header 0
                     scenarios.created))) 0 true
  = None.
Proof.
  split; [vm_compute; reflexivity|]. split; [vm_compute; reflexivity|].
  assert (G : exists r,
             block_database.get (blocks_ scenarios.created) 0 false = Some r /\
             block_database.rec_hash r = 100)
    by (vm_compute; eexists; split; reflexivity).
  destruct G as (r & G & Hr).
  destruct (pop_header_leaves_confirmed scenarios.created _ default_header
              _ 0 _ r
              ltac:(vm_compute; reflexivity) G
              (pairing3 (header_reorganization.pop_header default_header 0
                           scenarios.created))
              ltac:(vm_compute; reflexivity)) as (A & B & _).
  split; [|exact B]. exists r. split; assumption.
Defined.

(** X8. A reorganization of headers at the top of the candidate index with
    nothing to push changes nothing and makes no call: it returns success
    and clears the list of the outgoing headers. *)
Theorem reorganize_headers_at_top (db : data_base) (fork_point : checkpoint)
    (outgoing : list header) :
  checkpoint_height fork_point <= max_size_t ->
  verify.verify (blocks_ db) fork_point true = success ->
  block_database.top (blocks_ db) true = Some (checkpoint_height fork_point) ->
  header_reorganization.reorganize fork_point [] outgoing db
  = (success, [], db).
Proof.
  intros Hm V T. unfold header_reorganization.reorganize.
  cbn [size]. replace (wrap (max_size_t - 0)) with max_size_t
    by (vm_compute; reflexivity).
  destruct (Z.gtb_spec (checkpoint_height fork_point) max_size_t); [lia|].
  unfold header_reorganization.pop_above, bind, gets.
  rewrite V, T. cbn [is_error].
  rewrite Z.sub_diag. reflexivity.
Qed.

Lemma reorganize_headers_at_top_witness :
  header_reorganization.reorganize scenarios.fork_103 []
    [examples.a_header 1 0] scenarios.chain
  = (success, [], scenarios.chain).
Proof.
  apply (reorganize_headers_at_top scenarios.chain scenarios.fork_103).
  - vm_compute. discriminate.
  - vm_compute; reflexivity.
  - vm_compute; reflexivity.
Defined.

(** X9. A reorganization of blocks at the top of the confirmed index with
    nothing to push changes nothing and makes no call: it returns success
    and clears the list of the outgoing blocks. *)
Theorem reorganize_blocks_at_top (db : data_base) (fork_point : checkpoint)
    (outgoing : list block) :
  checkpoint_height fork_point <= max_size_t ->
  verify.verify (blocks_ db) fork_point false = success ->
  block_database.top (blocks_ db) false = Some (checkpoint_height fork_point) ->
  block_reorganization.reorganize fork_point [] outgoing db
  = (Some (success, []), db).
Proof.
  intros Hm V T. unfold block_reorganization.reorganize.
  cbn [size]. replace (wrap (max_size_t - 0)) with max_size_t
    by (vm_compute; reflexivity).
  destruct (Z.gtb_spec (checkpoint_height fork_point) max_size_t); [lia|].
  unfold block_reorganization.pop_above, bind, gets.
  rewrite V, T. cbn [is_error].
  rewrite Z.sub_diag. reflexivity.
Qed.

Lemma reorganize_blocks_at_top_witness :
  block_reorganization.reorganize scenarios.fork_101 []
    [examples.genesis] scenarios.chain
  = (Some (success, []), scenarios.chain).
Proof.
  apply (reorganize_blocks_at_top scenarios.chain scenarios.fork_101).
  - vm_compute. discriminate.
  - vm_compute; reflexivity.
  - vm_compute; reflexivity.
Defined.

(** ** [store(tx)] *)

Lemma find_link_app (t : transaction_database.t)
    (r : transaction_database.tx_record) (h : hash_digest) :
  forall k,
    transaction_database.find_link t h k = None ->
    transaction_database.find_link (t ++ [r]) h k
    = if transaction_database.rec_tx_hash r =? h then Some (k + size t)
      else None.
Proof.
  induction t as [|x t IH]; intros k H; cbn [transaction_database.find_link app size] in *.
  - now rewrite Z.add_0_r.
  - destruct (transaction_database.rec_tx_hash x =? h); [discriminate|].
    rewrite (IH _ H). destruct (_ =? h); [|reflexivity].
    f_equal. lia.
Qed.

Lemma transactions_store_one_frame (tx tx' : transaction) (forks : Z)
    (db db' : data_base) (ok : bool) :
  transactions_store_one tx forks db = (ok, tx', db') ->
  ok = true /\
  transaction_database.store_one (transactions_ db) tx
  = (transactions_ db', tx') /\
  blocks_ db' = blocks_ db.
Proof.
  unfold transactions_store_one, bind, emit, modify, gets. cbn.
  destruct (transaction_database.store_one (transactions_ db) tx) as [t' tx0].
  intros H. injection H as <- <- <-. repeat split.
Qed.

(** What a [store(tx)] that succeeds has done. *)
Lemma store_success (tx tx' : transaction) (forks : Z) (db db' : data_base) :
  public_writers.store tx forks db = (success, tx', db') ->
  transaction_database.find_link (transactions_ db) (tx_hash tx) 0 = None /\
  transactions_ db'
  = transactions_ db
    ++ [{| transaction_database.rec_tx_hash := tx_hash tx;
           transaction_database.rec_tx_fields := tx_fields tx;
           transaction_database.rec_candidate := false;
           transaction_database.rec_confirmation := None |}] /\
  link (tx_metadata tx') = size (transactions_ db) /\
  blocks_ db' = blocks_ db.
Proof.
  intros H. unfold public_writers.store in H.
  unfold bind at 1 in H. unfold gets at 1 in H. cbv zeta in H.
  unfold preconditions.verify_missing in H.
  destruct (transaction_database.find_link (transactions_ db) (tx_hash tx) 0)
    eqn:F; cbn [is_error] in H; [discriminate H|].
  run_step H ok0 db0 E0. apply begin_write_frame in E0.
  destruct E0 as (_ & B0 & X0).
  destruct ok0; cbn [negb] in H; [|discriminate H].
  run_step H r1 db1 E1. destruct r1 as [ok1 tx1].
  apply transactions_store_one_frame in E1. destruct E1 as (-> & S1 & B1).
  cbn [negb] in H.
  run_step H u2 db2 E2. apply leaf_commit_frame in E2.
  destruct E2 as (_ & B2 & X2 & _).
  run_step H ec3 db3 E3. apply finish_write_result in E3.
  destruct E3 as (_ & _ & B3 & X3).
  injection H as _ <- <-.
  rewrite X0 in S1. unfold transaction_database.store_one in S1.
  rewrite F in S1. injection S1 as S1 <-.
  repeat split.
  - rewrite X3, X2. symmetry. exact S1.
  - rewrite B3, B2, B1. exact B0.
Qed.

(** X10. Once [store(tx)] has succeeded, the link it has set resolves to the
    record of the transaction, and a [store] of a transaction of the same
    hash returns [duplicate_transaction], changes nothing and makes no
    call. *)
Theorem store_twice (tx tx' other : transaction) (forks forks' : Z)
    (db db' : data_base) :
  public_writers.store tx forks db = (success, tx', db') ->
  tx_hash other = tx_hash tx ->
  public_writers.store other forks' db' = (duplicate_transaction, other, db') /\
  exists rec,
    transaction_database.get (transactions_ db') (link (tx_metadata tx'))
    = Some rec /\
    transaction_database.rec_tx_hash rec = tx_hash tx /\
    transaction_database.rec_tx_fields rec = tx_fields tx.
Proof.
  intros H Hh. apply store_success in H. destruct H as (F & T & L & _).
  split.
  - unfold public_writers.store, bind, gets. cbv zeta.
    unfold preconditions.verify_missing. rewrite T, Hh.
    rewrite (find_link_app _ _ _ _ F).
    cbn [transaction_database.rec_tx_hash]. now rewrite Z.eqb_refl.
  - eexists. unfold transaction_database.get. rewrite T, L.
    split; [apply at_position_last|]. split; reflexivity.
Qed.

Lemma store_twice_witness :
  fst (fst (public_writers.store (examples.a_transaction 3000) 0
              scenarios.chain))
  = success /\
  public_writers.store (scenarios.linked 3000 7) 1
    (snd (public_writers.store (examples.a_transaction 3000) 0
            scenarios.chain))
  = (duplicate_transaction, scenarios.linked 3000 7,
     snd (public_writers.store (examples.a_transaction 3000) 0
            scenarios.chain)) /\
  exists rec,
    transaction_database.get
      (transactions_ (snd (public_writers.store (examples.a_transaction 3000)
                             0 scenarios.chain)))
      (link (tx_metadata
               (snd (fst (public_writers.store (examples.a_transaction 3000)
                            0 scenarios.chain)))))
    = Some rec /\
    transaction_database.rec_tx_hash rec = 3000 /\
    transaction_database.rec_tx_fields rec = 3001.
Proof.
  split; [vm_compute; reflexivity|].
  refine (store_twice (examples.a_transaction 3000) _ (scenarios.linked 3000 7)
            0 1 scenarios.chain _ _ _).
  - vm_compute; reflexivity.
  - reflexivity.
Defined.

(** ** [flush] *)

(** X11. [flush] does not look at the closed flag: on a closed object it
    makes the same file operations, with the same result, as on an open
    one. It changes no store, and no flag but the outcomes consumed. *)
Theorem flush_ignores_closed (db : data_base) (c : bool) :
  lifecycle.flush (set_closed c db)
  = (fst (lifecycle.flush db), set_closed c (snd (lifecycle.flush db))) /\
  blocks_ (snd (lifecycle.flush db)) = blocks_ db /\
  transactions_ (snd (lifecycle.flush db)) = transactions_ db /\
  closed_ (snd (lifecycle.flush db)) = closed_ db /\
  flush_lock_ (snd (lifecycle.flush db)) = flush_lock_ db /\
  trace_ (snd (lifecycle.flush db)) = trace_ db.
Proof.
  destruct db as [cl [ia fw] b t fl io tr].
  unfold lifecycle.flush, leaf_flush, and_then, next_io, bind, gets, ret,
    set_closed, set_io.
  cbn [io_ settings_ index_addresses closed_ blocks_ transactions_
       flush_lock_ trace_].
  destruct io as [|[] [|[] [|[] io]]], ia; cbn; repeat split.
Qed.

(** ** The accessor: [increment] *)

(** X12. [increment] makes no call on the mutex, and within the range its
    assertions ask for (a buffer assigned, no overflow of the pointer) two
    increments move the buffer by the sum. *)
Theorem increment_composes (a : accessor.t) (p v w : size_t) :
  accessor.buffer a = Some p ->
  0 <= p -> 0 <= v -> 0 <= w -> p + v + w <= max_size_t ->
  accessor.buffer (accessor.increment (accessor.increment a v) w)
  = Some (p + v + w) /\
  accessor.mutex_ (accessor.increment (accessor.increment a v) w)
  = accessor.mutex_ a /\
  accessor.destroy (accessor.increment (accessor.increment a v) w)
  = accessor.destroy a.
Proof.
  intros Hb Hp Hv Hw Hm. destruct a as [m d].
  unfold accessor.buffer in *. cbn [accessor.data_] in Hb. subst d.
  unfold accessor.increment, accessor.destroy.
  cbn [accessor.mutex_ accessor.data_].
  repeat split. f_equal.
  assert (Hmax : max_size_t = 2 ^ 64 - 1) by reflexivity.
  unfold wrap. rewrite (Z.mod_small (p + v)) by lia.
  apply Z.mod_small. lia.
Qed.

Lemma increment_composes_witness :
  accessor.buffer
    (accessor.increment
       (accessor.increment (accessor.assign accessor.construct 4096) 8) 16)
  = Some (4096 + 8 + 16) /\
  accessor.mutex_
    (accessor.increment
       (accessor.increment (accessor.assign accessor.construct 4096) 8) 16)
  = accessor.mutex_ (accessor.assign accessor.construct 4096) /\
  accessor.destroy
    (accessor.increment
       (accessor.increment (accessor.assign accessor.construct 4096) 8) 16)
  = accessor.destroy (accessor.assign accessor.construct 4096).
Proof.
  apply (increment_composes (accessor.assign accessor.construct 4096)
           4096 8 16).
  - reflexivity.
  - lia.
  - lia.
  - lia.
  - vm_compute. discriminate.
Defined.

(** ** [open] *)

Lemma store_open_frame (db db' : data_base) (ok : bool) :
  store.open db = (ok, db') ->
  frame db db' [ev_store_open] /\
  blocks_ db' = blocks_ db /\ transactions_ db' = transactions_ db /\
  flush_lock_ db' = flush_lock_ db /\
  (ok = true -> flush_lock_ db = false).
Proof.
  destruct db as [c [ia fw] b t fl io tr].
  unfold store.open, bind, emit, modify, gets, next_io, ret, frame.
  cbn. destruct fl; [|destruct io as [|x io]];
    intros H; injection H as <- <-; cbn; repeat split; discriminate.
Qed.

Lemma leaf_open_frame (l : leaf) (db db' : data_base) (ok : bool) :
  leaf_open l db = (ok, db') ->
  frame db db' [ev_open l] /\
  blocks_ db' = blocks_ db /\ transactions_ db' = transactions_ db /\
  flush_lock_ db' = flush_lock_ db.
Proof.
  destruct db as [c [ia fw] b t fl io tr].
  unfold leaf_open, bind, emit, modify, next_io, frame.
  cbn. destruct io as [|x io];
    intros H; injection H as <- <-; cbn; repeat split.
Qed.

(** X13. [open], by its result. If it returns true, the flush lock was not
    held, the store and then every leaf has been opened, in the order
    blocks, transactions, addresses, and the object is open. If it returns
    false the closed flag is as it was; the leaves opened before the failure
    are not closed, and a [close()] on the object, closed as it was
    constructed, does nothing. *)
Theorem open_outcome (db db' : data_base) (ok : bool) :
  open db = (ok, db') ->
  blocks_ db' = blocks_ db /\ transactions_ db' = transactions_ db /\
  if ok
  then closed_ db' = false /\ flush_lock_ db = false /\
       trace_ db' = trace_ db ++ open_events (settings_ db)
  else closed_ db' = closed_ db /\
       (exists opened,
          trace_ db' = trace_ db ++ ev_store_open :: opened /\
          forallb is_leaf_open opened = true) /\
       (closed_ db = true -> close db' = (true, db')).
Proof.
  intros H. unfold open in H.
  run_step H ok0 db0 E0. apply store_open_frame in E0.
  destruct E0 as ((S0 & C0 & T0) & B0 & X0 & L0 & F0).
  destruct ok0; cbn [negb] in H.
  2:{ injection H as <- <-. repeat split; try assumption.
      - exists []. split; [exact T0|reflexivity].
      - intros Hc. apply close_closed. congruence. }
  unfold start in H. unfold bind at 1 in H. unfold ret at 1 in H.
  run_step H ok1 db1 E1. apply leaf_open_frame in E1.
  destruct E1 as ((S1 & C1 & T1) & B1 & X1 & L1).
  run_step H ok2 db2 E2.
  assert (F2 : settings_ db2 = settings_ db1 /\ closed_ db2 = closed_ db1 /\
               blocks_ db2 = blocks_ db1 /\
               transactions_ db2 = transactions_ db1 /\
               exists evs, trace_ db2 = trace_ db1 ++ evs /\
                 forallb is_leaf_open evs = true /\
                 (ok2 = true -> ok1 = true /\ evs = [ev_open transactions_leaf])).
  { destruct ok1; cbn [and_then] in E2.
    - apply leaf_open_frame in E2.
      destruct E2 as ((S2 & C2 & T2) & B2 & X2 & L2).
      repeat split; try assumption. eexists. split; [exact T2|].
      repeat split.
    - injection E2 as <- <-. repeat split. exists [].
      split; [now rewrite app_nil_r|]. split; [reflexivity|discriminate]. }
  clear E2. destruct F2 as (S2 & C2 & B2 & X2 & evs2 & T2 & O2 & K2).
  unfold bind at 1 in H. unfold gets at 1 in H.
  run_step H ok3 db3 E3.
  assert (F3 : settings_ db3 = settings_ db2 /\ closed_ db3 = closed_ db2 /\
               blocks_ db3 = blocks_ db2 /\
               transactions_ db3 = transactions_ db2 /\
               exists evs, trace_ db3 = trace_ db2 ++ evs /\
                 forallb is_leaf_open evs = true /\
                 (ok3 = true ->
                  ok2 = true /\
                  evs = if index_addresses (settings_ db2)
                        then [ev_open addresses_leaf] else [])).
  { destruct (index_addresses (settings_ db2)).
    - destruct ok2; cbn [and_then] in E3.
      + apply leaf_open_frame in E3.
        destruct E3 as ((S3 & C3 & T3) & B3 & X3 & L3).
        repeat split; try assumption. eexists. split; [exact T3|].
        repeat split.
      + injection E3 as <- <-. repeat split. exists [].
        split; [now rewrite app_nil_r|]. split; [reflexivity|discriminate].
    - injection E3 as <- <-. repeat split. exists [].
      split; [now rewrite app_nil_r|]. split; [reflexivity|].
      intros ->. split; reflexivity. }
  clear E3. destruct F3 as (S3 & C3 & B3 & X3 & evs3 & T3 & O3 & K3).
  destruct ok3; cbn [negb] in H.
  - unfold assign_closed, emit, bind, modify, ret in H. injection H as <- <-.
    destruct (K3 eq_refl) as [-> ->]. destruct (K2 eq_refl) as [-> ->].
    cbn [blocks_ transactions_ set_closed set_trace closed_ trace_].
    repeat split; try congruence; [exact (F0 eq_refl)|].
    rewrite T3, T2, T1, T0, S2, S1, S0. unfold open_events.
    now rewrite <- !app_assoc.
  - injection H as <- <-. repeat split; try congruence.
    + exists ([ev_open blocks_leaf] ++ evs2 ++ evs3). split.
      * rewrite T3, T2, T1, T0. now rewrite <- !app_assoc.
      * rewrite !forallb_app, O2, O3. reflexivity.
    + intros Hc. apply close_closed. congruence.
Qed.

(** The [open] of the transaction store fails: the block store stays open,
    and the [close()] that follows does nothing. *)
Lemma open_outcome_witness :
  fst (open (scenarios.constructed examples.flushing [true; true; false]))
  = false /\
  trace_ (snd (open (scenarios.constructed examples.flushing
                       [true; true; false])))
  = [ev_store_open; ev_open blocks_leaf; ev_open transactions_leaf] /\
  closed_ (snd (open (scenarios.constructed examples.flushing
                        [true; true; false])))
  = true /\
  close (snd (open (scenarios.constructed examples.flushing
                      [true; true; false])))
  = (true,
     snd (open (scenarios.constructed examples.flushing [true; true; false]))).
Proof.
  split; [vm_compute; reflexivity|]. split; [vm_compute; reflexivity|].
  destruct (open_outcome
              (scenarios.constructed examples.flushing [true; true; false])
              (snd (open (scenarios.constructed examples.flushing
                            [true; true; false])))
              false ltac:(vm_compute; reflexivity)) as (_ & _ & C & _ & K).
  split; [exact C|]. apply K. reflexivity.
Defined.

(** ** [create] *)

Lemma next_io_frame (db db' : data_base) (ok : bool) :
  next_io db = (ok, db') ->
  settings_ db' = settings_ db /\ closed_ db' = closed_ db /\
  blocks_ db' = blocks_ db /\ transactions_ db' = transactions_ db /\
  trace_ db' = trace_ db /\ flush_lock_ db' = flush_lock_ db.
Proof.
  unfold next_io. destruct (io_ db) as [|x io];
    intros H; injection H as <- <-; repeat split.
Qed.

Lemma blocks_create_done (db db' : data_base) (ok : bool) :
  blocks_create db = (ok, db') ->
  settings_ db' = settings_ db /\
  (ok = true ->
   block_database.candidate_index (blocks_ db') = [] /\
   block_database.confirmed_index (blocks_ db') = []).
Proof.
  unfold blocks_create, bind, next_io, modify, ret.
  destruct (io_ db) as [|[] io]; intros H; injection H as <- <-;
    repeat split; discriminate.
Qed.

Lemma transactions_create_done (db db' : data_base) (ok : bool) :
  transactions_create db = (ok, db') ->
  settings_ db' = settings_ db /\ blocks_ db' = blocks_ db.
Proof.
  unfold transactions_create, bind, next_io, modify, ret.
  destruct (io_ db) as [|[] io]; intros H; injection H as <- <-;
    repeat split.
Qed.

Lemma addresses_create_done (addresses addresses' : address_database.t)
    (db db' : data_base) (ok : bool) :
  addresses_create addresses db = (ok, addresses', db') ->
  blocks_ db' = blocks_ db /\ (ok = true -> addresses' = []).
Proof.
  unfold addresses_create, bind, next_io, ret.
  destruct (io_ db) as [|[] io]; intros H; injection H as <- <- <-;
    repeat split; discriminate.
Qed.

(** X14. When [create(genesis)] returns true the flush lock was not held, the
    object is open, the two indices hold the genesis header and nothing
    else, and the address store, if it is kept, is new. *)
Theorem create_success (genesis genesis' : block)
    (addresses addresses' : address_database.t) (db db' : data_base) :
  lifecycle.create genesis addresses db = (true, genesis', addresses', db') ->
  closed_ db' = false /\ flush_lock_ db = false /\
  block_database.candidate_index (blocks_ db') = [block_hash genesis] /\
  block_database.confirmed_index (blocks_ db') = [block_hash genesis] /\
  block_database.top (blocks_ db') true = Some 0 /\
  block_database.top (blocks_ db') false = Some 0 /\
  addresses' = (if index_addresses (settings_ db) then [] else addresses).
Proof.
  intros H. unfold lifecycle.create in H.
  run_step H ok0 db0 E0. apply store_open_frame in E0.
  destruct E0 as ((S0 & _) & _ & _ & _ & F0).
  destruct ok0; cbn [negb] in H; [|discriminate H].
  run_step H ok1 db1 E1. apply next_io_frame in E1. destruct E1 as (S1 & _).
  destruct ok1; cbn [negb] in H; [|discriminate H].
  unfold start in H. unfold bind at 1 in H. unfold ret at 1 in H.
  run_step H ok2 db2 E2. apply blocks_create_done in E2.
  destruct E2 as (S2 & K2).
  run_step H ok3 db3 E3.
  assert (F3 : settings_ db3 = settings_ db2 /\ blocks_ db3 = blocks_ db2 /\
               (ok3 = true -> ok2 = true)).
  { destruct ok2; cbn [and_then] in E3.
    - apply transactions_create_done in E3. destruct E3 as [S3 B3].
      repeat split; auto.
    - injection E3 as <- <-. repeat split; auto. }
  clear E3. destruct F3 as (S3 & B3 & K3).
  unfold bind at 1 in H. unfold gets at 1 in H.
  run_step H r4 db4 E4. destruct r4 as [ok4 addresses4].
  assert (F4 : blocks_ db4 = blocks_ db3 /\
               (ok4 = true ->
                ok3 = true /\
                addresses4 = if index_addresses (settings_ db3) then []
                             else addresses)).
  { destruct (index_addresses (settings_ db3)).
    - destruct ok3.
      + apply addresses_create_done in E4. destruct E4 as [B4 A4].
        split; [exact B4|]. intros Hk. split; [reflexivity|exact (A4 Hk)].
      + injection E4 as <- <- <-. split; [reflexivity|discriminate].
    - injection E4 as <- <- <-. split; [reflexivity|].
      intros ->. split; reflexivity. }
  clear E4. destruct F4 as (B4 & K4).
  run_step H r5 db5 E5. destruct r5 as [ok5 genesis5].
  destruct ok5; cbn [negb] in H; [|discriminate H].
  unfold assign_closed, emit, bind, modify, ret in H.
  injection H as <- <- <-.
  destruct ok4; [|discriminate E5].
  destruct (K4 eq_refl) as [-> ->]. pose proof (K3 eq_refl) as ->.
  destruct (K2 eq_refl) as [C2 G2].
  run_step E5 r6 db6 E6. destruct r6 as [ec6 genesis6].
  injection E5 as Hec <- <-.
  apply push_indices in E6. destruct E6 as [[(He & _)|(_ & _ & _ & C & G)] _].
  { cbn [fst] in He. rewrite He in Hec. discriminate Hec. }
  rewrite B4, B3, C2 in C. rewrite B4, B3, G2 in G. cbn [app] in C, G.
  cbn [closed_ set_closed set_trace blocks_].
  repeat split.
  - exact (F0 eq_refl).
  - exact C.
  - exact G.
  - apply top_of_size; [lia|]. cbn [block_database.index_of]. now rewrite C.
  - apply top_of_size; [lia|]. cbn [block_database.index_of]. now rewrite G.
  - now rewrite S3, S2, S1, S0.
Qed.

Lemma create_success_witness :
  fst (fst (fst (lifecycle.create examples.genesis [7]
                   (scenarios.constructed examples.indexing []))))
  = true /\
  closed_ (snd (lifecycle.create examples.genesis [7]
                  (scenarios.constructed examples.indexing [])))
  = false /\
  block_database.candidate_index
    (blocks_ (snd (lifecycle.create examples.genesis [7]
                     (scenarios.constructed examples.indexing []))))
  = [100] /\
  block_database.confirmed_index
    (blocks_ (snd (lifecycle.create examples.genesis [7]
                     (scenarios.constructed examples.indexing []))))
  = [100] /\
  snd (fst (lifecycle.create examples.genesis [7]
              (scenarios.constructed examples.indexing [])))
  = [].
Proof.
  split; [vm_compute; reflexivity|].
  destruct (create_success examples.genesis
              (snd (fst (fst (lifecycle.create examples.genesis [7]
                                (scenarios.constructed examples.indexing [])))))
              [7]
              (snd (fst (lifecycle.create examples.genesis [7]
                           (scenarios.constructed examples.indexing []))))
              (scenarios.constructed examples.indexing [])
              (snd (lifecycle.create examples.genesis [7]
                      (scenarios.constructed examples.indexing [])))
              ltac:(vm_compute; reflexivity))
    as (C & _ & I & J & _ & _ & A).
  repeat split; assumption.
Defined.

(** ** [push_header] and the [exists] flag *)

Lemma begin_write_io (db db' : data_base) (ok : bool) :
  store.begin_write db = (ok, db') ->
  io_ db = [] -> ok = true /\ io_ db' = [].
Proof.
  destruct db as [c [ia fw] b t fl io tr].
  unfold store.begin_write, store.flush_each_write, bind, emit, modify, gets,
    next_io, ret.
  cbn. intros H ->. destruct (fw || negb fl);
    cbn in H; injection H as <- <-; split; reflexivity.
Qed.

Lemma finish_write_io (db db' : data_base) (ec : code) :
  finish_write db = (ec, db') -> io_ db = [] -> ec = success.
Proof.
  destruct db as [c [ia fw] b t fl io tr].
  unfold finish_write, store.end_write, store.flush_each_write, bind, emit,
    modify, gets, next_io, ret.
  cbn. intros H ->. destruct fw; cbn in H; injection H as <- _; reflexivity.
Qed.

(** X15. [push_header] does not look at what [blocks.store] and
    [blocks.index] return, and it skips the [store] of a header whose
    metadata says it exists. On such a header that is not recorded it
    changes no store, whatever it returns, and it returns success when
    the precondition holds and no file operation fails. *)
Theorem push_header_trusts_exists (h : header) (height : size_t) (mtp : Z)
    (db db' : data_base) (ec : code) :
  exists_ (metadata h) = true ->
  block_database.get_hash (blocks_ db) (hash h) = None ->
  header_reorganization.push_header h height mtp db = (ec, db') ->
  blocks_ db' = blocks_ db /\ transactions_ db' = transactions_ db /\
  (verify.verify_push_header (blocks_ db) h height = success ->
   io_ db = [] -> ec = success).
Proof.
  intros He Hg H. unfold header_reorganization.push_header in H.
  unfold bind at 1 in H. unfold gets at 1 in H. cbv zeta in H.
  destruct (is_error (verify.verify_push_header (blocks_ db) h height)) eqn:V.
  { injection H as <- <-. repeat split.
    intros Hs. rewrite Hs in V. discriminate V. }
  run_step H ok0 db0 E0. pose proof (begin_write_io _ _ _ E0) as I0.
  apply begin_write_frame in E0. destruct E0 as (_ & B0 & X0).
  destruct ok0; cbn [negb] in H.
  2:{ injection H as <- <-. repeat split; try assumption.
      intros _ Hio. destruct (I0 Hio) as [D _]. discriminate D. }
  rewrite He in H. cbn [negb] in H.
  unfold bind at 1 in H. unfold ret at 1 in H.
  run_step H ok1 db1 E1. apply on_blocks_frame in E1.
  destruct E1 as (_ & B1 & X1 & I1 & _).
  rewrite B0 in B1. unfold block_database.index in B1.
  unfold block_database.get_hash in Hg. rewrite Hg in B1.
  assert (B1' : blocks_ db1 = blocks_ db).
  { destruct (height =? _); injection B1 as _ <-; reflexivity. }
  clear B1.
  run_step H u2 db2 E2. apply leaf_commit_frame in E2.
  destruct E2 as (_ & B2 & X2 & I2 & _).
  pose proof (finish_write_io _ _ _ H) as I3.
  apply finish_write_result in H. destruct H as (_ & _ & B3 & X3).
  repeat split; try congruence.
  intros _ Hio. apply I3. destruct (I0 Hio) as [_ J]. congruence.
Qed.

(** A header that says it exists and is not recorded: success, and the
    candidate index is as it was. *)
Lemma push_header_trusts_exists_witness :
  fst (header_reorganization.push_header scenarios.phantom 4 14
         scenarios.chain)
  = success /\
  blocks_ (snd (header_reorganization.push_header scenarios.phantom 4 14
                  scenarios.chain))
  = blocks_ scenarios.chain /\
  transactions_ (snd (header_reorganization.push_header scenarios.phantom 4 14
                        scenarios.chain))
  = transactions_ scenarios.chain.
Proof.
  destruct (push_header_trusts_exists scenarios.phantom 4 14 scenarios.chain
              _ _ eq_refl ltac:(vm_compute; reflexivity)
              (surjective_pairing
                 (header_reorganization.push_header scenarios.phantom 4 14
                    scenarios.chain)))
    as (B & X & S).
  split; [|split; assumption].
  apply S; vm_compute; reflexivity.
Defined.

(** ** [push_block] then [pop_block] *)

Lemma is_error_false (ec : code) : is_error ec = false -> ec = success.
Proof. destruct ec; (reflexivity || discriminate). Qed.

Lemma confirm_transactions_marks (txs : list transaction)
    (height : size_t) (mtp position : Z) :
  keeps marks_only
    (block_reorganization.confirm_transactions txs height mtp position).
Proof.
  apply keeps_confirm_transactions.
  - intros s. split; reflexivity.
  - intros s1 s2 s3 [A B] [C D]. split; congruence.
  - intros b t t' Hc. split; [reflexivity|exact Hc].
Qed.

Lemma with_index_removelast (b : block_database.t) (c : bool)
    (h : hash_digest) :
  block_database.with_index
    (block_database.with_index b c (block_database.index_of b c ++ [h])) c
    (removelast (block_database.index_of b c ++ [h]))
  = b.
Proof.
  rewrite removelast_last. destruct b as [tb cand conf], c; reflexivity.
Qed.

(** What a [push_block] that succeeds has done. *)
Lemma push_block_done (b : block) (height : size_t) (db db' : data_base) :
  block_reorganization.push_block b height db = (Some success, db') ->
  height = size (block_database.confirmed_index (blocks_ db)) /\
  at_position (block_database.candidate_index (blocks_ db)) height
  = Some (block_hash b) /\
  (exists r, block_database.get_hash (blocks_ db) (block_hash b) = Some r) /\
  blocks_ db'
  = block_database.with_index (blocks_ db) false
      (block_database.confirmed_index (blocks_ db) ++ [block_hash b]) /\
  tx_content (transactions_ db') = tx_content (transactions_ db).
Proof.
  intros H. unfold block_reorganization.push_block in H.
  destruct (state (metadata (block_header b))) as [median_time_past|];
    [|discriminate H].
  cbv zeta in H. unfold bind at 1 in H. unfold gets at 1 in H.
  destruct (is_error (verify.verify_push_block (blocks_ db) b height)) eqn:V.
  { injection H as H _. rewrite H in V. discriminate V. }
  assert (Hv : at_position (block_database.candidate_index (blocks_ db)) height
               = Some (block_hash b)).
  { unfold verify.verify_push_block in V.
    destruct (height =? _); [|discriminate].
    destruct (at_position _ height) as [h|]; [|discriminate].
    destruct (h =? block_hash b) eqn:Eh; [|discriminate].
    apply Z.eqb_eq in Eh. now rewrite Eh. }
  run_step H ok0 db0 E0. apply begin_write_frame in E0.
  destruct E0 as (_ & B0 & X0).
  destruct ok0; cbn [negb] in H; [|discriminate H].
  run_step H ok1 db1 E1. apply confirm_transactions_marks in E1.
  destruct E1 as [B1 X1]. cbn [stores fst snd] in B1, X1.
  destruct ok1; cbn [negb] in H; [|failed_branch H].
  run_step H ok2 db2 E2. apply on_blocks_frame in E2.
  destruct E2 as (_ & B2 & X2 & _).
  destruct ok2; cbn [negb] in H; [|failed_branch H].
  run_step H u3 db3 E3. apply commit_frame in E3.
  destruct E3 as (_ & B3 & X3 & _).
  run_step H ec4 db4 E4. apply finish_write_result in E4.
  destruct E4 as (_ & _ & B4 & X4). injection H as _ <-.
  rewrite B1, B0 in B2. apply index_true in B2.
  destruct B2 as (Hh & B2 & R2). cbn [block_database.index_of] in Hh, B2.
  repeat split.
  - exact Hh.
  - exact Hv.
  - exact R2.
  - now rewrite B4, B3, B2.
  - rewrite X4, X3, X2, X1. now rewrite X0.
Qed.

(** X16. [push_block], on a block whose header has its chain state set,
    then [pop_block] at the same height, both succeeding:
    the block store is what it was before the push, the transaction store
    holds the same transactions, and the block popped has the header
    recorded under the hash of the block pushed. *)
Theorem push_pop_block (b out out' : block) (height : size_t)
    (db db1 db2 : data_base) (ec : code) :
  block_reorganization.push_block b height db = (Some success, db1) ->
  block_reorganization.pop_block out height db1 = (ec, out', db2) ->
  is_error ec = false ->
  blocks_ db2 = blocks_ db /\
  tx_content (transactions_ db2) = tx_content (transactions_ db) /\
  hash (block_header out') = block_hash b.
Proof.
  intros H1 H2 Hec. apply push_block_done in H1.
  destruct H1 as (Hh & Ha & _ & B1 & X1).
  pose proof (size_nonneg (block_database.confirmed_index (blocks_ db))) as Hs.
  assert (V : verify.verify_top (blocks_ db1) height false = success).
  { unfold verify.verify_top.
    rewrite (top_of_size (blocks_ db1) false height).
    - now rewrite Z.eqb_refl.
    - lia.
    - rewrite B1. cbn [block_database.index_of block_database.with_index
                       block_database.confirmed_index].
      rewrite size_app. cbn [size]. lia. }
  destruct (pop_block_done _ _ _ _ _ _ V H2 Hec) as (r & G & -> & B2 & X2).
  repeat split.
  - rewrite B2, B1.
    cbn [block_database.with_index block_database.confirmed_index].
    apply (with_index_removelast (blocks_ db) false).
  - congruence.
  - cbn [block_header block_database.result_header hash].
    unfold block_database.get in G. rewrite B1 in G.
    cbn [block_database.index_of block_database.with_index
         block_database.confirmed_index block_database.table] in G.
    rewrite Hh, at_position_last in G.
    exact (find_record_hash _ _ _ G).
Qed.

Lemma push_pop_block_witness :
  state (metadata (block_header scenarios.block_102)) = Some 12 /\
  fst (block_reorganization.push_block scenarios.block_102 2 scenarios.chain)
  = Some success /\
  fst (fst (block_reorganization.pop_block default_block 2
              (snd (block_reorganization.push_block scenarios.block_102 2
                      scenarios.chain))))
  = success /\
  blocks_ (snd (block_reorganization.pop_block default_block 2
                  (snd (block_reorganization.push_block scenarios.block_102 2
                          scenarios.chain))))
  = blocks_ scenarios.chain /\
  tx_content
    (transactions_
       (snd (block_reorganization.pop_block default_block 2
               (snd (block_reorganization.push_block scenarios.block_102 2
                       scenarios.chain)))))
  = tx_content (transactions_ scenarios.chain) /\
  hash (block_header
          (snd (fst (block_reorganization.pop_block default_block 2
                       (snd (block_reorganization.push_block
                               scenarios.block_102 2 scenarios.chain))))))
  = block_hash scenarios.block_102.
Proof.
  split; [reflexivity|].
  split; [vm_compute; reflexivity|]. split; [vm_compute; reflexivity|].
  refine (push_pop_block scenarios.block_102 default_block _ 2 scenarios.chain
            _ _ _ _
            (pairing3 (block_reorganization.pop_block default_block 2
                         (snd (block_reorganization.push_block
                                 scenarios.block_102 2 scenarios.chain))))
            _).
  - vm_compute; reflexivity.
  - vm_compute; reflexivity.
Defined.

(** ** [index(tx)] and [index(block)] *)

Lemma index_missing_app (txs : list transaction) :
  forall addresses,
    public_writers.index_missing txs addresses
    = addresses ++ map (fun tx => link (tx_metadata tx)) (missing txs).
Proof.
  induction txs as [|tx txs IH]; intros addresses;
    cbn [public_writers.index_missing missing filter].
  - now rewrite app_nil_r.
  - rewrite IH. fold (missing txs).
    destruct (existed (tx_metadata tx)); cbn [negb map]; [reflexivity|].
    unfold address_database.index. now rewrite <- app_assoc.
Qed.

(** X17. [index(block)]. With the address index off it returns success and
    does nothing at all. It never changes the block store or the
    transaction store. The address store is as before, or has had appended
    the links of the transactions of the block that did not exist, in
    order; it has when the call succeeds with the index on. *)
Theorem index_block_outcome (b : block)
    (addresses addresses' : address_database.t) (db db' : data_base)
    (ec : code) :
  public_writers.index_block b addresses db = (ec, addresses', db') ->
  blocks_ db' = blocks_ db /\ transactions_ db' = transactions_ db /\
  (index_addresses (settings_ db) = false ->
   ec = success /\ addresses' = addresses /\ db' = db) /\
  (addresses' = addresses \/
   addresses'
   = addresses
     ++ map (fun tx => link (tx_metadata tx)) (missing (transactions b))) /\
  (index_addresses (settings_ db) = true -> ec = success ->
   addresses'
   = addresses
     ++ map (fun tx => link (tx_metadata tx)) (missing (transactions b))).
Proof.
  intros H. unfold public_writers.index_block in H.
  unfold bind at 1 in H. unfold gets at 1 in H. cbv zeta in H.
  destruct (index_addresses (settings_ db)); cbn [negb] in H.
  2:{ injection H as <- <- <-. repeat split; auto; discriminate. }
  unfold bind at 1 in H. unfold gets at 1 in H.
  destruct (is_error (verify.verify_exists (blocks_ db) (block_header b)))
    eqn:V.
  { injection H as <- <- <-. repeat split; auto; try discriminate.
    intros _ Hs. rewrite Hs in V. discriminate V. }
  run_step H ok0 db0 E0. apply begin_write_frame in E0.
  destruct E0 as (_ & B0 & X0).
  destruct ok0; cbn [negb] in H.
  2:{ injection H as <- <- <-. repeat split; auto; discriminate. }
  run_step H u1 db1 E1. apply leaf_commit_frame in E1.
  destruct E1 as (_ & B1 & X1 & _).
  run_step H ec2 db2 E2. apply finish_write_result in E2.
  destruct E2 as (_ & _ & B2 & X2).
  injection H as <- <- <-. rewrite index_missing_app.
  repeat split; auto; try congruence; discriminate.
Qed.

(** The block [102] with a transaction that did not exist (link 2) and one
    that did: the one link is appended. *)
Lemma index_block_outcome_witness :
  public_writers.index_block
    {| block_header := examples.a_header 102 101;
       transactions := [scenarios.linked 1001 1;
                        {| tx_hash := 1002; tx_fields := 1003;
                           tx_metadata := {| link := 2; existed := false |} |}] |}
    [0] (examples.chain examples.indexing [])
  = (success, [0; 2],
     snd (public_writers.index_block
            {| block_header := examples.a_header 102 101;
               transactions := [scenarios.linked 1001 1;
                                {| tx_hash := 1002; tx_fields := 1003;
                                   tx_metadata :=
                                     {| link := 2; existed := false |} |}] |}
            [0] (examples.chain examples.indexing []))) /\
  blocks_ (snd (public_writers.index_block
                  {| block_header := examples.a_header 102 101;
                     transactions := [scenarios.linked 1001 1;
                                      {| tx_hash := 1002; tx_fields := 1003;
                                         tx_metadata :=
                                           {| link := 2;
                                              existed := false |} |}] |}
                  [0] (examples.chain examples.indexing [])))
  = blocks_ (examples.chain examples.indexing []).
Proof.
  assert (E : public_writers.index_block
                {| block_header := examples.a_header 102 101;
                   transactions := [scenarios.linked 1001 1;
                                    {| tx_hash := 1002; tx_fields := 1003;
                                       tx_metadata :=
                                         {| link := 2; existed := false |} |}] |}
                [0] (examples.chain examples.indexing [])
              = (success, [0; 2],
                 snd (public_writers.index_block
                        {| block_header := examples.a_header 102 101;
                           transactions :=
                             [scenarios.linked 1001 1;
                              {| tx_hash := 1002; tx_fields := 1003;
                                 tx_metadata :=
                                   {| link := 2; existed := false |} |}] |}
                        [0] (examples.chain examples.indexing []))))
    by (vm_compute; reflexivity).
  split; [exact E|].
  exact (proj1 (index_block_outcome _ _ _ _ _ _ E)).
Defined.

(** X18. [index(tx)]. With the address index off, or on a transaction whose
    metadata says it existed, it returns success and does nothing at all,
    recorded or not. It never changes the block store or the transaction
    store. When it succeeds otherwise the transaction is recorded and its
    link has been appended to the address store. *)
Theorem index_transaction_outcome (tx : transaction)
    (addresses addresses' : address_database.t) (db db' : data_base)
    (ec : code) :
  public_writers.index_transaction tx addresses db = (ec, addresses', db') ->
  blocks_ db' = blocks_ db /\ transactions_ db' = transactions_ db /\
  (negb (index_addresses (settings_ db)) || existed (tx_metadata tx) = true ->
   ec = success /\ addresses' = addresses /\ db' = db) /\
  (negb (index_addresses (settings_ db)) || existed (tx_metadata tx) = false ->
   ec = success ->
   addresses' = addresses ++ [link (tx_metadata tx)] /\
   exists l,
     transaction_database.find_link (transactions_ db) (tx_hash tx) 0
     = Some l).
Proof.
  intros H. unfold public_writers.index_transaction in H.
  unfold bind at 1 in H. unfold gets at 1 in H. cbv zeta in H.
  destruct (negb (index_addresses (settings_ db)) || existed (tx_metadata tx)).
  { injection H as <- <- <-. repeat split; auto; discriminate. }
  unfold bind at 1 in H. unfold gets at 1 in H.
  unfold preconditions.verify_exists in H.
  destruct (transaction_database.find_link (transactions_ db) (tx_hash tx) 0)
    as [l|] eqn:F; cbn [is_error] in H.
  2:{ injection H as <- <- <-. repeat split; auto; discriminate. }
  run_step H ok0 db0 E0. apply begin_write_frame in E0.
  destruct E0 as (_ & B0 & X0).
  destruct ok0; cbn [negb] in H.
  2:{ injection H as <- <- <-. repeat split; auto; discriminate. }
  run_step H u1 db1 E1. apply leaf_commit_frame in E1.
  destruct E1 as (_ & B1 & X1 & _).
  run_step H ec2 db2 E2. apply finish_write_result in E2.
  destruct E2 as (_ & _ & B2 & X2).
  injection H as <- <- <-.
  repeat split; auto; try congruence; try discriminate.
  now exists l.
Qed.

(** A transaction that is not recorded and whose metadata says it existed:
    success, and nothing is done. *)
Lemma index_transaction_outcome_witness :
  public_writers.index_transaction (scenarios.linked 9999 9) [0]
    (examples.chain examples.indexing [])
  = (success, [0], examples.chain examples.indexing []).
Proof.
  destruct (index_transaction_outcome (scenarios.linked 9999 9) [0] _
              (examples.chain examples.indexing []) _ _
              (pairing3 (public_writers.index_transaction
                           (scenarios.linked 9999 9) [0]
                           (examples.chain examples.indexing []))))
    as (_ & _ & K & _).
  destruct (K ltac:(vm_compute; reflexivity)) as (A & B & C).
  rewrite (pairing3 (public_writers.index_transaction
                       (scenarios.linked 9999 9) [0]
                       (examples.chain examples.indexing []))).
  rewrite A, B, C. reflexivity.
Defined.

(** ** The links of the transactions *)

Lemma find_link_get (t : transaction_database.t) (h : hash_digest) :
  forall k l,
    transaction_database.find_link t h k = Some l ->
    exists rec,
      at_position t (l - k) = Some rec /\
      transaction_database.rec_tx_hash rec = h.
Proof.
  induction t as [|r t IH]; intros k l H;
    cbn [transaction_database.find_link] in H.
  - discriminate.
  - destruct (Z.eqb_spec (transaction_database.rec_tx_hash r) h) as [E|E].
    + injection H as <-. exists r. rewrite Z.sub_diag. split; [reflexivity|exact E].
    + apply IH in H. destruct H as (rec & Ha & Hh). exists rec.
      split; [|exact Hh]. cbn [at_position].
      pose proof (at_position_range _ _ _ Ha) as Hr.
      destruct (Z.eqb_spec (l - k) 0); [lia|].
      replace (l - k - 1) with (l - (k + 1)) by lia. exact Ha.
Qed.

Lemma store_one_resolves (t t' : transaction_database.t)
    (tx tx' : transaction) :
  transaction_database.store_one t tx = (t', tx') ->
  (exists more, t' = t ++ more) /\
  tx_hash tx' = tx_hash tx /\ resolves t' tx'.
Proof.
  unfold transaction_database.store_one.
  destruct (transaction_database.find_link t (tx_hash tx) 0) as [l|] eqn:F;
    intros H; injection H as <- <-.
  - split; [exists []; now rewrite app_nil_r|]. split; [reflexivity|].
    apply find_link_get in F. destruct F as (rec & Ha & Hh).
    rewrite Z.sub_0_r in Ha. exists rec. split; assumption.
  - split; [eexists; reflexivity|]. split; [reflexivity|].
    eexists. split; [apply at_position_last|reflexivity].
Qed.

Lemma resolves_app (t more : transaction_database.t) (tx : transaction) :
  resolves t tx -> resolves (t ++ more) tx.
Proof.
  intros (rec & Ha & Hh). exists rec. split; [|exact Hh].
  now apply at_position_app_l.
Qed.

Lemma store_resolves (txs : list transaction) :
  forall (t t' : transaction_database.t) (ok : bool)
         (txs' : list transaction),
    transaction_database.store t txs = (ok, t', txs') ->
    (exists more, t' = t ++ more) /\ Forall (resolves t') txs'.
Proof.
  induction txs as [|tx txs IH]; intros t t' ok txs' H;
    cbn [transaction_database.store] in H.
  - injection H as _ <- <-. split; [exists []; now rewrite app_nil_r|].
    constructor.
  - destruct (transaction_database.store_one t tx) as [t1 tx1] eqn:E1.
    destruct (transaction_database.store t1 txs) as [[ok2 t2] rest] eqn:E2.
    injection H as _ <- <-.
    apply store_one_resolves in E1. destruct E1 as ([m1 ->] & _ & R1).
    apply IH in E2. destruct E2 as ([m2 ->] & R2).
    split; [exists (m1 ++ m2); now rewrite app_assoc|].
    constructor; [now apply resolves_app|exact R2].
Qed.

Lemma rewrite_at_get (f : transaction_database.tx_record ->
                          transaction_database.tx_record) :
  forall (t t' : transaction_database.t) (l : link_type),
    transaction_database.rewrite_at f t l = Some t' ->
    forall l',
      at_position t' l'
      = if l' =? l then option_map f (at_position t l') else at_position t l'.
Proof.
  induction t as [|r t IH]; intros t' l H l';
    cbn [transaction_database.rewrite_at] in H.
  - discriminate.
  - destruct (Z.eqb_spec l 0) as [Hl|Hl].
    + injection H as <-. subst l. cbn [at_position].
      destruct (l' =? 0); reflexivity.
    + destruct (transaction_database.rewrite_at f t (l - 1)) as [rest|] eqn:E;
        [|discriminate].
      injection H as <-. cbn [at_position].
      destruct (Z.eqb_spec l' 0) as [Hl'|Hl'].
      * subst l'. destruct (Z.eqb_spec 0 l); [lia|reflexivity].
      * rewrite (IH _ _ E).
        destruct (Z.eqb_spec (l' - 1) (l - 1)), (Z.eqb_spec l' l);
          try lia; reflexivity.
Qed.

Lemma rewrite_at_present (f : transaction_database.tx_record ->
                              transaction_database.tx_record) :
  forall (t t' : transaction_database.t) (l : link_type),
    transaction_database.rewrite_at f t l = Some t' ->
    exists rec, at_position t l = Some rec.
Proof.
  induction t as [|r t IH]; intros t' l H;
    cbn [transaction_database.rewrite_at] in H.
  - discriminate.
  - cbn [at_position]. destruct (l =? 0); [now exists r|].
    destruct (transaction_database.rewrite_at f t (l - 1)) as [rest|] eqn:E;
      [|discriminate].
    exact (IH _ _ E).
Qed.

(** A [confirm] of a list that succeeds: every link of the list is
    confirmed at the height, and the records are otherwise as before. *)
Lemma confirm_from_confirms (height : size_t) (mtp : Z)
    (txs : list transaction) :
  forall (t t' : transaction_database.t) (position : Z),
    transaction_database.confirm_from t txs height mtp position = (true, t') ->
    (forall l rec,
       at_position t l = Some rec ->
       exists rec',
         at_position t' l = Some rec' /\
         transaction_database.rec_tx_hash rec'
         = transaction_database.rec_tx_hash rec /\
         ((exists q, transaction_database.rec_confirmation rec
                     = Some (height, mtp, q)) ->
          exists q, transaction_database.rec_confirmation rec'
                    = Some (height, mtp, q))) /\
    Forall (fun tx =>
              exists rec q,
                at_position t' (link (tx_metadata tx)) = Some rec /\
                transaction_database.rec_confirmation rec
                = Some (height, mtp, q)) txs.
Proof.
  induction txs as [|tx txs IH]; intros t t' position H;
    cbn [transaction_database.confirm_from] in H.
  - injection H as <-. split; [|constructor].
    intros l rec Ha. exists rec. repeat split; auto.
  - unfold transaction_database.confirm, transaction_database.apply_at in H.
    destruct (transaction_database.rewrite_at _ t (link (tx_metadata tx)))
      as [t1|] eqn:E; [|discriminate H].
    pose proof (rewrite_at_get _ _ _ _ E) as G.
    destruct (rewrite_at_present _ _ _ _ E) as [rec0 P].
    apply IH in H. destruct H as [K A].
    assert (K1 : forall l rec,
               at_position t l = Some rec ->
               exists rec',
                 at_position t1 l = Some rec' /\
                 transaction_database.rec_tx_hash rec'
                 = transaction_database.rec_tx_hash rec /\
                 ((exists q, transaction_database.rec_confirmation rec
                             = Some (height, mtp, q)) ->
                  exists q, transaction_database.rec_confirmation rec'
                            = Some (height, mtp, q))).
    { intros l rec Ha. rewrite G.
      destruct (l =? link (tx_metadata tx)).
      - rewrite Ha. cbn [option_map]. eexists. split; [reflexivity|].
        split; [reflexivity|]. intros _. eexists. reflexivity.
      - exists rec. repeat split; auto. }
    split.
    + intros l rec Ha. destruct (K1 _ _ Ha) as (r1 & A1 & H1 & C1).
      destruct (K _ _ A1) as (r2 & A2 & H2 & C2).
      exists r2. split; [exact A2|]. split; [congruence|]. auto.
    + constructor; [|exact A].
      destruct (K1 _ _ P) as (r1 & A1 & _ & _).
      assert (C : exists q, transaction_database.rec_confirmation r1
                            = Some (height, mtp, q)).
      { rewrite G, Z.eqb_refl, P in A1. cbn [option_map] in A1.
        injection A1 as <-. eexists. reflexivity. }
      destruct (K _ _ A1) as (r2 & A2 & _ & C2).
      destruct (C2 C) as [q Hq]. exists r2, q. split; assumption.
Qed.

(** ** The record of the header *)

Lemma update_record (b b' : block_database.t) (blk : block) :
  block_database.update b blk = (true, b') ->
  exists r',
    block_database.get_hash b' (block_hash blk) = Some r' /\
    block_database.rec_links r'
    = map (fun tx => link (tx_metadata tx)) (transactions blk).
Proof.
  unfold block_database.update, block_database.get_hash.
  destruct (block_database.find_record (block_database.table b) (block_hash blk))
    as [r|] eqn:F; [|discriminate].
  intros H. injection H as <-.
  cbn [block_database.table block_database.with_table].
  edestruct (find_rewrite_record
               (fun r =>
                  {| block_database.rec_hash := block_database.rec_hash r;
                     block_database.rec_previous := block_database.rec_previous r;
                     block_database.rec_fields := block_database.rec_fields r;
                     block_database.rec_height := block_database.rec_height r;
                     block_database.rec_median_time_past :=
                       block_database.rec_median_time_past r;
                     block_database.rec_validated :=
                       block_database.rec_validated r;
                     block_database.rec_error := block_database.rec_error r;
                     block_database.rec_links :=
                       map (fun tx => link (tx_metadata tx))
                           (transactions blk) |})
               (block_hash blk) (block_hash blk) (block_database.table b))
    as (r' & Hf & _ & _ & Hr); [reflexivity|exact F|].
  exists r'. split; [exact Hf|]. rewrite Hr, Z.eqb_refl. reflexivity.
Qed.

Lemma validate_record (b b' : block_database.t) (h : hash_digest) (ec : code)
    (r : block_database.block_record) :
  block_database.validate b h ec = (true, b') ->
  block_database.get_hash b h = Some r ->
  exists r',
    block_database.get_hash b' h = Some r' /\
    block_database.rec_links r' = block_database.rec_links r /\
    block_database.rec_validated r' = true /\
    block_database.rec_error r' = ec.
Proof.
  unfold block_database.validate, block_database.get_hash. intros H F.
  rewrite F in H. injection H as <-.
  cbn [block_database.table block_database.with_table].
  edestruct (find_rewrite_record
               (fun r =>
                  {| block_database.rec_hash := block_database.rec_hash r;
                     block_database.rec_previous := block_database.rec_previous r;
                     block_database.rec_fields := block_database.rec_fields r;
                     block_database.rec_height := block_database.rec_height r;
                     block_database.rec_median_time_past :=
                       block_database.rec_median_time_past r;
                     block_database.rec_validated := true;
                     block_database.rec_error := ec;
                     block_database.rec_links := block_database.rec_links r |})
               h h (block_database.table b))
    as (r' & Hf & _ & _ & Hr); [reflexivity|exact F|].
  exists r'. split; [exact Hf|]. rewrite Hr, Z.eqb_refl. repeat split.
Qed.

Lemma get_hash_with_index (b : block_database.t) (c : bool)
    (idx : list hash_digest) (h : hash_digest) :
  block_database.get_hash (block_database.with_index b c idx) h
  = block_database.get_hash b h.
Proof. reflexivity. Qed.

(** ** [push]: the links and the confirmations *)

(** X19. When [push] returns success, the block it returns has the header and
    the transaction hashes of the block pushed; the record of the header is
    validated with success and holds the links of those transactions, in
    order; and every one of those links resolves to a record of the hash of
    its transaction, confirmed at the height and median time past of the
    push. *)
Theorem push_binds_and_confirms (B B' : block) (h : size_t) (mtp : Z)
    (db db' : data_base) :
  push B h mtp db = (success, B', db') ->
  block_header B' = block_header B /\
  map tx_hash (transactions B') = map tx_hash (transactions B) /\
  (exists r,
     block_database.get_hash (blocks_ db') (block_hash B) = Some r /\
     block_database.rec_links r
     = map (fun tx => link (tx_metadata tx)) (transactions B') /\
     block_database.rec_validated r = true /\
     block_database.rec_error r = success) /\
  Forall (confirmed_at (transactions_ db') h mtp) (transactions B').
Proof.
  intros H. unfold push in H.
  run_step H ok0 db0 E0. destruct ok0; cbn [negb] in H; [|failed_branch H].
  run_step H u1 db1 E1.
  run_step H ok2 db2 E2. destruct ok2; cbn [negb] in H; [|failed_branch H].
  run_step H r3 db3 E3. destruct r3 as [ok3 txs].
  destruct ok3; cbn [negb] in H; [|failed_branch H].
  run_step H ok4 db4 E4. destruct ok4; cbn [negb] in H; [|failed_branch H].
  run_step H ok5 db5 E5. destruct ok5; cbn [negb] in H; [|failed_branch H].
  run_step H ok6 db6 E6. destruct ok6; cbn [negb] in H; [|failed_branch H].
  run_step H ok7 db7 E7. destruct ok7; cbn [negb] in H; [|failed_branch H].
  run_step H u8 db8 E8.
  run_step H ec9 db9 E9.
  unfold ret in H. inversion H; subst ec9 B' db9. clear H.
  cbn [block_hash block_header transactions] in *.
  apply transactions_store_frame in E3. destruct E3 as (_ & _ & S3 & _).
  apply on_blocks_frame in E4. destruct E4 as (_ & B4 & X4 & _).
  apply on_transactions_frame in E5. destruct E5 as (_ & S5 & B5 & _).
  apply on_blocks_frame in E6. destruct E6 as (_ & B6 & X6 & _).
  apply on_blocks_frame in E7. destruct E7 as (_ & B7 & X7 & _).
  apply commit_frame in E8. destruct E8 as (_ & B8 & X8 & _).
  apply finish_write_result in E9. destruct E9 as (_ & _ & B9 & X9).
  split; [reflexivity|]. split; [exact (store_hashes _ _ _ _ _ S3)|]. split.
  - apply update_record in B4. destruct B4 as (r4 & G4 & L4).
    cbn [block_hash block_header transactions] in G4, L4.
    rewrite <- B5 in G4.
    destruct (validate_record _ _ _ _ _ B6 G4) as (r6 & G6 & L6 & V6 & R6).
    apply index_true in B7. destruct B7 as (_ & B7 & _).
    exists r6. rewrite B9, B8, B7, get_hash_with_index.
    repeat split; try assumption. congruence.
  - apply store_resolves in S3. destruct S3 as [_ R3].
    unfold transaction_database.confirm_all in S5. rewrite X4 in S5.
    apply confirm_from_confirms in S5. destruct S5 as [K A].
    rewrite X9, X8, X7, X6.
    rewrite Forall_forall in *. intros tx Hin.
    destruct (R3 tx Hin) as (rec & Ha & Hh).
    destruct (A tx Hin) as (rec' & q & Ha' & Hq).
    destruct (K _ _ Ha) as (rec2 & Ha2 & Hh2 & _).
    exists rec', q. unfold transaction_database.get.
    split; [exact Ha'|]. split; [|exact Hq]. congruence.
Qed.

(** The block [101], of two transactions, pushed on the store that holds
    the genesis. *)
Lemma push_binds_and_confirms_witness :
  fst (fst (push (examples.a_block 101 100 [1001; 1002]) 1 11
              scenarios.created))
  = success /\
  (exists r,
     block_database.get_hash
       (blocks_ (snd (push (examples.a_block 101 100 [1001; 1002]) 1 11
                        scenarios.created))) 101
     = Some r /\
     block_database.rec_links r = [1; 2] /\
     block_database.rec_validated r = true /\
     block_database.rec_error r = success) /\
  Forall (confirmed_at
            (transactions_ (snd (push (examples.a_block 101 100 [1001; 1002])
                                   1 11 scenarios.created)))
            1 11)
         (transactions
            (snd (fst (push (examples.a_block 101 100 [1001; 1002]) 1 11
                         scenarios.created)))).
Proof.
  split; [vm_compute; reflexivity|].
  destruct (push_binds_and_confirms (examples.a_block 101 100 [1001; 1002])
              (snd (fst (push (examples.a_block 101 100 [1001; 1002]) 1 11
                           scenarios.created)))
              1 11 scenarios.created
              (snd (push (examples.a_block 101 100 [1001; 1002]) 1 11
                      scenarios.created))
              ltac:(vm_compute; reflexivity))
    as (_ & _ & (r & G & L & V & R) & A).
  split; [|exact A].
  exists r. split; [exact G|]. split; [|split; assumption].
  rewrite L. vm_compute; reflexivity.
Defined.

(** ** [update] *)

(** X20. When [update] returns success, the block it returns has the header
    and the transaction hashes of the block given; the record of the header
    holds the links of those transactions, in order, and every one of them
    resolves to a record of the hash of its transaction; the two indices
    are as before. *)
Theorem update_binds_links (b b' : block) (height : size_t)
    (db db' : data_base) :
  public_writers.update b height db = (success, b', db') ->
  block_header b' = block_header b /\
  map tx_hash (transactions b') = map tx_hash (transactions b) /\
  (exists r,
     block_database.get_hash (blocks_ db') (block_hash b) = Some r /\
     block_database.rec_links r
     = map (fun tx => link (tx_metadata tx)) (transactions b')) /\
  Forall (resolves (transactions_ db')) (transactions b') /\
  block_database.candidate_index (blocks_ db')
  = block_database.candidate_index (blocks_ db) /\
  block_database.confirmed_index (blocks_ db')
  = block_database.confirmed_index (blocks_ db).
Proof.
  intros H. unfold public_writers.update in H.
  unfold bind at 1 in H. unfold gets at 1 in H. cbv zeta in H.
  destruct (is_error (preconditions.verify_update (blocks_ db) b height))
    eqn:V.
  { injection H as H _ _. rewrite H in V. discriminate V. }
  run_step H ok0 db0 E0. destruct ok0; cbn [negb] in H; [|failed_branch H].
  run_step H r1 db1 E1. destruct r1 as [ok1 txs].
  destruct ok1; cbn [negb] in H; [|failed_branch H].
  run_step H ok2 db2 E2. destruct ok2; cbn [negb] in H; [|failed_branch H].
  run_step H u3 db3 E3.
  run_step H ec4 db4 E4.
  unfold ret in H. inversion H; subst ec4 b' db4. clear H.
  cbn [block_hash block_header transactions] in *.
  apply begin_write_frame in E0. destruct E0 as (_ & B0 & X0).
  apply transactions_store_frame in E1. destruct E1 as (_ & B1 & S1 & _).
  apply on_blocks_frame in E2. destruct E2 as (_ & B2 & X2 & _).
  apply commit_frame in E3. destruct E3 as (_ & B3 & X3 & _).
  apply finish_write_result in E4. destruct E4 as (_ & _ & B4 & X4).
  destruct (update_indices _ _ _ _ B2) as [C2 F2].
  split; [reflexivity|]. split; [exact (store_hashes _ _ _ _ _ S1)|].
  repeat split.
  - apply update_record in B2. destruct B2 as (r2 & G2 & L2).
    exists r2. rewrite B4, B3. split; assumption.
  - apply store_resolves in S1. destruct S1 as [_ R1].
    now rewrite X4, X3, X2.
  - rewrite B4, B3, C2, B1. now rewrite B0.
  - rewrite B4, B3, F2, B1. now rewrite B0.
Qed.

(** The header [102], confirmed with no transaction, is given a
    transaction that is recorded and one that is not. *)
Lemma update_binds_links_witness :
  fst (fst (public_writers.update (examples.a_block 102 101 [1001; 3000]) 2
              scenarios.confirmed_102))
  = success /\
  (exists r,
     block_database.get_hash
       (blocks_ (snd (public_writers.update
                        (examples.a_block 102 101 [1001; 3000]) 2
                        scenarios.confirmed_102))) 102
     = Some r /\
     block_database.rec_links r = [1; 3]) /\
  Forall (resolves
            (transactions_ (snd (public_writers.update
                                   (examples.a_block 102 101 [1001; 3000]) 2
                                   scenarios.confirmed_102))))
         (transactions
            (snd (fst (public_writers.update
                         (examples.a_block 102 101 [1001; 3000]) 2
                         scenarios.confirmed_102)))).
Proof.
  split; [vm_compute; reflexivity|].
  destruct (update_binds_links (examples.a_block 102 101 [1001; 3000])
              (snd (fst (public_writers.update
                           (examples.a_block 102 101 [1001; 3000]) 2
                           scenarios.confirmed_102)))
              2 scenarios.confirmed_102
              (snd (public_writers.update
                      (examples.a_block 102 101 [1001; 3000]) 2
                      scenarios.confirmed_102))
              ltac:(vm_compute; reflexivity))
    as (_ & _ & (r & G & L) & A & _).
  split; [|exact A].
  exists r. split; [exact G|]. rewrite L. vm_compute; reflexivity.
Defined.

(** ** [invalidate] then [candidate] *)

(** X21. Once [invalidate] has recorded a verdict that is an error on a
    header, [candidate] on a block of that header returns
    [operation_failed], changes nothing and makes no call. *)
Theorem invalidate_then_candidate (h h' : header) (err : code) (b : block)
    (db db' : data_base) :
  invalidate h err db = (success, h', db') ->
  is_error err = true ->
  block_hash b = hash h ->
  public_writers.candidate b db' = (operation_failed, b, db').
Proof.
  intros H He Hb. unfold invalidate in H.
  unfold bind at 1 in H. unfold gets at 1 in H. cbv zeta in H.
  unfold verify.verify_exists in H.
  destruct (block_database.get_hash (blocks_ db) (hash h)) as [r|] eqn:G;
    cbn [is_error] in H; [|discriminate H].
  run_step H ok0 db0 E0. destruct ok0; cbn [negb] in H; [|failed_branch H].
  run_step H ok1 db1 E1. destruct ok1; cbn [negb] in H; [|failed_branch H].
  run_step H ec2 db2 E2.
  unfold ret in H. inversion H; subst ec2 h' db2. clear H.
  apply begin_write_frame in E0. destruct E0 as (_ & B0 & _).
  apply on_blocks_frame in E1. destruct E1 as (_ & B1 & _).
  apply finish_write_result in E2. destruct E2 as (_ & _ & B2 & _).
  rewrite <- B0 in G.
  destruct (validate_record _ _ _ _ _ B1 G) as (r' & G' & _ & V' & R').
  unfold public_writers.candidate, bind, gets. cbv zeta.
  unfold preconditions.verify_not_failed.
  rewrite Hb, B2, G', V', R', He. reflexivity.
Qed.

Lemma invalidate_then_candidate_witness :
  fst (fst (invalidate (examples.a_header 102 101) (validation_failure 7)
              scenarios.chain))
  = success /\
  public_writers.candidate scenarios.block_102
    (snd (invalidate (examples.a_header 102 101) (validation_failure 7)
            scenarios.chain))
  = (operation_failed, scenarios.block_102,
     snd (invalidate (examples.a_header 102 101) (validation_failure 7)
            scenarios.chain)).
Proof.
  split; [vm_compute; reflexivity|].
  refine (invalidate_then_candidate (examples.a_header 102 101)
            (snd (fst (invalidate (examples.a_header 102 101)
                         (validation_failure 7) scenarios.chain)))
            (validation_failure 7) scenarios.block_102 scenarios.chain
            _ _ _ _).
  - vm_compute; reflexivity.
  - reflexivity.
  - reflexivity.
Defined.

(** ** The reorganizations: the index they leave *)

Lemma index_recorded (b : block_database.t) (h : hash_digest)
    (height : size_t) (c : bool) (r : block_database.block_record) :
  height = size (block_database.index_of b c) ->
  block_database.get_hash b h = Some r ->
  block_database.index b h height c
  = (true, block_database.with_index b c (block_database.index_of b c ++ [h])).
Proof.
  intros -> G. unfold block_database.index, block_database.get_hash in *.
  now rewrite Z.eqb_refl, G.
Qed.

Lemma get_hash_stored (b : block_database.t) (h : header) (height : size_t)
    (mtp : Z) (h' : hash_digest) (r : block_database.block_record) :
  block_database.get_hash b h' = Some r ->
  exists r',
    block_database.get_hash (block_database.store b h height mtp) h' = Some r'.
Proof.
  intros G. unfold block_database.get_hash, block_database.store,
    block_database.with_table, block_database.find_record in *.
  cbn [block_database.table find block_database.rec_hash].
  destruct (hash h =? h'); [eexists; reflexivity|]. now exists r.
Qed.

Lemma push_header_success_index (h : header) (height : size_t) (mtp : Z)
    (db db1 : data_base) :
  header_reorganization.push_header h height mtp db = (success, db1) ->
  exists_is_accurate (blocks_ db) h ->
  block_database.candidate_index (blocks_ db1)
  = block_database.candidate_index (blocks_ db) ++ [hash h] /\
  forall h' r,
    block_database.get_hash (blocks_ db) h' = Some r ->
    exists r', block_database.get_hash (blocks_ db1) h' = Some r'.
Proof.
  intros H Ha. apply push_header_done in H. destruct H as [Hh ->].
  unfold exists_is_accurate in Ha.
  destruct (exists_ (metadata h)).
  - destruct (Ha eq_refl) as [r Hr].
    rewrite (index_recorded _ _ _ true r Hh Hr). cbn [snd].
    split; [reflexivity|]. intros h' r' G. now exists r'.
  - rewrite (index_recorded (block_database.store (blocks_ db) h height mtp)
               _ _ true (stored_record h height mtp) Hh
               (get_hash_store _ _ _ _)).
    cbn [snd]. split; [reflexivity|]. intros h' r' G.
    rewrite get_hash_with_index. exact (get_hash_stored _ _ _ _ _ _ G).
Qed.

Lemma push_from_headers_index (headers : list header) :
  forall (first_height index : size_t) (db db' : data_base),
    (forall h, In h headers -> exists_is_accurate (blocks_ db) h) ->
    header_reorganization.push_from headers first_height index db
    = (true, db') ->
    block_database.candidate_index (blocks_ db')
    = block_database.candidate_index (blocks_ db) ++ map hash headers.
Proof.
  induction headers as [|h headers IH]; intros first_height index db db' Ha H;
    cbn [header_reorganization.push_from] in H.
  - injection H as <-. cbn [map]. now rewrite app_nil_r.
  - run_step H ec db1 E. destruct (is_error ec) eqn:Hec; [discriminate H|].
    apply is_error_false in Hec. subst ec.
    apply push_header_success_index in E; [|apply Ha; now left].
    destruct E as [C G]. apply IH in H.
    + rewrite H, C. cbn [map]. now rewrite <- app_assoc.
    + intros h' Hin He. destruct (Ha h' (or_intror Hin) He) as [r Hr].
      exact (G _ _ Hr).
Qed.

Lemma push_from_headers_recorded (headers : list header) :
  forall (first_height index : size_t) (db db' : data_base),
    header_reorganization.push_from headers first_height index db
    = (true, db') ->
    forall h r,
      block_database.get_hash (blocks_ db) h = Some r ->
      exists r', block_database.get_hash (blocks_ db') h = Some r'.
Proof.
  intros first_height index db db' H h r G.
  assert (K : keeps grown (header_reorganization.push_from headers
                             first_height index)).
  { apply keeps_push_from_headers;
      [ exact grown_refl | exact grown_trans | ].
    intros hd hh hm. apply keeps_push_header.
    - exact grown_refl.
    - exact grown_trans.
    - intros b t x y z. apply grown_table. intros h1 r1 G1.
      exact (get_hash_stored _ _ _ _ _ _ G1).
    - intros b t x y b' Hi. apply index_true in Hi.
      destruct Hi as (_ & -> & _). apply grown_table. eauto. }
  destruct (K _ _ _ H) as [Kb _]. exact (Kb _ _ G).
Qed.

Lemma size_map {A B : Type} (f : A -> B) (l : list A) :
  size (map f l) = size l.
Proof.
  induction l as [|x l IH]; cbn [map size]; [reflexivity|now rewrite IH].
Qed.

Lemma top_hash (b : block_database.t) (c : bool) (height : size_t)
    (r : block_database.block_record) (x : hash_digest) :
  size (block_database.index_of b c) = height + 1 ->
  block_database.index_of b c = removelast (block_database.index_of b c) ++ [x] ->
  block_database.get b height c = Some r ->
  block_database.rec_hash r = x /\ block_database.get_hash b x = Some r.
Proof.
  intros Hs Hx G. unfold block_database.get in G.
  assert (Hr : size (removelast (block_database.index_of b c)) = height).
  { apply (f_equal size) in Hx. rewrite size_app in Hx. cbn [size] in Hx. lia. }
  rewrite Hx, <- Hr, at_position_last in G.
  split; [exact (find_record_hash _ _ _ G)|exact G].
Qed.

Lemma pop_from_headers_index (fuel : nat) :
  forall (height fork : size_t) (headers out : list header)
         (db db' : data_base),
    0 <= fork <= height -> height <= max_size_t ->
    (fork < height ->
     size (block_database.candidate_index (blocks_ db)) = height + 1) ->
    (Z.to_nat (height - fork) <= fuel)%nat ->
    header_reorganization.pop_from fuel height fork headers db
    = (true, out, db') ->
    block_database.table (blocks_ db') = block_database.table (blocks_ db) /\
    exists popped,
      out = popped ++ headers /\
      block_database.candidate_index (blocks_ db)
      = block_database.candidate_index (blocks_ db') ++ map hash popped /\
      size popped = height - fork /\
      forall h, In h popped -> exists_is_accurate (blocks_ db) h.
Proof.
  induction fuel as [|fuel IH]; intros height fork headers out db db'
    Hf Hmax Hsize Hfuel H; cbn [header_reorganization.pop_from] in H.
  - injection H as <- <-. split; [reflexivity|]. exists [].
    cbn [map app]. rewrite app_nil_r. repeat split; [cbn [size]; lia|].
    intros h [].
  - destruct (Z.gtb_spec height fork) as [Hgt|Hle].
    2:{ injection H as <- <-. split; [reflexivity|]. exists [].
        cbn [map app]. rewrite app_nil_r. repeat split; [cbn [size]; lia|].
        intros h []. }
    specialize (Hsize ltac:(lia)).
    assert (Hv : verify.verify_top (blocks_ db) height true = success).
    { unfold verify.verify_top.
      rewrite (top_of_size (blocks_ db) true height) by (cbn; lia).
      now rewrite Z.eqb_refl. }
    run_step H r1 db1 E1. destruct r1 as [ec next].
    destruct (is_error ec) eqn:Hec; [discriminate H|].
    destruct (pop_header_done _ _ _ _ _ _ Hv E1 Hec) as (r & Hg & Hn & Hb).
    rewrite wrap_small in H by lia.
    assert (Hne : block_database.candidate_index (blocks_ db) <> []).
    { intros Hnil. rewrite Hnil in Hsize. cbn [size] in Hsize. lia. }
    apply IH in H; [| lia | lia | | lia].
    2:{ intros _. rewrite Hb. cbn [block_database.candidate_index
          block_database.with_index].
        rewrite size_removelast; [lia|exact Hne]. }
    destruct H as (Ht & popped & Ho & Hc & Hs & Ha).
    rewrite Hb in Ht, Hc.
    cbn [block_database.with_index block_database.table
         block_database.candidate_index] in Ht, Hc.
    split; [exact Ht|].
    destruct (split_last _ Hne) as [x Hx].
    destruct (top_hash (blocks_ db) true height r x Hsize Hx Hg) as [Hr Hgx].
    exists (popped ++ [next]). repeat split.
    + rewrite Ho. now rewrite <- app_assoc.
    + rewrite Hx at 1. rewrite Hc, map_app, Hn. cbn [map hash
        block_database.result_header]. rewrite Hr. now rewrite app_assoc.
    + rewrite size_app. cbn [size]. lia.
    + intros h Hin He. apply in_app_or in Hin. destruct Hin as [Hin|[<-|[]]].
      * destruct (Ha h Hin He) as [r' Hr']. exists r'.
        rewrite Hb in Hr'. exact Hr'.
      * exists r. rewrite Hn. cbn [hash block_database.result_header].
        now rewrite Hr.
Qed.

Lemma pop_above_headers_index (headers out : list header)
    (fork_point : checkpoint) (db db' : data_base) :
  size (block_database.candidate_index (blocks_ db)) <= max_size_t ->
  header_reorganization.pop_above headers fork_point db = (true, out, db') ->
  block_database.table (blocks_ db') = block_database.table (blocks_ db) /\
  block_database.candidate_index (blocks_ db)
  = block_database.candidate_index (blocks_ db') ++ map hash out /\
  size (block_database.candidate_index (blocks_ db'))
  = checkpoint_height fork_point + 1 /\
  forall h, In h out -> exists_is_accurate (blocks_ db) h.
Proof.
  intros Hmax H. unfold header_reorganization.pop_above in H.
  unfold bind at 1 in H. unfold gets at 1 in H. cbv zeta in H.
  destruct (is_error (verify.verify (blocks_ db) fork_point true)) eqn:Hv;
    [discriminate H|].
  assert (Hle : checkpoint_height fork_point
                < size (block_database.candidate_index (blocks_ db))).
  { unfold verify.verify, block_database.get in Hv.
    destruct (at_position _ (checkpoint_height fork_point)) as [x|] eqn:A;
      [|discriminate Hv].
    apply at_position_range in A. cbn [block_database.index_of] in A. lia. }
  apply verify_height_nonneg in Hv.
  destruct (block_database.top (blocks_ db) true) as [top|] eqn:Htop;
    [|discriminate H].
  apply top_size in Htop. destruct Htop as [_ Hsz].
  cbn [block_database.index_of] in Hsz.
  rewrite wrap_small in H by lia.
  destruct (Z.eqb_spec (top - checkpoint_height fork_point) 0) as [Hz|Hnz].
  - injection H as <- <-. cbn [map]. rewrite app_nil_r.
    repeat split; [lia|]. intros h [].
  - apply pop_from_headers_index in H;
      [| lia | lia | intros _; exact Hsz | lia].
    destruct H as (Ht & popped & -> & Hc & Hs & Ha).
    rewrite app_nil_r. repeat split; try assumption.
    apply (f_equal size) in Hc. rewrite size_app in Hc.
    rewrite size_map in Hc. lia.
Qed.

(** What a reorganization of headers that succeeds has done. *)
Lemma reorganize_headers_done (fork_point : checkpoint)
    (incoming outgoing out : list header) (db db' : data_base) :
  size (block_database.candidate_index (blocks_ db)) <= max_size_t ->
  (forall h, In h incoming -> exists_is_accurate (blocks_ db) h) ->
  header_reorganization.reorganize fork_point incoming outgoing db
  = (success, out, db') ->
  exists kept,
    size kept = checkpoint_height fork_point + 1 /\
    block_database.candidate_index (blocks_ db) = kept ++ map hash out /\
    block_database.candidate_index (blocks_ db') = kept ++ map hash incoming /\
    forall h, In h out -> exists_is_accurate (blocks_ db') h.
Proof.
  intros Hmax Ha H. unfold header_reorganization.reorganize in H.
  destruct (checkpoint_height fork_point >? _); [discriminate H|].
  run_step H r1 db1 E1. destruct r1 as [popped out1].
  run_step H ok2 db2 E2. injection H as Hr <- <-.
  destruct ok2; [|discriminate Hr].
  destruct popped; cbn [and_then] in E2; [|discriminate E2].
  apply pop_above_headers_index in E1; [|exact Hmax].
  destruct E1 as (Ht & Hc & Hs & Ho).
  unfold header_reorganization.push_all in E2. cbv zeta in E2.
  pose proof E2 as E2'.
  apply push_from_headers_index in E2.
  - exists (block_database.candidate_index (blocks_ db1)).
    repeat split; try assumption.
    intros h Hin He. destruct (Ho h Hin He) as [r Hr'].
    assert (G : exists r1, block_database.get_hash (blocks_ db1) (hash h)
                           = Some r1).
    { exists r. unfold block_database.get_hash in *. now rewrite Ht. }
    destruct G as [r1 G].
    exact (push_from_headers_recorded _ _ _ _ _ E2' _ _ G).
  - intros h Hin He. destruct (Ha h Hin He) as [r Hr'].
    exists r. unfold block_database.get_hash in *. now rewrite Ht.
Qed.

(** X22. When the reorganization of headers returns success, given that the
    [exists] flags of the incoming headers are accurate and that the size
    of the candidate index fits a machine integer: the candidate index was
    some entries up to the height of the fork point followed by the hashes
    of the outgoing headers, in order, and it is now those entries followed
    by the hashes of the incoming headers, in order. *)
Theorem reorganize_headers_success (fork_point : checkpoint)
    (incoming outgoing out : list header) (db db' : data_base) :
  size (block_database.candidate_index (blocks_ db)) <= max_size_t ->
  (forall h, In h incoming -> exists_is_accurate (blocks_ db) h) ->
  header_reorganization.reorganize fork_point incoming outgoing db
  = (success, out, db') ->
  exists kept,
    size kept = checkpoint_height fork_point + 1 /\
    block_database.candidate_index (blocks_ db) = kept ++ map hash out /\
    block_database.candidate_index (blocks_ db') = kept ++ map hash incoming.
Proof.
  intros Hmax Ha H.
  destruct (reorganize_headers_done _ _ _ _ _ _ Hmax Ha H)
    as (kept & Hs & Hc & Hc' & _).
  exists kept. repeat split; assumption.
Qed.

(** The headers [102] and [103] replaced by the headers [104] and [105]. *)
Lemma reorganize_headers_success_witness :
  fst (fst (header_reorganization.reorganize scenarios.fork_101
              [examples.a_header 104 101; examples.a_header 105 104] []
              scenarios.chain))
  = success /\
  map hash
    (snd (fst (header_reorganization.reorganize scenarios.fork_101
                 [examples.a_header 104 101; examples.a_header 105 104] []
                 scenarios.chain)))
  = [102; 103] /\
  exists kept,
    size kept = 1 + 1 /\
    block_database.candidate_index (blocks_ scenarios.chain)
    = kept
      ++ map hash
           (snd (fst (header_reorganization.reorganize scenarios.fork_101
                        [examples.a_header 104 101; examples.a_header 105 104]
                        [] scenarios.chain))) /\
    block_database.candidate_index
      (blocks_ (snd (header_reorganization.reorganize scenarios.fork_101
                       [examples.a_header 104 101; examples.a_header 105 104]
                       [] scenarios.chain)))
    = kept ++ [104; 105].
Proof.
  split; [vm_compute; reflexivity|]. split; [vm_compute; reflexivity|].
  refine (reorganize_headers_success scenarios.fork_101
            [examples.a_header 104 101; examples.a_header 105 104] [] _
            scenarios.chain _ _ _ _).
  - vm_compute. discriminate.
  - intros h [<-|[<-|[]]] He; discriminate He.
  - vm_compute; reflexivity.
Defined.

Lemma push_from_blocks_index (blocks : list block) :
  forall (first_height index : size_t) (db db' : data_base),
    block_reorganization.push_from blocks first_height index db
    = (Some true, db') ->
    block_database.confirmed_index (blocks_ db')
    = block_database.confirmed_index (blocks_ db) ++ map block_hash blocks /\
    block_database.candidate_index (blocks_ db')
    = block_database.candidate_index (blocks_ db) /\
    forall i b,
      at_position blocks i = Some b ->
      at_position (block_database.candidate_index (blocks_ db))
        (size (block_database.confirmed_index (blocks_ db)) + i)
      = Some (block_hash b).
Proof.
  induction blocks as [|b blocks IH]; intros first_height index db db' H;
    cbn [block_reorganization.push_from] in H.
  - injection H as <-. cbn [map]. rewrite app_nil_r.
    repeat split. intros i b Hi. discriminate Hi.
  - run_step H pushed db1 E. destruct pushed as [ec|]; [|discriminate H].
    destruct (is_error ec) eqn:Hec; [discriminate H|].
    apply is_error_false in Hec. subst ec.
    apply push_block_done in E. destruct E as (Hh & Ha & _ & B1 & _).
    apply IH in H. destruct H as (F & C & A). rewrite B1 in F, C, A.
    cbn [block_database.with_index block_database.confirmed_index
         block_database.candidate_index] in F, C, A.
    split; [|split].
    + rewrite F. cbn [map]. now rewrite <- app_assoc.
    + exact C.
    + intros i b' Hi. cbn [at_position] in Hi.
      destruct (Z.eqb_spec i 0) as [Hz|Hnz].
      * injection Hi as <-. subst i. rewrite Z.add_0_r, <- Hh. exact Ha.
      * apply A in Hi. rewrite size_app in Hi. cbn [size] in Hi.
        replace (size (block_database.confirmed_index (blocks_ db)) + i)
          with (size (block_database.confirmed_index (blocks_ db)) + (0 + 1)
                + (i - 1)) by lia.
        exact Hi.
Qed.

Lemma pop_from_blocks_index (fuel : nat) :
  forall (height fork : size_t) (blocks out : list block)
         (db db' : data_base),
    0 <= fork <= height -> height <= max_size_t ->
    (fork < height ->
     size (block_database.confirmed_index (blocks_ db)) = height + 1) ->
    (Z.to_nat (height - fork) <= fuel)%nat ->
    block_reorganization.pop_from fuel height fork blocks db
    = (true, out, db') ->
    block_database.candidate_index (blocks_ db')
    = block_database.candidate_index (blocks_ db) /\
    exists popped,
      out = popped ++ blocks /\
      block_database.confirmed_index (blocks_ db)
      = block_database.confirmed_index (blocks_ db') ++ map block_hash popped /\
      size popped = height - fork.
Proof.
  induction fuel as [|fuel IH]; intros height fork blocks out db db'
    Hf Hmax Hsize Hfuel H; cbn [block_reorganization.pop_from] in H.
  - injection H as <- <-. split; [reflexivity|]. exists [].
    cbn [map app]. rewrite app_nil_r. repeat split. cbn [size]. lia.
  - destruct (Z.gtb_spec height fork) as [Hgt|Hle].
    2:{ injection H as <- <-. split; [reflexivity|]. exists [].
        cbn [map app]. rewrite app_nil_r. repeat split. cbn [size]. lia. }
    specialize (Hsize ltac:(lia)).
    assert (Hv : verify.verify_top (blocks_ db) height false = success).
    { unfold verify.verify_top.
      rewrite (top_of_size (blocks_ db) false height) by (cbn; lia).
      now rewrite Z.eqb_refl. }
    run_step H r1 db1 E1. destruct r1 as [ec next].
    destruct (is_error ec) eqn:Hec; [discriminate H|].
    destruct (pop_block_done _ _ _ _ _ _ Hv E1 Hec) as (r & Hg & Hn & Hb & _).
    rewrite wrap_small in H by lia.
    assert (Hne : block_database.confirmed_index (blocks_ db) <> []).
    { intros Hnil. rewrite Hnil in Hsize. cbn [size] in Hsize. lia. }
    apply IH in H; [| lia | lia | | lia].
    2:{ intros _. rewrite Hb. cbn [block_database.confirmed_index
          block_database.with_index].
        rewrite size_removelast; [lia|exact Hne]. }
    destruct H as (Ht & popped & Ho & Hc & Hs).
    rewrite Hb in Ht, Hc.
    cbn [block_database.with_index block_database.confirmed_index
         block_database.candidate_index] in Ht, Hc.
    split; [exact Ht|].
    destruct (split_last _ Hne) as [x Hx].
    destruct (top_hash (blocks_ db) false height r x Hsize Hx Hg) as [Hr _].
    exists (popped ++ [next]). repeat split.
    + rewrite Ho. now rewrite <- app_assoc.
    + rewrite Hx at 1. rewrite Hc, map_app, Hn.
      cbn [map block_hash block_header hash block_database.result_header].
      rewrite Hr. now rewrite app_assoc.
    + rewrite size_app. cbn [size]. lia.
Qed.

Lemma pop_above_blocks_index (blocks out : list block)
    (fork_point : checkpoint) (db db' : data_base) :
  size (block_database.confirmed_index (blocks_ db)) <= max_size_t ->
  block_reorganization.pop_above blocks fork_point db = (true, out, db') ->
  block_database.candidate_index (blocks_ db')
  = block_database.candidate_index (blocks_ db) /\
  block_database.confirmed_index (blocks_ db)
  = block_database.confirmed_index (blocks_ db') ++ map block_hash out /\
  size (block_database.confirmed_index (blocks_ db'))
  = checkpoint_height fork_point + 1.
Proof.
  intros Hmax H. unfold block_reorganization.pop_above in H.
  unfold bind at 1 in H. unfold gets at 1 in H. cbv zeta in H.
  destruct (is_error (verify.verify (blocks_ db) fork_point false)) eqn:Hv;
    [discriminate H|].
  assert (Hle : checkpoint_height fork_point
                < size (block_database.confirmed_index (blocks_ db))).
  { unfold verify.verify, block_database.get in Hv.
    destruct (at_position _ (checkpoint_height fork_point)) as [x|] eqn:A;
      [|discriminate Hv].
    apply at_position_range in A. cbn [block_database.index_of] in A. lia. }
  apply verify_height_nonneg in Hv.
  destruct (block_database.top (blocks_ db) false) as [top|] eqn:Htop;
    [|discriminate H].
  apply top_size in Htop. destruct Htop as [_ Hsz].
  cbn [block_database.index_of] in Hsz.
  rewrite wrap_small in H by lia.
  destruct (Z.eqb_spec (top - checkpoint_height fork_point) 0) as [Hz|Hnz].
  - injection H as <- <-. cbn [map]. rewrite app_nil_r.
    repeat split. lia.
  - apply pop_from_blocks_index in H;
      [| lia | lia | intros _; exact Hsz | lia].
    destruct H as (Ht & popped & -> & Hc & Hs).
    rewrite app_nil_r. repeat split; try assumption.
    apply (f_equal size) in Hc. rewrite size_app in Hc.
    rewrite size_map in Hc. lia.
Qed.

(** What a reorganization of blocks that succeeds has done. *)
Lemma reorganize_blocks_done (fork_point : checkpoint)
    (incoming outgoing out : list block) (db db' : data_base) :
  size (block_database.confirmed_index (blocks_ db)) <= max_size_t ->
  block_reorganization.reorganize fork_point incoming outgoing db
  = (Some (success, out), db') ->
  block_database.candidate_index (blocks_ db')
  = block_database.candidate_index (blocks_ db) /\
  (forall i b,
     at_position incoming i = Some b ->
     at_position (block_database.candidate_index (blocks_ db))
       (checkpoint_height fork_point + 1 + i)
     = Some (block_hash b)) /\
  exists kept,
    size kept = checkpoint_height fork_point + 1 /\
    block_database.confirmed_index (blocks_ db) = kept ++ map block_hash out /\
    block_database.confirmed_index (blocks_ db')
    = kept ++ map block_hash incoming.
Proof.
  intros Hmax H. unfold block_reorganization.reorganize in H.
  destruct (checkpoint_height fork_point >? _); [discriminate H|].
  run_step H r1 db1 E1. destruct r1 as [popped out1].
  run_step H ok2 db2 E2. destruct ok2 as [ok2|]; [|discriminate H].
  injection H as Hr <- <-.
  destruct ok2; [|discriminate Hr].
  destruct popped; cbn [block_reorganization.and_then_push] in E2;
    [|discriminate E2].
  apply pop_above_blocks_index in E1; [|exact Hmax].
  destruct E1 as (Hc1 & Hc & Hs).
  unfold block_reorganization.push_all in E2. cbv zeta in E2.
  apply push_from_blocks_index in E2. destruct E2 as (F & C & A).
  split; [congruence|]. split.
  - intros i b Hi. rewrite <- Hs, <- Hc1. exact (A i b Hi).
  - exists (block_database.confirmed_index (blocks_ db1)).
    repeat split; assumption.
Qed.

(** X23. When the reorganization of blocks returns success, given that the
    size of the confirmed index fits a machine integer: the confirmed index
    was some entries up to the height of the fork point followed by the
    hashes of the outgoing blocks, in order, and it is now those entries
    followed by the hashes of the incoming blocks, in order; the candidate
    index is as before, and it has the hash of each incoming block at the
    height the block is confirmed at. *)
Theorem reorganize_blocks_success (fork_point : checkpoint)
    (incoming outgoing out : list block) (db db' : data_base) :
  size (block_database.confirmed_index (blocks_ db)) <= max_size_t ->
  block_reorganization.reorganize fork_point incoming outgoing db
  = (Some (success, out), db') ->
  block_database.candidate_index (blocks_ db')
  = block_database.candidate_index (blocks_ db) /\
  (forall i b,
     at_position incoming i = Some b ->
     at_position (block_database.candidate_index (blocks_ db))
       (checkpoint_height fork_point + 1 + i)
     = Some (block_hash b)) /\
  exists kept,
    size kept = checkpoint_height fork_point + 1 /\
    block_database.confirmed_index (blocks_ db) = kept ++ map block_hash out /\
    block_database.confirmed_index (blocks_ db')
    = kept ++ map block_hash incoming.
Proof.
  exact (reorganize_blocks_done fork_point incoming outgoing out db db').
Qed.

(** The block [101] popped and pushed again, its chain state set. *)
Lemma reorganize_blocks_success_witness :
  state (metadata (block_header scenarios.block_101)) = Some 11 /\
  option_map fst
    (fst (block_reorganization.reorganize scenarios.fork_100
            [scenarios.block_101] [] scenarios.chain))
  = Some success /\
  block_database.candidate_index
    (blocks_ (snd (block_reorganization.reorganize scenarios.fork_100
                     [scenarios.block_101] [] scenarios.chain)))
  = block_database.candidate_index (blocks_ scenarios.chain) /\
  exists kept,
    size kept = 0 + 1 /\
    block_database.confirmed_index (blocks_ scenarios.chain)
    = kept
      ++ map block_hash
           (returned_outgoing
              (fst (block_reorganization.reorganize scenarios.fork_100
                      [scenarios.block_101] [] scenarios.chain))) /\
    block_database.confirmed_index
      (blocks_ (snd (block_reorganization.reorganize scenarios.fork_100
                       [scenarios.block_101] [] scenarios.chain)))
    = kept ++ [101].
Proof.
  split; [reflexivity|]. split; [vm_compute; reflexivity|].
  destruct (reorganize_blocks_success scenarios.fork_100
              [scenarios.block_101] []
              (returned_outgoing
                 (fst (block_reorganization.reorganize scenarios.fork_100
                         [scenarios.block_101] [] scenarios.chain)))
              scenarios.chain
              (snd (block_reorganization.reorganize scenarios.fork_100
                      [scenarios.block_101] [] scenarios.chain))
              ltac:(vm_compute; discriminate)
              ltac:(vm_compute; reflexivity))
    as (C & _ & K).
  split; [exact C|exact K].
Defined.

(** ** A reorganization and its reverse *)

Lemma app_size_inv {A : Type} (l1 : list A) :
  forall l2 r1 r2,
    l1 ++ r1 = l2 ++ r2 -> size l1 = size l2 -> l1 = l2 /\ r1 = r2.
Proof.
  induction l1 as [|x l1 IH]; intros [|y l2] r1 r2 H Hs;
    cbn [app size] in *.
  - split; [reflexivity|exact H].
  - pose proof (size_nonneg l2). lia.
  - pose proof (size_nonneg l1). lia.
  - injection H as -> H. destruct (IH l2 r1 r2 H ltac:(lia)) as [-> ->].
    split; reflexivity.
Qed.



(** A [push_block] that returns has read the chain state of the header. *)
Lemma push_block_state (b : block) (height : size_t) (db db' : data_base)
    (ec : code) :
  block_reorganization.push_block b height db = (Some ec, db') ->
  has_state b.
Proof.
  unfold block_reorganization.push_block, has_state.
  destruct (state (metadata (block_header b))) as [mtp|]; intros H.
  - now exists mtp.
  - discriminate H.
Qed.

Lemma push_from_blocks_state (blocks : list block) :
  forall (first_height index : size_t) (db db' : data_base) (ok : bool),
    block_reorganization.push_from blocks first_height index db
    = (Some ok, db') ->
    ok = true -> Forall has_state blocks.
Proof.
  induction blocks as [|b blocks IH]; intros first_height index db db' ok H Hk;
    cbn [block_reorganization.push_from] in H.
  - constructor.
  - run_step H pushed db1 E. destruct pushed as [ec|]; [|discriminate H].
    destruct (is_error ec).
    + injection H as <- _. discriminate Hk.
    + constructor.
      * exact (push_block_state _ _ _ _ _ E).
      * exact (IH _ _ _ _ _ H Hk).
Qed.

(** The block a [pop_block] that succeeds gives has no chain state. *)
Lemma pop_block_state (out out' : block) (height : size_t)
    (db db' : data_base) (ec : code) :
  block_reorganization.pop_block out height db = (ec, out', db') ->
  is_error ec = false -> no_state out'.
Proof.
  intros H Hec. unfold block_reorganization.pop_block in H.
  unfold bind at 1 in H. unfold gets at 1 in H. cbv zeta in H.
  destruct (is_error (verify.verify_top (blocks_ db) height false)) eqn:V.
  { injection H as <- _ _. rewrite V in Hec. discriminate Hec. }
  destruct (block_database.get (blocks_ db) height false) as [r|].
  2:{ injection H as <- _ _. discriminate Hec. }
  unfold bind at 1 in H. unfold gets at 1 in H.
  run_step H ok2 db2 E2. destruct ok2; cbn [negb] in H.
  2:{ injection H as <- _ _. discriminate Hec. }
  run_step H ok3 db3 E3. destruct ok3; cbn [negb] in H.
  2:{ apply fail_write_result in H. destruct H as [H _].
      injection H as -> _. discriminate Hec. }
  run_step H ok4 db4 E4. destruct ok4; cbn [negb] in H.
  2:{ apply fail_write_result in H. destruct H as [H _].
      injection H as -> _. discriminate Hec. }
  run_step H u5 db5 E5. run_step H ec6 db6 E6.
  injection H as _ <- _. reflexivity.
Qed.

Lemma pop_from_blocks_state (fuel : nat) :
  forall (height fork : size_t) (blocks out : list block)
         (db db' : data_base),
    block_reorganization.pop_from fuel height fork blocks db
    = (true, out, db') ->
    Forall no_state blocks -> Forall no_state out.
Proof.
  induction fuel as [|fuel IH]; intros height fork blocks out db db' H Hb;
    cbn [block_reorganization.pop_from] in H.
  - injection H as <- _. exact Hb.
  - destruct (height >? fork).
    2:{ injection H as <- _. exact Hb. }
    run_step H r1 db1 E1. destruct r1 as [ec next].
    destruct (is_error ec) eqn:Hec; [discriminate H|].
    apply (IH _ _ _ _ _ _ H). constructor; [|exact Hb].
    exact (pop_block_state _ _ _ _ _ _ E1 Hec).
Qed.

(** In a reorganization of blocks that succeeds every block pushed has its
    chain state set, and no block popped has one. *)
Lemma reorganize_blocks_states (fork_point : checkpoint)
    (incoming outgoing out : list block) (db db' : data_base) :
  block_reorganization.reorganize fork_point incoming outgoing db
  = (Some (success, out), db') ->
  Forall has_state incoming /\ Forall no_state out.
Proof.
  intros H. unfold block_reorganization.reorganize in H.
  destruct (checkpoint_height fork_point >? _); [discriminate H|].
  run_step H r1 db1 E1. destruct r1 as [popped out1].
  run_step H ok2 db2 E2. destruct ok2 as [ok2|]; [|discriminate H].
  injection H as Hr <- <-.
  destruct ok2; [|discriminate Hr].
  destruct popped; cbn [block_reorganization.and_then_push] in E2;
    [|discriminate E2].
  split.
  - exact (push_from_blocks_state _ _ _ _ _ _ E2 eq_refl).
  - unfold block_reorganization.pop_above in E1.
    unfold bind at 1 in E1. unfold gets at 1 in E1. cbv zeta in E1.
    destruct (is_error (verify.verify (blocks_ db) fork_point false));
      [discriminate E1|].
    destruct (block_database.top (blocks_ db) false) as [top|];
      [|discriminate E1].
    destruct (_ =? 0).
    + injection E1 as <- _. constructor.
    + apply (pop_from_blocks_state _ _ _ _ _ _ _ E1). constructor.
Qed.

(** X25. A reorganization of blocks, then the reorganization at the same
    fork point that pushes blocks with the hashes of the blocks the first
    has popped, both succeeding, given that the sizes of the confirmed
    index before each fit a machine integer: the confirmed index is what it
    was, the candidate index is as it was, and the blocks the second pops
    have the hashes of the blocks the first has pushed, in order. The
    blocks popped carry no chain state and every block pushed has one: the
    blocks pushed back are copies of the blocks popped with the chain state
    set by the caller, not the blocks as popped. *)
Theorem reorganize_blocks_round_trip (fork_point : checkpoint)
    (incoming outgoing out back again out' : list block)
    (db db1 db2 : data_base) :
  size (block_database.confirmed_index (blocks_ db)) <= max_size_t ->
  size (block_database.confirmed_index (blocks_ db1)) <= max_size_t ->
  block_reorganization.reorganize fork_point incoming outgoing db
  = (Some (success, out), db1) ->
  map block_hash back = map block_hash out ->
  block_reorganization.reorganize fork_point back again db1
  = (Some (success, out'), db2) ->
  block_database.confirmed_index (blocks_ db2)
  = block_database.confirmed_index (blocks_ db) /\
  block_database.candidate_index (blocks_ db2)
  = block_database.candidate_index (blocks_ db) /\
  map block_hash out' = map block_hash incoming /\
  Forall no_state out /\ Forall has_state back.
Proof.
  intros Hmax Hmax1 H1 Hb H2.
  destruct (reorganize_blocks_states _ _ _ _ _ _ H1) as [_ Sout].
  destruct (reorganize_blocks_states _ _ _ _ _ _ H2) as [Sback _].
  destruct (reorganize_blocks_done _ _ _ _ _ _ Hmax H1)
    as (Hk & _ & kept & Hs & Hc & Hc1).
  destruct (reorganize_blocks_done _ _ _ _ _ _ Hmax1 H2)
    as (Hk' & _ & kept' & Hs' & Hc1' & Hc2).
  rewrite Hc1 in Hc1'.
  destruct (app_size_inv _ _ _ _ Hc1' ltac:(lia)) as [<- Hi].
  repeat split; try congruence; assumption.
Qed.

(** On the store with the blocks [100], [101] and [102] confirmed, the
    blocks [101] and [102] are popped and the block [101] pushed; then the
    block [101] is popped and copies of the two popped blocks, their chain
    state set, are pushed. *)
Lemma reorganize_blocks_round_trip_witness :
  block_reorganization.reorganize scenarios.fork_100 [scenarios.block_101] []
    scenarios.confirmed_102
  = (Some (success, scenarios.popped_101_102), scenarios.confirmed_101) /\
  map block_hash scenarios.popped_101_102 = [101; 102] /\
  option_map fst
    (fst (block_reorganization.reorganize scenarios.fork_100
            [scenarios.block_101; scenarios.bare_102] []
            scenarios.confirmed_101))
  = Some success /\
  block_database.confirmed_index
    (blocks_
       (snd (block_reorganization.reorganize scenarios.fork_100
               [scenarios.block_101; scenarios.bare_102] []
               scenarios.confirmed_101)))
  = block_database.confirmed_index (blocks_ scenarios.confirmed_102) /\
  block_database.candidate_index
    (blocks_
       (snd (block_reorganization.reorganize scenarios.fork_100
               [scenarios.block_101; scenarios.bare_102] []
               scenarios.confirmed_101)))
  = block_database.candidate_index (blocks_ scenarios.confirmed_102) /\
  map block_hash
    (returned_outgoing
       (fst (block_reorganization.reorganize scenarios.fork_100
               [scenarios.block_101; scenarios.bare_102] []
               scenarios.confirmed_101)))
  = map block_hash [scenarios.block_101] /\
  Forall no_state scenarios.popped_101_102 /\
  Forall has_state [scenarios.block_101; scenarios.bare_102].
Proof.
  split; [vm_compute; reflexivity|]. split; [reflexivity|].
  split; [vm_compute; reflexivity|].
  refine (reorganize_blocks_round_trip scenarios.fork_100
            [scenarios.block_101] [] scenarios.popped_101_102
            [scenarios.block_101; scenarios.bare_102] [] _
            scenarios.confirmed_102 scenarios.confirmed_101 _
            _ _ _ _ _).
  - vm_compute. discriminate.
  - vm_compute. discriminate.
  - vm_compute; reflexivity.
  - reflexivity.
  - vm_compute; reflexivity.
Defined.

(** ** The marks on the transactions *)

(** One call that rewrites the record under a link, succeeding: the record
    has the property the rewriting gives, and the records that had it have
    it still. *)
Lemma on_transactions_marks (P : transaction_database.tx_record -> Prop)
    (e : event)
    (f : transaction_database.tx_record -> transaction_database.tx_record)
    (l : link_type) (db db' : data_base) :
  (forall r, P (f r)) ->
  on_transactions e (fun t => transaction_database.apply_at f t l) db
  = (true, db') ->
  blocks_ db' = blocks_ db /\
  marked P (transactions_ db') l /\
  forall l', marked P (transactions_ db) l' ->
             marked P (transactions_ db') l'.
Proof.
  intros Hf H. apply on_transactions_frame in H.
  destruct H as (_ & H & B & _). split; [exact B|].
  unfold transaction_database.apply_at in H.
  destruct (transaction_database.rewrite_at f (transactions_ db) l)
    as [t'|] eqn:E; [|discriminate H].
  injection H as <-.
  pose proof (rewrite_at_get _ _ _ _ E) as G.
  destruct (rewrite_at_present _ _ _ _ E) as [rec0 P0].
  split.
  - exists (f rec0). unfold transaction_database.get.
    rewrite G, Z.eqb_refl, P0. split; [reflexivity|apply Hf].
  - intros l' (rec & Ha & Hp). unfold marked, transaction_database.get in *.
    rewrite G. destruct (l' =? l).
    + rewrite Ha. exists (f rec). split; [reflexivity|apply Hf].
    + exists rec. split; assumption.
Qed.

Lemma candidate_transactions_marks (txs : list transaction) :
  forall db db',
    public_writers.candidate_transactions txs db = (true, db') ->
    blocks_ db' = blocks_ db /\
    (forall l',
       marked (fun r => transaction_database.rec_candidate r = true)
              (transactions_ db) l' ->
       marked (fun r => transaction_database.rec_candidate r = true)
              (transactions_ db') l') /\
    Forall (fun tx =>
              marked (fun r => transaction_database.rec_candidate r = true)
                     (transactions_ db') (link (tx_metadata tx))) txs.
Proof.
  induction txs as [|tx txs IH]; intros db db' H;
    cbn [public_writers.candidate_transactions] in H.
  - injection H as <-. repeat split; auto.
  - run_step H ok db1 E. destruct ok; cbn [negb] in H; [|discriminate H].
    apply (on_transactions_marks
             (fun r => transaction_database.rec_candidate r = true)) in E;
      [|reflexivity].
    destruct E as (B1 & M1 & K1). apply IH in H. destruct H as (B & K & A).
    split; [congruence|]. split; [auto|]. constructor; auto.
Qed.

Lemma uncandidate_links_marks (links : list link_type) :
  forall db db',
    header_reorganization.uncandidate_links links db = (true, db') ->
    (forall l',
       marked (fun r => transaction_database.rec_candidate r = false)
              (transactions_ db) l' ->
       marked (fun r => transaction_database.rec_candidate r = false)
              (transactions_ db') l') /\
    Forall (marked (fun r => transaction_database.rec_candidate r = false)
                   (transactions_ db')) links.
Proof.
  induction links as [|l links IH]; intros db db' H;
    cbn [header_reorganization.uncandidate_links] in H.
  - injection H as <-. repeat split; auto.
  - run_step H ok db1 E. destruct ok; cbn [negb] in H; [|discriminate H].
    apply (on_transactions_marks
             (fun r => transaction_database.rec_candidate r = false)) in E;
      [|reflexivity].
    destruct E as (B1 & M1 & K1). apply IH in H. destruct H as (K & A).
    split; [auto|]. constructor; auto.
Qed.

Lemma unconfirm_transactions_marks (txs : list transaction) :
  forall db db',
    block_reorganization.unconfirm_transactions txs db = (true, db') ->
    (forall l',
       marked (fun r => transaction_database.rec_confirmation r = None)
              (transactions_ db) l' ->
       marked (fun r => transaction_database.rec_confirmation r = None)
              (transactions_ db') l') /\
    Forall (fun tx =>
              marked (fun r => transaction_database.rec_confirmation r = None)
                     (transactions_ db') (link (tx_metadata tx))) txs.
Proof.
  induction txs as [|tx txs IH]; intros db db' H;
    cbn [block_reorganization.unconfirm_transactions] in H.
  - injection H as <-. repeat split; auto.
  - run_step H ok db1 E. destruct ok; cbn [negb] in H; [|discriminate H].
    apply (on_transactions_marks
             (fun r => transaction_database.rec_confirmation r = None)) in E;
      [|reflexivity].
    destruct E as (B1 & M1 & K1). apply IH in H. destruct H as (K & A).
    split; [auto|]. constructor; auto.
Qed.

Lemma confirm_transactions_marks_all (height : size_t) (mtp : Z)
    (txs : list transaction) :
  forall position db db',
    block_reorganization.confirm_transactions txs height mtp position db
    = (true, db') ->
    (forall l',
       marked (fun r => exists q, transaction_database.rec_confirmation r
                                  = Some (height, mtp, q))
              (transactions_ db) l' ->
       marked (fun r => exists q, transaction_database.rec_confirmation r
                                  = Some (height, mtp, q))
              (transactions_ db') l') /\
    Forall (fun tx =>
              marked (fun r => exists q, transaction_database.rec_confirmation r
                                         = Some (height, mtp, q))
                     (transactions_ db') (link (tx_metadata tx))) txs.
Proof.
  induction txs as [|tx txs IH]; intros position db db' H;
    cbn [block_reorganization.confirm_transactions] in H.
  - injection H as <-. repeat split; auto.
  - run_step H ok db1 E. destruct ok; cbn [negb] in H; [|discriminate H].
    apply (on_transactions_marks
             (fun r => exists q, transaction_database.rec_confirmation r
                                 = Some (height, mtp, q))) in E;
      [|intros r; eexists; reflexivity].
    destruct E as (B1 & M1 & K1). apply IH in H. destruct H as (K & A).
    split; [auto|]. constructor; auto.
Qed.

Lemma validate_true_present (b b' : block_database.t) (h : hash_digest)
    (ec : code) :
  block_database.validate b h ec = (true, b') ->
  exists r, block_database.get_hash b h = Some r.
Proof.
  unfold block_database.validate, block_database.get_hash.
  destruct (block_database.find_record (block_database.table b) h) as [r|];
    [intros _; now exists r|discriminate].
Qed.

(** X26. When [candidate] returns success, the record of the header of the
    block is validated with success, the transactions under the links of
    the block are marked candidate, the two indices are as before, and the
    block is returned with that verdict in the metadata of its header. *)
Theorem candidate_marks (b b' : block) (db db' : data_base) :
  public_writers.candidate b db = (success, b', db') ->
  b' = {| block_header := set_verdict (block_header b) success;
          transactions := transactions b |} /\
  (exists r,
     block_database.get_hash (blocks_ db') (block_hash b) = Some r /\
     block_database.rec_validated r = true /\
     block_database.rec_error r = success) /\
  Forall (fun tx =>
            marked (fun r => transaction_database.rec_candidate r = true)
                   (transactions_ db') (link (tx_metadata tx)))
         (transactions b) /\
  block_database.candidate_index (blocks_ db')
  = block_database.candidate_index (blocks_ db) /\
  block_database.confirmed_index (blocks_ db')
  = block_database.confirmed_index (blocks_ db).
Proof.
  intros H. unfold public_writers.candidate in H.
  unfold bind at 1 in H. unfold gets at 1 in H. cbv zeta in H.
  destruct (is_error (preconditions.verify_not_failed (blocks_ db) b)) eqn:V.
  { injection H as H _ _. rewrite H in V. discriminate V. }
  run_step H ok0 db0 E0. destruct ok0; cbn [negb] in H; [|failed_branch H].
  run_step H ok1 db1 E1. destruct ok1; cbn [negb] in H; [|failed_branch H].
  run_step H ok2 db2 E2. destruct ok2; cbn [negb] in H; [|failed_branch H].
  run_step H ec3 db3 E3.
  unfold ret in H. inversion H; subst ec3 b' db3. clear H.
  apply begin_write_frame in E0. destruct E0 as (_ & B0 & X0).
  apply on_blocks_frame in E1. destruct E1 as (_ & B1 & X1 & _).
  apply candidate_transactions_marks in E2. destruct E2 as (B2 & _ & A2).
  apply finish_write_result in E3. destruct E3 as (_ & _ & B3 & X3).
  destruct (validate_indices _ _ _ _ _ B1) as [C1 F1].
  destruct (validate_true_present _ _ _ _ B1) as [r G].
  destruct (validate_record _ _ _ _ _ B1 G) as (r' & G' & _ & V' & R').
  split; [reflexivity|]. repeat split.
  - exists r'. rewrite B3, B2. repeat split; assumption.
  - now rewrite X3.
  - rewrite B3, B2, C1. now rewrite B0.
  - rewrite B3, B2, F1. now rewrite B0.
Qed.

Lemma candidate_marks_witness :
  fst (fst (public_writers.candidate scenarios.block_102 scenarios.chain))
  = success /\
  (exists r,
     block_database.get_hash
       (blocks_ (snd (public_writers.candidate scenarios.block_102
                        scenarios.chain))) 102
     = Some r /\
     block_database.rec_validated r = true /\
     block_database.rec_error r = success) /\
  Forall (fun tx =>
            marked (fun r => transaction_database.rec_candidate r = true)
                   (transactions_ (snd (public_writers.candidate
                                          scenarios.block_102 scenarios.chain)))
                   (link (tx_metadata tx)))
         [scenarios.linked 1001 1; scenarios.linked 1002 2].
Proof.
  split; [vm_compute; reflexivity|].
  destruct (candidate_marks scenarios.block_102
              (snd (fst (public_writers.candidate scenarios.block_102
                           scenarios.chain)))
              scenarios.chain
              (snd (public_writers.candidate scenarios.block_102
                      scenarios.chain))
              ltac:(vm_compute; reflexivity))
    as (_ & R & A & _).
  split; [exact R|exact A].
Defined.

(** X27. When [push_block] returns success, the header of the block has its
    chain state set, and the transactions under the links of the block are
    confirmed at the height of the push, with the median time past of that
    chain state. The hashes under the links are not looked at. *)
Theorem push_block_confirms (b : block) (height : size_t)
    (db db' : data_base) :
  block_reorganization.push_block b height db = (Some success, db') ->
  exists mtp,
    state (metadata (block_header b)) = Some mtp /\
    Forall (fun tx =>
              marked (fun r =>
                        exists position,
                          transaction_database.rec_confirmation r
                          = Some (height, mtp, position))
                     (transactions_ db') (link (tx_metadata tx)))
           (transactions b).
Proof.
  intros H. unfold block_reorganization.push_block in H.
  destruct (state (metadata (block_header b))) as [mtp|]; [|discriminate H].
  exists mtp. split; [reflexivity|].
  cbv zeta in H. unfold bind at 1 in H. unfold gets at 1 in H.
  destruct (is_error (verify.verify_push_block (blocks_ db) b height)) eqn:V.
  { injection H as H _. rewrite H in V. discriminate V. }
  run_step H ok0 db0 E0. destruct ok0; cbn [negb] in H; [|failed_branch H].
  run_step H ok1 db1 E1. destruct ok1; cbn [negb] in H; [|failed_branch H].
  run_step H ok2 db2 E2. destruct ok2; cbn [negb] in H; [|failed_branch H].
  run_step H u3 db3 E3.
  apply confirm_transactions_marks_all in E1. destruct E1 as [_ A1].
  apply on_blocks_frame in E2. destruct E2 as (_ & _ & X2 & _).
  apply commit_frame in E3. destruct E3 as (_ & _ & X3 & _).
  run_step H ec4 db4 E4. apply finish_write_result in E4.
  destruct E4 as (_ & _ & _ & X4). injection H as _ <-.
  rewrite X4, X3, X2. exact A1.
Qed.

(** The block [102], whose chain state has the median time past 12. *)
Lemma push_block_confirms_witness :
  fst (block_reorganization.push_block scenarios.block_102 2 scenarios.chain)
  = Some success /\
  exists mtp,
    state (metadata (block_header scenarios.block_102)) = Some mtp /\
    Forall (fun tx =>
              marked (fun r =>
                        exists position,
                          transaction_database.rec_confirmation r
                          = Some (2, mtp, position))
                     (transactions_
                        (snd (block_reorganization.push_block
                                scenarios.block_102 2 scenarios.chain)))
                     (link (tx_metadata tx)))
           [scenarios.linked 1001 1; scenarios.linked 1002 2].
Proof.
  split; [vm_compute; reflexivity|].
  refine (push_block_confirms scenarios.block_102 2 scenarios.chain _ _).
  vm_compute; reflexivity.
Defined.

(** X28. When [pop_block] does not fail, no transaction of the block it
    returns is confirmed any more. *)
Theorem pop_block_unconfirms (out out' : block) (height : size_t)
    (db db' : data_base) (ec : code) :
  block_reorganization.pop_block out height db = (ec, out', db') ->
  is_error ec = false ->
  Forall (fun tx =>
            marked (fun r => transaction_database.rec_confirmation r = None)
                   (transactions_ db') (link (tx_metadata tx)))
         (transactions out').
Proof.
  intros H Hec. unfold block_reorganization.pop_block in H.
  unfold bind at 1 in H. unfold gets at 1 in H. cbv zeta in H.
  destruct (is_error (verify.verify_top (blocks_ db) height false)) eqn:V.
  { injection H as <- _ _. rewrite Hec in V. discriminate V. }
  destruct (block_database.get (blocks_ db) height false) as [r|];
    [|injection H as <- _ _; discriminate Hec].
  unfold bind at 1 in H. unfold gets at 1 in H.
  run_step H ok0 db0 E0. destruct ok0; cbn [negb] in H;
    [|injection H as <- _ _; discriminate Hec].
  run_step H ok1 db1 E1. destruct ok1; cbn [negb] in H.
  2:{ apply fail_write_result in H. destruct H as [H _].
      injection H as -> _. discriminate Hec. }
  run_step H ok2 db2 E2. destruct ok2; cbn [negb] in H.
  2:{ apply fail_write_result in H. destruct H as [H _].
      injection H as -> _. discriminate Hec. }
  run_step H u3 db3 E3. run_step H ec4 db4 E4.
  injection H as _ <- <-.
  apply unconfirm_transactions_marks in E1. destruct E1 as [_ A1].
  apply on_blocks_frame in E2. destruct E2 as (_ & _ & X2 & _).
  apply commit_frame in E3. destruct E3 as (_ & _ & X3 & _).
  apply finish_write_result in E4. destruct E4 as (_ & _ & _ & X4).
  cbn [transactions] in *. rewrite X4, X3, X2. exact A1.
Qed.

(** The block [101] popped: its two transactions are not confirmed any
    more. *)
Lemma pop_block_unconfirms_witness :
  fst (fst (block_reorganization.pop_block default_block 1 scenarios.chain))
  = success /\
  map (fun tx => link (tx_metadata tx))
    (transactions
       (snd (fst (block_reorganization.pop_block default_block 1
                    scenarios.chain))))
  = [1; 2] /\
  Forall (fun tx =>
            marked (fun r => transaction_database.rec_confirmation r = None)
                   (transactions_
                      (snd (block_reorganization.pop_block default_block 1
                              scenarios.chain)))
                   (link (tx_metadata tx)))
         (transactions
            (snd (fst (block_reorganization.pop_block default_block 1
                         scenarios.chain)))).
Proof.
  split; [vm_compute; reflexivity|]. split; [vm_compute; reflexivity|].
  refine (pop_block_unconfirms default_block _ 1 scenarios.chain _ _
            (pairing3 (block_reorganization.pop_block default_block 1
                         scenarios.chain))
            _).
  vm_compute; reflexivity.
Defined.

(** X29. When [pop_header] has popped the header at the top of the candidate
    index, no transaction under a link of that header is marked candidate
    any more. *)
Theorem pop_header_uncandidates (out out' : header) (height : size_t)
    (db db' : data_base) (ec : code) (r : block_database.block_record) :
  verify.verify_top (blocks_ db) height true = success ->
  block_database.get (blocks_ db) height true = Some r ->
  header_reorganization.pop_header out height db = (ec, out', db') ->
  is_error ec = false ->
  Forall (marked (fun r => transaction_database.rec_candidate r = false)
                 (transactions_ db'))
         (block_database.rec_links r).
Proof.
  intros V G H Hec. unfold header_reorganization.pop_header in H.
  unfold bind at 1 in H. unfold gets at 1 in H. cbv zeta in H.
  rewrite V, G in H. cbn [is_error] in H.
  run_step H ok0 db0 E0. destruct ok0; cbn [negb] in H;
    [|injection H as <- _ _; discriminate Hec].
  run_step H ok1 db1 E1. destruct ok1; cbn [negb] in H.
  2:{ apply fail_write_result in H. destruct H as [H _].
      injection H as -> _. discriminate Hec. }
  run_step H ok2 db2 E2. destruct ok2; cbn [negb] in H.
  2:{ apply fail_write_result in H. destruct H as [H _].
      injection H as -> _. discriminate Hec. }
  run_step H u3 db3 E3. run_step H ec4 db4 E4.
  injection H as _ _ <-.
  apply uncandidate_links_marks in E1. destruct E1 as [_ A1].
  apply on_blocks_frame in E2. destruct E2 as (_ & _ & X2 & _).
  apply leaf_commit_frame in E3. destruct E3 as (_ & _ & X3 & _).
  apply finish_write_result in E4. destruct E4 as (_ & _ & _ & X4).
  rewrite X4, X3, X2. exact A1.
Qed.

(** The genesis header popped off the candidate index, its transaction
    being marked candidate: the mark is cleared. *)
Lemma pop_header_uncandidates_witness :
  marked (fun r => transaction_database.rec_candidate r = true)
         (transactions_ scenarios.candidate_genesis) 0 /\
  fst (fst (header_reorganization.pop_header default_header 0
              scenarios.candidate_genesis))
  = success /\
  Forall (marked (fun r => transaction_database.rec_candidate r = false)
                 (transactions_
                    (snd (header_reorganization.pop_header default_header 0
                            scenarios.candidate_genesis))))
         [0].
Proof.
  split; [eexists; split; vm_compute; reflexivity|].
  split; [vm_compute; reflexivity|].
  refine (pop_header_uncandidates default_header _ 0
            scenarios.candidate_genesis _ _
            {| block_database.rec_hash := 100;
               block_database.rec_previous := 0;
               block_database.rec_fields := 1600;
               block_database.rec_height := 0;
               block_database.rec_median_time_past := 0;
               block_database.rec_validated := true;
               block_database.rec_error := success;
               block_database.rec_links := [0] |}
            _ _
            (pairing3 (header_reorganization.pop_header default_header 0
                         scenarios.candidate_genesis))
            _).
  - vm_compute; reflexivity.
  - vm_compute; reflexivity.
  - vm_compute; reflexivity.
Defined.

(** ** The destructor *)

(** X30. The destructor on an object that is closed, as it is when it has
    been constructed and never opened, or opened without success, changes
    nothing and makes no call; on any object it leaves the two stores as
    they are. *)
Theorem destructor_outcome (db : data_base) :
  (closed_ db = true -> lifecycle.destroy db = (tt, db)) /\
  (forall s b t fl io,
     lifecycle.destroy (lifecycle.construct s b t fl io)
     = (tt, lifecycle.construct s b t fl io)) /\
  blocks_ (snd (lifecycle.destroy db)) = blocks_ db /\
  transactions_ (snd (lifecycle.destroy db)) = transactions_ db.
Proof.
  split; [|split].
  - intros Hc. unfold lifecycle.destroy, bind.
    now rewrite (close_closed db Hc).
  - reflexivity.
  - destruct db as [c [ia fw] b t fl io tr].
    unfold lifecycle.destroy, close, leaf_close, store.close,
      store.flush_each_write, and_then, bind, emit, modify, gets, next_io,
      ret.
    cbn. destruct c; [split; reflexivity|].
    destruct io as [|[] [|[] [|[] [|[] io]]]], ia, fw; cbn; split; reflexivity.
Qed.
